(** * Calibration orchestration of PypeIt: [pypeit/calibrations.py]

    A shallow embedding of the [Calibrations] class: the attribute
    store of the object, the in-memory calibration cache
    ([calib_dict]), the table of master keys ([master_key_dict]) and
    the nine [get_*] methods, followed by the properties of the
    orchestration that hold (or fail) on this code.

    The numerical builders ([arcimage], [biasframe], [edgetrace], ...),
    the frame table ([fitstbl]) and the message sink ([msgs]) are
    collaborators of the class, not part of it; they enter through the
    record [Env]. *)

From stdpp Require Import gmap strings list fin_maps pretty.

#[local] Set Warnings "-register-all".
#[local] Open Scope string_scope.
#[local] Open Scope Z_scope.

(** ** Python values *)

(** The objects that flow through the class.  Images, builders and
    other products of the collaborators are opaque and compared by
    reference ([o] is the identity of the object).  A string is kept
    by content; [VLit s] is the one string object that the literal
    ['s'] of the program text denotes, [VStr s] any other string
    object with that content (a string read from a file, say): [==]
    does not tell them apart, [is] does.  A [SlitTraceSet]
    is the one object the class writes into after it has been cached:
    [VSlits o nslits mask0] is a reference to it, [mask0] the mask it
    was created with; its current mask lives in the store
    [slit_masks] of the state, shared by every reference to [o]. *)
Inductive value :=
| VNone
| VBool (b : bool)
| VInt (z : Z)
| VStr (s : string)
| VLit (s : string)
| VStrs (l : list string)
| VRows (rows : list Z)
| VShape (dims : list Z)
| VDict (items : list (string * value))
| VMask (m : list bool)
| VImage (o : positive) (nspec nspat : Z)
| VScaled (a : value) (k : Z)
| VObj (o : positive)
| VSlits (o : positive) (nslits : Z) (mask0 : list bool).

(** [x is None] *)
Definition is_None (v : value) : bool :=
  match v with VNone => true | _ => false end.

(** Truth value of an object in a condition. *)
Definition truthy (v : value) : bool :=
  match v with
  | VNone => false
  | VBool b => b
  | VInt z => negb (z =? 0)
  | VStr s | VLit s => negb (String.eqb s EmptyString)
  | VStrs l => negb (Nat.eqb (length l) 0)
  | VRows l => negb (Nat.eqb (length l) 0)
  | VShape l => negb (Nat.eqb (length l) 0)
  | VDict l => negb (Nat.eqb (length l) 0)
  | _ => true
  end.

(** [hasattr(x, '__len__')] *)
Definition has_len (v : value) : bool :=
  match v with
  | VStr _ | VLit _ | VStrs _ | VRows _ | VShape _ | VDict _ | VMask _
  | VImage _ _ _ | VScaled _ _ => true
  | _ => false
  end.

(** [x == 'lit'] and [x != 'lit'] against a string literal. *)
Definition eq_str (v : value) (lit : string) : bool :=
  match v with
  | VStr s | VLit s => String.eqb s lit
  | _ => false
  end.

(** [x is 'lit']: identity, not equality.  The interpreter keeps one
    object for the literal; an equal string that was built at run time
    is another object, and the test fails on it. *)
Definition is_str (v : value) (lit : string) : bool :=
  match v with
  | VLit s => String.eqb s lit
  | _ => false
  end.

(** [str(x)], as [format] uses it on the objects that are printed. *)
Definition py_str (v : value) : string :=
  match v with
  | VNone => "None"
  | VBool true => "True"
  | VBool false => "False"
  | VInt z => pretty z
  | VStr s | VLit s => s
  | _ => "<object>"
  end.

(** [len(x)] *)
Definition py_len (v : value) : option nat :=
  match v with
  | VStr s | VLit s => Some (String.length s)
  | VStrs l => Some (length l)
  | VRows l => Some (length l)
  | VShape l => Some (length l)
  | VDict l => Some (length l)
  | VMask l => Some (length l)
  | VImage _ n _ => Some (Z.to_nat n)
  | _ => None
  end.

(** [a.shape[0]] of an array. *)
Fixpoint shape0 (v : value) : option Z :=
  match v with
  | VImage _ n _ => Some n
  | VScaled a _ => shape0 a
  | VMask m => Some (Z.of_nat (length m))
  | _ => None
  end.

Definition comma : Ascii.ascii := Ascii.ascii_of_nat 44.

(** [s.split(',')[0]] and [',' in s] *)
Fixpoint before_comma (s : string) : string :=
  match s with
  | EmptyString => EmptyString
  | String c rest => if Ascii.eqb c comma then EmptyString else String c (before_comma rest)
  end.

Fixpoint has_comma (s : string) : bool :=
  match s with
  | EmptyString => false
  | String c rest => if Ascii.eqb c comma then true else has_comma rest
  end.

(** A function argument that is either one object or a tuple of
    objects, as [_update_cache] distinguishes them with
    [isinstance(x, tuple)]. *)
Inductive one_or_many (A : Type) :=
| One (a : A)
| Many (l : list A).
Arguments One {A} a.
Arguments Many {A} l.

(** [x if isinstance(x, tuple) else (x,)] *)
Definition as_tuple {A} (x : one_or_many A) : list A :=
  match x with One a => [a] | Many l => l end.

(** ** Exceptions, results and the log *)

Inductive exn :=
| PypeItError (msg : string)
| AttributeError (name : string)
| KeyError (key : string)
| TypeError (what : string)
| ValueError (what : string)
| IndexError (what : string)
| Raised (by_callee : string).

Inductive res (A : Type) :=
| Ok (a : A)
| Raise (e : exn).
Arguments Ok {A} a.
Arguments Raise {A} e.

(** What the class does to the outside, in order: the messages it
    sends to [msgs] and the calls it makes on its collaborators, each
    with the exception it ended in, if any. *)
Inductive event :=
| Info (msg : string)
| Warn (msg : string)
| Error (msg : string)
| Call (callee : string) (args : list value) (raised : option exn).

Definition is_Call (e : event) : bool :=
  match e with Call _ _ _ => true | _ => false end.

Definition is_Warn (e : event) : bool :=
  match e with Warn _ => true | _ => false end.

(** ** The object *)

(** [attrs] is the instance dictionary: an attribute that was never
    assigned is absent from it, and reading it raises
    [AttributeError].  The two dictionaries the class keeps are typed
    fields of their own.  [log] has the newest event first. *)
Record Calibrations := mkCalibrations {
  attrs : gmap string value;
  calib_dict : gmap string (gmap string value);
  master_key_dict : gmap string string;
  slit_masks : gmap positive (list bool);
  log : list event
}.

Definition with_attrs (f : gmap string value → gmap string value) (s : Calibrations) :=
  mkCalibrations (f (attrs s)) (calib_dict s) (master_key_dict s) (slit_masks s) (log s).

Definition with_calib_dict
  (f : gmap string (gmap string value) → gmap string (gmap string value)) (s : Calibrations) :=
  mkCalibrations (attrs s) (f (calib_dict s)) (master_key_dict s) (slit_masks s) (log s).

Definition with_master_key_dict (f : gmap string string → gmap string string) (s : Calibrations) :=
  mkCalibrations (attrs s) (calib_dict s) (f (master_key_dict s)) (slit_masks s) (log s).

Definition with_slit_masks
  (f : gmap positive (list bool) → gmap positive (list bool)) (s : Calibrations) :=
  mkCalibrations (attrs s) (calib_dict s) (master_key_dict s) (f (slit_masks s)) (log s).

Definition with_log (f : list event → list event) (s : Calibrations) :=
  mkCalibrations (attrs s) (calib_dict s) (master_key_dict s) (slit_masks s) (f (log s)).

(** ** Methods as state transformers

    A method runs on the object and either returns or raises; what it
    wrote before raising stays written. *)
Definition M (A : Type) : Type := Calibrations → res A * Calibrations.

Definition ret {A} (a : A) : M A := fun s => (Ok a, s).

Definition bind {A B} (m : M A) (k : A → M B) : M B := fun s =>
  match m s with
  | (Ok a, s') => k a s'
  | (Raise e, s') => (Raise e, s')
  end.

Definition raise {A} (e : exn) : M A := fun s => (Raise e, s).

#[global] Instance M_ret : MRet M := @ret.
#[global] Instance M_bind : MBind M := fun A B k m => bind m k.

Definition gets {A} (f : Calibrations → A) : M A := fun s => (Ok (f s), s).

Definition modify (f : Calibrations → Calibrations) : M unit := fun s => (Ok tt, f s).

Definition emit (e : event) : M unit := modify (with_log (cons e)).

(** [try: body except: handler] with a bare [except]. *)
Definition try_except {A} (body : M A) (handler : M A) : M A := fun s =>
  match body s with
  | (Ok a, s') => (Ok a, s')
  | (Raise _, s') => handler s'
  end.

(** [self.name] *)
Definition getattr (name : string) : M value := fun s =>
  match attrs s !! name with
  | Some v => (Ok v, s)
  | None => (Raise (AttributeError name), s)
  end.

(** [self.name = v] *)
Definition setattr (name : string) (v : value) : M unit :=
  modify (with_attrs <[name := v]>).

(** [d[key]] on a dictionary-like object. *)
Definition subscript (d : value) (key : string) : M value :=
  match d with
  | VDict items =>
      match list_find (fun kv => kv.1 = key) items with
      | Some (_, (_, v)) => ret v
      | None => raise (KeyError key)
      end
  | _ => raise (TypeError "subscript")
  end.

(** [self.master_key_dict[name]] *)
Definition master_key_of (name : string) : M string := fun s =>
  match master_key_dict s !! name with
  | Some k => (Ok k, s)
  | None => (Raise (KeyError name), s)
  end.

(** [self.master_key_dict[name] = key] *)
Definition set_master_key (name key : string) : M unit :=
  modify (with_master_key_dict <[name := key]>).

(** [self.calib_dict[key][master_type]] *)
Definition cache_get (key master_type : string) : M value := fun s =>
  match calib_dict s !! key with
  | None => (Raise (KeyError key), s)
  | Some entry =>
      match entry !! master_type with
      | Some v => (Ok v, s)
      | None => (Raise (KeyError master_type), s)
      end
  end.

(** [self.calib_dict[key][master_type] = v] *)
Definition cache_set (key master_type : string) (v : value) : M unit := fun s =>
  match calib_dict s !! key with
  | None => (Raise (KeyError key), s)
  | Some entry => (Ok tt, with_calib_dict <[key := <[master_type := v]> entry]> s)
  end.

(** ** numpy on the slit masks *)

(** [a |= b] on one-dimensional boolean arrays: [b] has the shape of
    [a] or a single element that is broadcast; [None] is numpy's
    refusal to broadcast. *)
Definition ior (a b : list bool) : option (list bool) :=
  match b with
  | [x] => Some (map (fun y => orb y x) a)
  | _ => if Nat.eqb (length a) (length b) then Some (zip_with orb a b) else None
  end.

(** [np.zeros(n, dtype=bool)] *)
Definition zeros (n : Z) : M value :=
  if n <? 0 then raise (ValueError "negative dimensions") else ret (VMask (replicate (Z.to_nat n) false)).

(** [np.zeros_like(a, dtype=bool)] *)
Definition zeros_like (a : value) : M value :=
  match a with
  | VMask m => ret (VMask (replicate (length m) false))
  | _ => raise (TypeError "zeros_like")
  end.

(** [self.slits.mask] and [self.slits.nslits] *)
Definition slits_mask (slits : value) : M (list bool) := fun s =>
  match slits with
  | VSlits o _ mask0 => (Ok (default mask0 (slit_masks s !! o)), s)
  | _ => (Raise (AttributeError "mask"), s)
  end.

Definition slits_nslits (slits : value) : M Z :=
  match slits with
  | VSlits _ n _ => ret n
  | _ => raise (AttributeError "nslits")
  end.

(** [self.slits.mask |= contribution]: the array held by the slit
    object is updated in place, so every holder of the object (the
    attribute and the cache) sees the new mask. *)
Definition slits_mask_ior (contribution : value) : M unit :=
  slits ← getattr "slits";
  mask ← slits_mask slits;
  match slits, contribution with
  | VSlits o _ _, VMask c =>
      match ior mask c with
      | Some mask' => modify (with_slit_masks <[o := mask']>)
      | None => raise (ValueError "operands could not be broadcast together")
      end
  | _, _ => raise (TypeError "ior")
  end.

(** ** Collaborators *)

(** The frame table is fixed data: its queries are functions, which
    return and leave no event in the log; a table that is None, or
    whose queries raise, is not modelled.  The
    builders, the spectrograph and the file system are reached through
    [ext] (one result), [ext2] and [ext3] (a pair, a triple): the
    answer may depend on everything that happened so far, so they see
    the object with its log, and they may raise.  [py_int] is Python's
    [int] on a string, [isinstance] its class test, [frametype] the
    class attribute of that name of a builder. *)
Record Env := mkEnv {
  find_frames : string → value → list Z;
  frame_paths : value → value;
  master_key : value → value → string;
  fitstbl_calib : value → string;
  py_int : string → option Z;
  isinstance : value → string → bool;
  frametype : value → string;
  ext_answer : Calibrations → string → list value → res value;
  ext2_answer : Calibrations → string → list value → res (value * value);
  ext3_answer : Calibrations → string → list value → res (value * value * value)
}.

Section Calibrations.

Variable E : Env.

Definition raised_by {A} (r : res A) : option exn :=
  match r with Ok _ => None | Raise e => Some e end.

Definition ext (callee : string) (args : list value) : M value := fun s =>
  let r := ext_answer E s callee args in
  (r, with_log (cons (Call callee args (raised_by r))) s).

Definition ext2 (callee : string) (args : list value) : M (value * value) := fun s =>
  let r := ext2_answer E s callee args in
  (r, with_log (cons (Call callee args (raised_by r))) s).

Definition ext3 (callee : string) (args : list value) : M (value * value * value) := fun s =>
  let r := ext3_answer E s callee args in
  (r, with_log (cons (Call callee args (raised_by r))) s).

(** *** [msgs] *)

Definition msgs_info (msg : string) : M unit := emit (Info msg).

Definition msgs_warn (msg : string) : M unit := emit (Warn msg).

(** Modelled from the spec: [msgs.error] of the package's message
    module, which is not among the sources; the spec has every such
    call fatal, so it reports the message and raises. *)
Definition msgs_error {A} (msg : string) : M A :=
  emit (Error msg) ;; raise (PypeItError msg).

(** *** Checks *)

(** [_chk_set]: each listed attribute must have been set. *)
Fixpoint _chk_set (items : list string) : M unit :=
  match items with
  | [] => ret tt
  | item :: rest =>
      v ← getattr item;
      (if is_None v
       then msgs_error ("Use self.set to specify '" ++ item ++ "' prior to generating XX")
       else ret tt) ;;
      _chk_set rest
  end.

(** [obj[2:] if obj[0:2] == 'ms' else obj] *)
Definition strip_ms (obj : string) : string :=
  if String.eqb (String.substring 0 2 obj) "ms"
  then String.substring 2 (String.length obj - 2) obj
  else obj.

(** [_chk_objs]: do the listed attributes hold an object? *)
Fixpoint _chk_objs (items : list string) : M bool :=
  match items with
  | [] => ret true
  | obj :: rest =>
      v ← getattr obj;
      if is_None v
      then
        msgs_warn ("You need to generate " ++ obj ++ " prior to this calibration..") ;;
        msgs_warn ("Use get_" ++ strip_ms obj) ;;
        ret false
      else _chk_objs rest
  end.

(** *** The cache *)

(** [_reset_internals] *)
Definition _reset_internals : M unit :=
  setattr "shape" VNone ;;
  setattr "msarc" VNone ;;
  setattr "msbias" VNone ;;
  setattr "msbpm" VNone ;;
  setattr "slits" VNone ;;
  setattr "wavecalib" VNone ;;
  setattr "tilts_dict" VNone ;;
  setattr "mspixelflat" VNone ;;
  setattr "msillumflat" VNone ;;
  setattr "mswave" VNone ;;
  setattr "calib_ID" VNone ;;
  modify (with_master_key_dict (fun _ => ∅)).

(** The loop of [_update_cache]:
    [self.calib_dict[self.master_key_dict[master_key]][key] = d]. *)
Fixpoint _update_cache_loop (master_key : string) (pairs : list (string * value)) : M unit :=
  match pairs with
  | [] => ret tt
  | (key, d) :: rest =>
      k ← master_key_of master_key;
      cache_set k key d ;;
      _update_cache_loop master_key rest
  end.

(** [_update_cache] *)
Definition _update_cache (master_key : string) (master_type : one_or_many string)
  (data : one_or_many value) : M unit :=
  let _master_type := as_tuple master_type in
  let _data := as_tuple data in
  _update_cache_loop master_key (zip _master_type _data).

(** [_cached] *)
Definition _cached (master_type master_key : string) : M bool :=
  cache ← gets calib_dict;
  match cache !! master_key with
  | None =>
      modify (with_calib_dict <[master_key := ∅]>) ;;
      ret false
  | Some entry =>
      match entry !! master_type with
      | Some _ =>
          msgs_info ("Using " ++ master_type ++ " for " ++ master_key ++ " found in cache.") ;;
          ret true
      | None =>
          cache_set master_key master_type (VDict []) ;;
          ret false
      end
  end.

(** *** Construction and configuration *)

Definition when (b : bool) (m : M unit) : M unit := if b then m else mret tt.

(** [self.par[k]] and [self.par[k1][k2]] *)
Definition par_item (k : string) : M value :=
  par ← getattr "par"; subscript par k.

Definition par_item2 (k1 k2 : string) : M value :=
  sub ← par_item k1; subscript sub k2.

(** [len(x)] *)
Definition len_of (v : value) : M nat :=
  match py_len v with
  | Some n => mret n
  | None => raise (TypeError "len")
  end.

(** [os.path.join(a, b)] on POSIX paths: an absolute [b] replaces
    [a]; a separator is put in between unless [a] is empty or ends
    with one. *)
Definition slash : Ascii.ascii := Ascii.ascii_of_nat 47.

Definition is_absolute (b : string) : bool :=
  match b with
  | String c _ => Ascii.eqb c slash
  | EmptyString => false
  end.

Fixpoint ends_with_slash (a : string) : bool :=
  match a with
  | EmptyString => false
  | String c EmptyString => Ascii.eqb c slash
  | String _ rest => ends_with_slash rest
  end.

Definition path_join (a : value) (b : string) : M value :=
  match a with
  | VStr d | VLit d =>
      mret (VStr (if is_absolute b then b
                  else if String.eqb d EmptyString || ends_with_slash d then d ++ b
                  else d ++ "/" ++ b))
  | _ => raise (TypeError "join")
  end.

(** [Calibrations.__init__] *)
Definition __init__ (fitstbl par spectrograph caldir qadir save_masters reuse_masters show : value)
  : M unit :=
  when (negb (isinstance E fitstbl "PypeItMetaData") && negb (is_None fitstbl))
    (msgs_error "fitstbl must be an PypeItMetaData object") ;;
  when (negb (isinstance E par "CalibrationsPar"))
    (msgs_error "Input parameters must be a CalibrationsPar instance.") ;;
  when (negb (isinstance E spectrograph "Spectrograph"))
    (msgs_error "Must provide Spectrograph instance to Calibrations.") ;;
  setattr "fitstbl" fitstbl ;;
  setattr "par" par ;;
  setattr "spectrograph" spectrograph ;;
  setattr "reuse_masters" reuse_masters ;;
  setattr "master_dir" caldir ;;
  setattr "save_masters" save_masters ;;
  setattr "qa_path" qadir ;;
  setattr "write_qa" (VBool (negb (is_None qadir))) ;;
  setattr "show" show ;;
  master_dir ← getattr "master_dir";
  when (is_None master_dir)
    (save ← getattr "save_masters";
     when (truthy save)
       (msgs_warn ("To save masters, must provide the directory (caldir).  "
                   ++ "Masters will not be saved!") ;;
        setattr "save_masters" (VBool false)) ;;
     reuse ← getattr "reuse_masters";
     when (truthy reuse)
       (msgs_warn ("To reuse masters, must provide the directory (caldir).  "
                   ++ "Masters will not be reused!") ;;
        setattr "reuse_masters" (VBool false))) ;;
  save ← getattr "save_masters";
  when (truthy save)
    (master_dir ← getattr "master_dir";
     there ← ext "os.path.isdir" [master_dir];
     when (negb (truthy there)) (ext "os.makedirs" [master_dir] ;; mret tt)) ;;
  write_qa ← getattr "write_qa";
  when (truthy write_qa)
    (qa_path ← getattr "qa_path";
     pngs ← path_join qa_path "PNGs";
     there ← ext "os.path.isdir" [pngs];
     when (negb (truthy there))
       (qa_path ← getattr "qa_path";
        pngs ← path_join qa_path "PNGs";
        ext "os.makedirs" [pngs] ;; mret tt)) ;;
  modify (with_calib_dict (fun _ => ∅)) ;;
  setattr "det" VNone ;;
  setattr "frame" VNone ;;
  setattr "steps" (VStrs []) ;;
  _reset_internals.

(** The object before [__init__] has run on it. *)
Definition new_object : Calibrations := mkCalibrations ∅ ∅ ∅ ∅ [].

(** [set_config] *)
Definition set_config (frame det par calib_id : value) (rm_cache : bool) : M unit :=
  when (has_len frame) (msgs_error "Must provide a single integer for frame.") ;;
  _reset_internals ;;
  when rm_cache
    (msgs_warn "Emptying calibration cache!" ;;
     modify (with_calib_dict (fun _ => ∅))) ;;
  setattr "frame" frame ;;
  calib_ID ← (if is_None calib_id
              then match py_int E (before_comma (fitstbl_calib E frame)) with
                   | Some n => mret (VInt n)
                   | None => raise (ValueError "invalid literal for int()")
                   end
              else mret calib_id);
  setattr "calib_ID" calib_ID ;;
  when (is_None calib_id && has_comma (fitstbl_calib E frame))
    (calib_ID ← getattr "calib_ID";
     msgs_warn ("Frame " ++ py_str frame ++ " is associated with more than  one calibration "
                ++ "group.  Using the first one (" ++ py_str calib_ID ++ ").")) ;;
  setattr "det" det ;;
  when (negb (is_None par)) (setattr "par" par) ;;
  set_master_key "frame" (master_key E frame det).

(** *** [SlitTraceSet], from [pypeit/slittrace.py] *)

(** [SlitTraceSet.from_master] *)
Definition SlitTraceSet_from_master (master_key master_dir reuse : value) : M value :=
  if negb (truthy reuse) then mret VNone
  else
    frame ← ext "masterframe.MasterFrame"
              [VLit "Slits"; master_dir; master_key; VLit "fits.gz"; reuse];
    ifile ← ext "MasterFrame.chk_load_master" [frame; VNone];
    if is_None ifile then mret VNone
    else
      msgs_info ("Loading SlitTraceSet from: " ++ py_str ifile) ;;
      ext "SlitTraceSet.from_file" [ifile].

(** [SlitTraceSet.to_master], with [overwrite=True]. *)
Definition SlitTraceSet_to_master (slits : value) : M unit :=
  match slits with
  | VSlits _ _ _ =>
      path ← ext "SlitTraceSet.master_file_path" [slits];
      ext "SlitTraceSet.to_file" [slits; path; VBool true; VBool true] ;;
      mret tt
  | _ => raise (AttributeError "to_master")
  end.

(** *** The getters *)

(** [rows[0] if len(rows) > 0 else self.frame] *)
Definition representative (rows : list Z) : M value :=
  match rows with
  | r :: _ => mret (VInt r)
  | [] => getattr "frame"
  end.

(** [get_arc] *)
Definition get_arc : M value :=
  _chk_set ["det"; "calib_ID"; "par"] ;;
  calib_ID ← getattr "calib_ID";
  let arc_rows := find_frames E "arc" calib_ID in
  setattr "arc_files" (frame_paths E (VRows arc_rows)) ;;
  rep ← representative arc_rows;
  det ← getattr "det";
  set_master_key "arc" (master_key E rep det) ;;
  key ← master_key_of "arc";
  hit ← _cached "arc" key;
  (if (hit : bool) then
    key ← master_key_of "arc";
    cached ← cache_get key "arc";
    setattr "msarc" cached ;;
    getattr "msarc"
  else
    spectrograph ← getattr "spectrograph";
    files ← getattr "arc_files";
    det ← getattr "det";
    msbias ← getattr "msbias";
    par ← par_item "arcframe";
    key ← master_key_of "arc";
    master_dir ← getattr "master_dir";
    reuse ← getattr "reuse_masters";
    builder ← ext "arcimage.ArcImage"
                [spectrograph; files; det; msbias; par; VStr key; master_dir; reuse];
    setattr "arcImage" builder ;;
    builder ← getattr "arcImage";
    loaded ← ext "ArcImage.load" [builder];
    setattr "msarc" loaded ;;
    msarc ← getattr "msarc";
    when (is_None msarc)
      (builder ← getattr "arcImage";
       msgs_info ("Preparing a master " ++ frametype E builder ++ " frame") ;;
       builder ← getattr "arcImage";
       msbias ← getattr "msbias";
       msbpm ← getattr "msbpm";
       built ← ext "ArcImage.build_image" [builder; msbias; msbpm];
       setattr "msarc" built ;;
       save ← getattr "save_masters";
       when (truthy save)
         (builder ← getattr "arcImage"; ext "ArcImage.save" [builder] ;; mret tt)) ;;
    msarc ← getattr "msarc";
    _update_cache "arc" (One "arc") (One msarc) ;;
    getattr "msarc") : M value.

(** [get_tiltimg] *)
Definition get_tiltimg : M value :=
  _chk_set ["det"; "calib_ID"; "par"] ;;
  calib_ID ← getattr "calib_ID";
  let tilt_rows := find_frames E "tilt" calib_ID in
  when (Nat.eqb (length tilt_rows) 0)
    (msgs_error "Must identify tilt frames to construct tilt image.") ;;
  setattr "tilt_files" (frame_paths E (VRows tilt_rows)) ;;
  rep ← representative tilt_rows;
  det ← getattr "det";
  set_master_key "tilt" (master_key E rep det) ;;
  key ← master_key_of "tilt";
  hit ← _cached "tiltimg" key;
  (if (hit : bool) then
    key ← master_key_of "tilt";
    cached ← cache_get key "tiltimg";
    setattr "mstilt" cached ;;
    getattr "mstilt"
  else
    spectrograph ← getattr "spectrograph";
    files ← getattr "tilt_files";
    det ← getattr "det";
    msbias ← getattr "msbias";
    par ← par_item "tiltframe";
    key ← master_key_of "tilt";
    master_dir ← getattr "master_dir";
    reuse ← getattr "reuse_masters";
    builder ← ext "tiltimage.TiltImage"
                [spectrograph; files; det; msbias; par; VStr key; master_dir; reuse];
    setattr "tiltImage" builder ;;
    builder ← getattr "tiltImage";
    loaded ← ext "TiltImage.load" [builder];
    setattr "mstilt" loaded ;;
    mstilt ← getattr "mstilt";
    when (is_None mstilt)
      (builder ← getattr "tiltImage";
       msgs_info ("Preparing a master " ++ frametype E builder ++ " frame") ;;
       builder ← getattr "tiltImage";
       msbias ← getattr "msbias";
       msbpm ← getattr "msbpm";
       built ← ext "TiltImage.build_image" [builder; msbias; msbpm];
       setattr "mstilt" built ;;
       save ← getattr "save_masters";
       when (truthy save)
         (builder ← getattr "tiltImage"; ext "TiltImage.save" [builder] ;; mret tt)) ;;
    mstilt ← getattr "mstilt";
    _update_cache "tilt" (One "tiltimg") (One mstilt) ;;
    getattr "mstilt") : M value.

(** [get_bias] *)
Definition get_bias : M value :=
  _chk_set ["det"; "calib_ID"; "par"] ;;
  calib_ID ← getattr "calib_ID";
  let bias_rows := find_frames E "bias" calib_ID in
  setattr "bias_files" (frame_paths E (VRows bias_rows)) ;;
  rep ← representative bias_rows;
  det ← getattr "det";
  set_master_key "bias" (master_key E rep det) ;;
  key ← master_key_of "bias";
  hit ← _cached "bias" key;
  (if (hit : bool) then
    key ← master_key_of "bias";
    cached ← cache_get key "bias";
    setattr "msbias" cached ;;
    msgs_info "Reloading the bias from the internal dict" ;;
    getattr "msbias"
  else
    spectrograph ← getattr "spectrograph";
    files ← getattr "bias_files";
    det ← getattr "det";
    par ← par_item "biasframe";
    key ← master_key_of "bias";
    master_dir ← getattr "master_dir";
    reuse ← getattr "reuse_masters";
    builder ← ext "biasframe.BiasFrame"
                [spectrograph; files; det; par; VStr key; master_dir; reuse];
    setattr "biasFrame" builder ;;
    builder ← getattr "biasFrame";
    loaded ← ext "BiasFrame.load" [builder];
    setattr "msbias" loaded ;;
    msbias ← getattr "msbias";
    when (is_None msbias)
      (builder ← getattr "biasFrame";
       built ← ext "BiasFrame.build_image" [builder];
       setattr "msbias" built ;;
       save ← getattr "save_masters";
       when (truthy save)
         (builder ← getattr "biasFrame"; ext "BiasFrame.save" [builder] ;; mret tt)) ;;
    msbias ← getattr "msbias";
    _update_cache "bias" (One "bias") (One msbias) ;;
    getattr "msbias") : M value.

(** [a.shape] of an image. *)
Definition shape (a : value) : M value :=
  match a with
  | VImage _ nspec nspat => mret (VShape [nspec; nspat])
  | _ => raise (AttributeError "shape")
  end.

(** [get_bpm] *)
Definition get_bpm : M value :=
  _chk_set ["par"; "det"] ;;
  frame ← getattr "frame";
  det ← getattr "det";
  set_master_key "bpm" (master_key E frame det) ;;
  key ← master_key_of "bpm";
  hit ← _cached "bpm" key;
  (if (hit : bool) then
    key ← master_key_of "bpm";
    cached ← cache_get key "bpm";
    setattr "msbpm" cached ;;
    getattr "msbpm"
  else
    frame ← getattr "frame";
    let sci_image_file := frame_paths E frame in
    usebias ← par_item "bpm_usebias";
    have_bias ← (if truthy usebias
                 then key ← master_key_of "bias"; _cached "bias" key
                 else mret false);
    msbias ← (if (have_bias : bool) then getattr "msbias" else mret VNone);
    spectrograph ← getattr "spectrograph";
    det ← getattr "det";
    built ← ext "Spectrograph.bpm" [spectrograph; sci_image_file; det; msbias];
    setattr "msbpm" built ;;
    msbpm ← getattr "msbpm";
    sh ← shape msbpm;
    setattr "shape" sh ;;
    msbpm ← getattr "msbpm";
    _update_cache "bpm" (One "bpm") (One msbpm) ;;
    getattr "msbpm") : M value.

(** [get_flats] *)
Definition get_flats : M (value * value) :=
  ready ← _chk_objs ["msarc"; "msbpm"; "slits"; "wv_calib"];
  when (negb ready)
    (msgs_error "Must have the arc, bpm, slits, and wv_calib defined to proceed!") ;;
  method ← par_item2 "flatfield" "method";
  (if is_str method "skip" then
    setattr "mspixelflat" VNone ;;
    setattr "msillumflat" VNone ;;
    msgs_warn ("Parameter calibrations.flatfield.method is set to skip. You are NOT "
               ++ "flatfielding your data!!!") ;;
    pixel ← getattr "mspixelflat";
    illum ← getattr "msillumflat";
    mret (pixel, illum)
  else
    traced ← _chk_objs ["slits"; "tilts_dict"];
    if negb traced then
      msgs_warn ("Flats were requested, but there are quantities missing necessary to "
                 ++ "create flats.  Proceeding without flat fielding....") ;;
      setattr "mspixelflat" VNone ;;
      setattr "msillumflat" VNone ;;
      pixel ← getattr "mspixelflat";
      illum ← getattr "msillumflat";
      mret (pixel, illum)
    else
      _chk_set ["det"; "calib_ID"; "par"] ;;
      calib_ID ← getattr "calib_ID";
      let pixflat_rows := find_frames E "pixelflat" calib_ID in
      let pixflat_image_files := frame_paths E (VRows pixflat_rows) in
      rep ← representative pixflat_rows;
      det ← getattr "det";
      set_master_key "flat" (master_key E rep det) ;;
      key ← master_key_of "flat";
      hit_pixel ← _cached "pixelflat" key;
      hit ← (if (hit_pixel : bool)
             then key ← master_key_of "flat"; _cached "illumflat" key
             else mret false);
      if (hit : bool) then
        key ← master_key_of "flat";
        pixel ← cache_get key "pixelflat";
        setattr "mspixelflat" pixel ;;
        key ← master_key_of "flat";
        illum ← cache_get key "illumflat";
        setattr "msillumflat" illum ;;
        pixel ← getattr "mspixelflat";
        illum ← getattr "msillumflat";
        mret (pixel, illum)
      else
        spectrograph ← getattr "spectrograph";
        par ← par_item "pixelflatframe";
        det ← getattr "det";
        key ← master_key_of "flat";
        master_dir ← getattr "master_dir";
        reuse ← getattr "reuse_masters";
        flatpar ← par_item "flatfield";
        msbias ← getattr "msbias";
        slits ← getattr "slits";
        tilts_dict ← getattr "tilts_dict";
        builder ← ext "flatfield.FlatField"
                    [spectrograph; par; pixflat_image_files; det; VStr key; master_dir; reuse;
                     flatpar; msbias; slits; tilts_dict];
        setattr "flatField" builder ;;
        builder ← getattr "flatField";
        '(_, pixel, illum) ← ext3 "FlatField.load" [builder];
        setattr "mspixelflat" pixel ;;
        setattr "msillumflat" illum ;;
        frame ← par_item2 "flatfield" "frame";
        when (negb (eq_str frame "pixelflat"))
          (frame ← par_item2 "flatfield" "frame";
           literal ← ext "os.path.isfile" [frame];
           flat_file ←
             (if truthy literal then par_item2 "flatfield" "frame"
              else
                builder ← getattr "flatField";
                dir ← ext "FlatField.master_dir" [builder];
                frame ← par_item2 "flatfield" "frame";
                joined ← path_join dir (py_str frame);
                in_masters ← ext "os.path.isfile" [joined];
                if truthy in_masters then
                  builder ← getattr "flatField";
                  dir ← ext "FlatField.master_dir" [builder];
                  frame ← par_item2 "flatfield" "frame";
                  path_join dir (py_str frame)
                else
                  frame ← par_item2 "flatfield" "frame";
                  msgs_error ("Could not find user-defined flatfield file: " ++ py_str frame));
           msgs_info ("Using user-defined file: " ++ py_str flat_file) ;;
           det ← getattr "det";
           data ← ext "fits.open" [flat_file; det];
           setattr "mspixelflat" data ;;
           setattr "msillumflat" VNone) ;;
        pixel ← getattr "mspixelflat";
        build ← (if is_None pixel
                 then n ← len_of pixflat_image_files; mret (negb (Nat.eqb n 0))
                 else mret false);
        when build
          (builder ← getattr "flatField";
           show ← getattr "show";
           '(pixel, illum) ← ext2 "FlatField.run" [builder; show];
           setattr "mspixelflat" pixel ;;
           setattr "msillumflat" illum ;;
           save ← getattr "save_masters";
           when (truthy save)
             (builder ← getattr "flatField";
              ext "FlatField.save" [builder] ;;
              tweak ← par_item2 "flatfield" "tweak_slits";
              when (truthy tweak)
                (slits ← getattr "slits"; SlitTraceSet_to_master slits))) ;;
        pixel ← getattr "mspixelflat";
        when (is_None pixel) (msgs_warn "You are not pixel flat fielding your data!!!") ;;
        illum ← getattr "msillumflat";
        flatten ← (if is_None illum then mret true
                   else v ← par_item2 "flatfield" "illumflatten"; mret (negb (truthy v)));
        when flatten (msgs_warn "You are not illumination flat fielding your data!") ;;
        pixel ← getattr "mspixelflat";
        illum ← getattr "msillumflat";
        _update_cache "flat" (Many ["pixelflat"; "illumflat"]) (Many [pixel; illum]) ;;
        pixel ← getattr "mspixelflat";
        illum ← getattr "msillumflat";
        mret (pixel, illum)) : M (value * value).

(** [get_slits] *)
Definition get_slits (redo : bool) (write_qa : value) : M value :=
  _write_qa ← (if is_None write_qa then getattr "write_qa" else mret write_qa);
  no_path ← (if truthy _write_qa then qa_path ← getattr "qa_path"; mret (is_None qa_path)
             else mret false);
  when no_path (msgs_error "QA path is not defined.  Cannot produce slit QA plots.") ;;
  masked ← _chk_objs ["msbpm"];
  (if negb masked then
    setattr "slits" VNone ;;
    getattr "slits"
  else
    _chk_set ["det"; "calib_ID"; "par"] ;;
    calib_ID ← getattr "calib_ID";
    let trace_rows := find_frames E "trace" calib_ID in
    setattr "trace_image_files" (frame_paths E (VRows trace_rows)) ;;
    rep ← representative trace_rows;
    det ← getattr "det";
    set_master_key "trace" (master_key E rep det) ;;
    key ← master_key_of "trace";
    hit ← _cached "trace" key;
    if (hit : bool) && negb redo then
      key ← master_key_of "trace";
      cached ← cache_get key "trace";
      setattr "slits" cached ;;
      getattr "slits"
    else
      key ← master_key_of "trace";
      master_dir ← getattr "master_dir";
      reuse ← getattr "reuse_masters";
      loaded ← SlitTraceSet_from_master (VStr key) master_dir reuse;
      setattr "slits" loaded ;;
      slits ← getattr "slits";
      when (is_None slits)
        (spectrograph ← getattr "spectrograph";
         par ← par_item "slitedges";
         key ← master_key_of "trace";
         master_dir ← getattr "master_dir";
         qa_path ← (if truthy _write_qa then getattr "qa_path" else mret VNone);
         edges ← ext "edgetrace.EdgeTraceSet" [spectrograph; par; VStr key; master_dir; qa_path];
         setattr "edges" edges ;;
         reuse ← getattr "reuse_masters";
         on_disk ← (if truthy reuse
                    then edges ← getattr "edges";
                         there ← ext "EdgeTraceSet.exists" [edges];
                         mret (truthy there)
                    else mret false);
         (if (on_disk : bool) then
            edges ← getattr "edges";
            ext "EdgeTraceSet.load" [edges] ;;
            mret tt
          else
            spectrograph ← getattr "spectrograph";
            files ← getattr "trace_image_files";
            det ← getattr "det";
            par ← par_item "traceframe";
            msbias ← getattr "msbias";
            image ← ext "traceimage.TraceImage" [spectrograph; files; det; par; msbias];
            setattr "traceImage" image ;;
            image ← getattr "traceImage";
            msbias ← getattr "msbias";
            msbpm ← getattr "msbpm";
            ext "TraceImage.build_image" [image; msbias; msbpm] ;;
            try_except
              (edges ← getattr "edges";
               image ← getattr "traceImage";
               msbpm ← getattr "msbpm";
               det ← getattr "det";
               save ← getattr "save_masters";
               ext "EdgeTraceSet.auto_trace" [edges; image; msbpm; det; save] ;;
               mret tt)
              (edges ← getattr "edges";
               ext "EdgeTraceSet.save" [edges] ;;
               msgs_error ("Crashed out of finding the slits. Have saved the work done to "
                           ++ "disk but it needs fixing.")) ;;
            show ← getattr "show";
            when (truthy show)
              (edges ← getattr "edges";
               ext "EdgeTraceSet.show" [edges; VInt 10; VBool true] ;;
               mret tt)) ;;
         edges ← getattr "edges";
         slits ← ext "EdgeTraceSet.get_slits" [edges];
         setattr "slits" slits ;;
         setattr "edges" VNone ;;
         save ← getattr "save_masters";
         when (truthy save) (slits ← getattr "slits"; SlitTraceSet_to_master slits)) ;;
      slits ← getattr "slits";
      _update_cache "trace" (One "trace") (One slits) ;;
      getattr "slits") : M value.

(** [a * (a.shape[0] - 1.0)] of an array [a]. *)
Definition pixel_wave (a : value) : M value :=
  match shape0 a with
  | Some nspec => mret (VScaled a (nspec - 1))
  | None => raise (AttributeError "shape")
  end.

(** [get_wave] *)
Definition get_wave : M value :=
  ready ← _chk_objs ["tilts_dict"; "slits"; "wv_calib"];
  (if negb ready then
    setattr "mswave" VNone ;;
    getattr "mswave"
  else
    _chk_set ["det"; "par"] ;;
    key ← master_key_of "arc";
    hit ← _cached "wave" key;
    if (hit : bool) then
      key ← master_key_of "arc";
      cached ← cache_get key "wave";
      setattr "mswave" cached ;;
      getattr "mswave"
    else
      reference ← par_item2 "wavelengths" "reference";
      if eq_str reference "pixel" then
        msgs_warn "No wavelength calibration performed!" ;;
        tilts_dict ← getattr "tilts_dict";
        tilts ← subscript tilts_dict "tilts";
        wave ← pixel_wave tilts;
        setattr "mswave" wave ;;
        key ← master_key_of "arc";
        mswave ← getattr "mswave";
        cache_set key "wave" mswave ;;
        getattr "mswave"
      else
        slits ← getattr "slits";
        tilts_dict ← getattr "tilts_dict";
        tilts ← subscript tilts_dict "tilts";
        wv_calib ← getattr "wv_calib";
        spectrograph ← getattr "spectrograph";
        det ← getattr "det";
        slits' ← getattr "slits";
        mask ← slits_mask slits';
        key ← master_key_of "arc";
        master_dir ← getattr "master_dir";
        reuse ← getattr "reuse_masters";
        builder ← ext "waveimage.WaveImage"
                    [slits; tilts; wv_calib; spectrograph; det; VMask mask; VStr key;
                     master_dir; reuse];
        setattr "waveImage" builder ;;
        builder ← getattr "waveImage";
        loaded ← ext "WaveImage.load" [builder];
        setattr "mswave" loaded ;;
        mswave ← getattr "mswave";
        when (is_None mswave)
          (builder ← getattr "waveImage";
           built ← ext "WaveImage.build_wave" [builder];
           setattr "mswave" built ;;
           save ← getattr "save_masters";
           when (truthy save)
             (builder ← getattr "waveImage"; ext "WaveImage.save" [builder] ;; mret tt)) ;;
        mswave ← getattr "mswave";
        _update_cache "arc" (One "wave") (One mswave) ;;
        getattr "mswave") : M value.

(** [x[0]] on a list of file names. *)
Definition first_of (v : value) : M value :=
  match v with
  | VStrs (f :: _) => mret (VStr f)
  | VStrs [] => raise (IndexError "list index out of range")
  | _ => raise (TypeError "subscript")
  end.

(** [key in self.master_key_dict.keys()] *)
Definition has_master_key (name : string) : M bool :=
  keys ← gets master_key_dict;
  mret (bool_decide (is_Some (keys !! name))).

(** The checks at the head of [get_wv_calib]: the objects it needs,
    the internals, and the arc entry of the key table. *)
Definition get_wv_calib_checks : M unit :=
  ready ← _chk_objs ["msarc"; "msbpm"; "slits"];
  when (negb ready) (msgs_error "dont have all the objects") ;;
  _chk_set ["det"; "calib_ID"; "par"] ;;
  keyed ← has_master_key "arc";
  when (negb keyed) (msgs_error "Arc master key not set.  First run get_arc.").

(** [get_wv_calib] *)
Definition get_wv_calib : M value :=
  get_wv_calib_checks ;;
  key ← master_key_of "arc";
  hit_calib ← _cached "wavecalib" key;
  hit ← (if (hit_calib : bool)
         then key ← master_key_of "arc"; _cached "wvmask" key
         else mret false);
  (if (hit : bool) then
    key ← master_key_of "arc";
    calib ← cache_get key "wavecalib";
    setattr "wv_calib" calib ;;
    key ← master_key_of "arc";
    mask ← cache_get key "wvmask";
    setattr "wv_maskslits" mask ;;
    contribution ← getattr "wv_maskslits";
    slits_mask_ior contribution ;;
    getattr "wv_calib"
  else
    reference ← par_item2 "wavelengths" "reference";
    if eq_str reference "pixel" then
      msgs_info "A wavelength calibration will not be performed" ;;
      setattr "wv_calib" VNone ;;
      maskslits ← getattr "maskslits";
      blank ← zeros_like maskslits;
      setattr "wv_maskslits" blank ;;
      contribution ← getattr "wv_maskslits";
      slits_mask_ior contribution ;;
      getattr "wv_calib"
    else
      calib_ID ← getattr "calib_ID";
      let arc_rows := find_frames E "arc" calib_ID in
      setattr "arc_files" (frame_paths E (VRows arc_rows)) ;;
      spectrograph ← getattr "spectrograph";
      files ← getattr "arc_files";
      first ← first_of files;
      binning ← ext "Spectrograph.get_meta_value" [spectrograph; first; VLit "binning"];
      '(binspec, binspat) ← ext2 "parse.parse_binning" [binning];
      msarc ← getattr "msarc";
      slits ← getattr "slits";
      spectrograph ← getattr "spectrograph";
      par ← par_item "wavelengths";
      det ← getattr "det";
      key ← master_key_of "arc";
      master_dir ← getattr "master_dir";
      reuse ← getattr "reuse_masters";
      qa_path ← getattr "qa_path";
      msbpm ← getattr "msbpm";
      builder ← ext "wavecalib.WaveCalib"
                  [msarc; slits; spectrograph; par; binspec; det; VStr key; master_dir; reuse;
                   qa_path; msbpm];
      setattr "waveCalib" builder ;;
      builder ← getattr "waveCalib";
      loaded ← ext "WaveCalib.load" [builder];
      setattr "wv_calib" loaded ;;
      wv_calib ← getattr "wv_calib";
      when (is_None wv_calib)
        (builder ← getattr "waveCalib";
         write_qa ← getattr "write_qa";
         '(calib, _) ← ext2 "WaveCalib.run" [builder; VBool (negb (truthy write_qa))];
         setattr "wv_calib" calib ;;
         save ← getattr "save_masters";
         when (truthy save)
           (builder ← getattr "waveCalib"; ext "WaveCalib.save" [builder] ;; mret tt)) ;;
      builder ← getattr "waveCalib";
      slits ← getattr "slits";
      nslits ← slits_nslits slits;
      mask ← ext "WaveCalib.make_maskslits" [builder; VInt nslits];
      setattr "wv_maskslits" mask ;;
      contribution ← getattr "wv_maskslits";
      slits_mask_ior contribution ;;
      wv_calib ← getattr "wv_calib";
      wv_maskslits ← getattr "wv_maskslits";
      _update_cache "arc" (Many ["wavecalib"; "wvmask"]) (Many [wv_calib; wv_maskslits]) ;;
      getattr "wv_calib") : M value.

(** [get_tilts] *)
Definition get_tilts : M value :=
  ready ← _chk_objs ["mstilt"; "msbpm"; "slits"; "wv_calib"];
  (if negb ready then
    (msgs_error "dont have all the objects" : M unit) ;;
    setattr "tilts_dict" VNone ;;
    maskslits ← getattr "maskslits";
    blank ← zeros_like maskslits;
    setattr "wt_maskslits" blank ;;
    contribution ← getattr "wt_maskslits";
    slits_mask_ior contribution ;;
    getattr "tilts_dict"
  else
    _chk_set ["det"; "calib_ID"; "par"] ;;
    keyed ← has_master_key "tilt";
    when (negb keyed) (msgs_error "Tilt master key not set.  First run get_tiltimage.") ;;
    key ← master_key_of "tilt";
    hit_tilts ← _cached "tilts_dict" key;
    hit ← (if (hit_tilts : bool)
           then key ← master_key_of "tilt"; _cached "wtmask" key
           else mret false);
    if (hit : bool) then
      key ← master_key_of "tilt";
      tilts ← cache_get key "tilts_dict";
      setattr "tilts_dict" tilts ;;
      key ← master_key_of "tilt";
      mask ← cache_get key "wtmask";
      setattr "wt_maskslits" mask ;;
      contribution ← getattr "wt_maskslits";
      slits_mask_ior contribution ;;
      getattr "tilts_dict"
    else
      mstilt ← getattr "mstilt";
      slits ← getattr "slits";
      spectrograph ← getattr "spectrograph";
      par_tilts ← par_item "tilts";
      par_wave ← par_item "wavelengths";
      det ← getattr "det";
      key ← master_key_of "tilt";
      master_dir ← getattr "master_dir";
      reuse ← getattr "reuse_masters";
      qa_path ← getattr "qa_path";
      msbpm ← getattr "msbpm";
      builder ← ext "wavetilts.WaveTilts"
                  [mstilt; slits; spectrograph; par_tilts; par_wave; det; VStr key; master_dir;
                   reuse; qa_path; msbpm];
      setattr "waveTilts" builder ;;
      builder ← getattr "waveTilts";
      loaded ← ext "WaveTilts.load" [builder];
      setattr "tilts_dict" loaded ;;
      tilts_dict ← getattr "tilts_dict";
      (if is_None tilts_dict then
         builder ← getattr "waveTilts";
         slits ← getattr "slits";
         mask ← slits_mask slits;
         write_qa ← getattr "write_qa";
         show ← getattr "show";
         '(tilts, wt_mask) ← ext2 "WaveTilts.run" [builder; VMask mask; write_qa; show];
         setattr "tilts_dict" tilts ;;
         setattr "wt_maskslits" wt_mask ;;
         save ← getattr "save_masters";
         when (truthy save)
           (builder ← getattr "waveTilts"; ext "WaveTilts.save" [builder] ;; mret tt)
       else
         slits ← getattr "slits";
         nslits ← slits_nslits slits;
         blank ← zeros nslits;
         setattr "wt_maskslits" blank) ;;
      tilts_dict ← getattr "tilts_dict";
      wt_maskslits ← getattr "wt_maskslits";
      _update_cache "tilt" (Many ["tilts_dict"; "wtmask"]) (Many [tilts_dict; wt_maskslits]) ;;
      contribution ← getattr "wt_maskslits";
      slits_mask_ior contribution ;;
      getattr "tilts_dict") : M value.

(** *** The recipe *)

(** [getattr(self, 'get_{:s}'.format(step))()]: the getter of that
    name, called without arguments; [get_flats] returns a pair, the
    others one object. *)
Definition one (m : M value) : M (one_or_many value) :=
  v ← m; mret (One v).

Definition both (m : M (value * value)) : M (one_or_many value) :=
  '(a, b) ← m; mret (Many [a; b]).

Definition get_step (step : string) : M (one_or_many value) :=
  if String.eqb step "arc" then one (get_arc)
  else if String.eqb step "tiltimg" then one (get_tiltimg)
  else if String.eqb step "bias" then one (get_bias)
  else if String.eqb step "bpm" then one (get_bpm)
  else if String.eqb step "flats" then both get_flats
  else if String.eqb step "slits" then one (get_slits false VNone)
  else if String.eqb step "wave" then one (get_wave)
  else if String.eqb step "wv_calib" then one (get_wv_calib)
  else if String.eqb step "tilts" then one (get_tilts)
  else raise (AttributeError ("get_" ++ step)).

Fixpoint run_steps (steps : list string) : M unit :=
  match steps with
  | [] => mret tt
  | step :: rest => get_step step ;; run_steps rest
  end.

(** [run_the_steps] *)
Definition run_the_steps : M unit :=
  steps ← getattr "steps";
  match steps with
  | VStrs l => run_steps l
  | _ => raise (TypeError "steps")
  end ;;
  msgs_info "Calibration complete!".

(** [MultiSlitCalibrations.default_steps] *)
Definition default_steps : list string :=
  ["bias"; "bpm"; "arc"; "tiltimg"; "slits"; "wv_calib"; "tilts"; "flats"; "wave"].

(** [MultiSlitCalibrations.__init__]; [steps] is [None] for the default. *)
Definition MultiSlitCalibrations
  (fitstbl par spectrograph caldir qadir reuse_masters show : value) (steps : option (list string))
  : M unit :=
  __init__ fitstbl par spectrograph caldir qadir (VBool true) reuse_masters show ;;
  setattr "steps" (VStrs (default default_steps steps)).

End Calibrations.

(** * Auxiliary notions for the properties *)

(** Are the listed attributes all set to an object? *)
Definition all_set (s : Calibrations) (items : list string) : bool :=
  forallb (fun n => match attrs s !! n with Some v => negb (is_None v) | None => false end) items.

(** [d[key]] as a partial function. *)
Definition item (d : value) (key : string) : option value :=
  match d with
  | VDict items => (fun kv => kv.2.2) <$> list_find (fun kv => kv.1 = key) items
  | _ => None
  end.

(** The mask a slit object carries in state [s]. *)
Definition mask_of (s : Calibrations) (o : positive) (mask0 : list bool) : list bool :=
  default mask0 (slit_masks s !! o).

(** Is [n] among the attribute names [W]? *)
Definition written (W : list string) (n : string) : bool := existsb (String.eqb n) W.

(** [s'] differs from [s] at most in the attributes [W] and by a
    longer log. *)
Record same_but (W : list string) (s s' : Calibrations) : Prop := mk_same_but {
  sb_attrs : ∀ n, written W n = false → attrs s' !! n = attrs s !! n;
  sb_cache : calib_dict s' = calib_dict s;
  sb_keys : master_key_dict s' = master_key_dict s;
  sb_masks : slit_masks s' = slit_masks s;
  sb_log : ∃ new, log s' = (new ++ log s)%list
}.

(** A block of a method assigns at most the attributes [W] and adds
    to the log, however it ends. *)
Definition preserves (W : list string) {A} (m : M A) : Prop :=
  ∀ s r s', m s = (r, s') → same_but W s s'.

(** The events of a run: what [s'] logged beyond [s]. *)
Definition emitted (s s' : Calibrations) (new : list event) : Prop :=
  log s' = (new ++ log s)%list.

(** ** A small observatory, for the examples

    One detector, frames 1 and 2 are biases, 3 an arc that also serves
    for the tilts, 4 a trace and pixel flat, 5 the science frame.  The
    builders answer with fixed objects. *)

Definition demo_rows (role : string) : list Z :=
  if String.eqb role "bias" then [1; 2]
  else if String.eqb role "arc" then [3]
  else if String.eqb role "tilt" then [3]
  else if String.eqb role "trace" then [4]
  else if String.eqb role "pixelflat" then [4]
  else [].

Definition no_rows (role : string) : list Z := [].

Definition demo_answer (callee : string) : res value :=
  if String.eqb callee "ArcImage.build_image" then Ok (VImage 10 4 4)
  else if String.eqb callee "TiltImage.build_image" then Ok (VImage 11 4 4)
  else if String.eqb callee "BiasFrame.build_image" then Ok (VImage 12 4 4)
  else if String.eqb callee "Spectrograph.bpm" then Ok (VImage 13 4 4)
  else if String.eqb callee "EdgeTraceSet.get_slits" then Ok (VSlits 20 2 [false; false])
  else if String.eqb callee "WaveCalib.make_maskslits" then Ok (VMask [true; false])
  else if String.eqb callee "WaveImage.build_wave" then Ok (VImage 14 4 4)
  else if String.eqb callee "os.path.isdir" then Ok (VBool true)
  else if String.eqb callee "arcimage.ArcImage" then Ok (VObj 1)
  else if String.eqb callee "tiltimage.TiltImage" then Ok (VObj 2)
  else if String.eqb callee "biasframe.BiasFrame" then Ok (VObj 3)
  else if String.eqb callee "flatfield.FlatField" then Ok (VObj 4)
  else if String.eqb callee "edgetrace.EdgeTraceSet" then Ok (VObj 5)
  else if String.eqb callee "traceimage.TraceImage" then Ok (VObj 6)
  else if String.eqb callee "waveimage.WaveImage" then Ok (VObj 7)
  else if String.eqb callee "wavecalib.WaveCalib" then Ok (VObj 8)
  else if String.eqb callee "wavetilts.WaveTilts" then Ok (VObj 9)
  else Ok VNone.

(** The edge tracing crashes. *)
Definition crashing_answer (callee : string) : res value :=
  if String.eqb callee "EdgeTraceSet.auto_trace" then Raise (Raised "EdgeTraceSet.auto_trace")
  else demo_answer callee.

Definition demo_answer2 (callee : string) : res (value * value) :=
  if String.eqb callee "WaveCalib.run" then Ok (VObj 30, VNone)
  else if String.eqb callee "WaveTilts.run"
  then Ok (VDict [("tilts", VImage 40 4 4)], VMask [false; true])
  else if String.eqb callee "FlatField.run" then Ok (VImage 41 4 4, VImage 42 4 4)
  else Ok (VInt 1, VInt 1).

Definition demo_paths (v : value) : value :=
  match v with
  | VRows l => VStrs (map (fun z => "raw" ++ pretty z) l)
  | v => VStr ("raw" ++ py_str v)
  end.

Definition demo_int (s : string) : option Z :=
  if String.eqb s "0" then Some 0 else if String.eqb s "1" then Some 1 else None.

Definition demo_env_with (rows : string → list Z) (answer : string → res value) : Env :=
  mkEnv (fun role _ => rows role)
        demo_paths
        (fun frame det => "A_" ++ py_str det ++ "_" ++ py_str frame)
        (fun _ => "0")
        demo_int
        (fun _ _ => true)
        (fun _ => "arc")
        (fun _ callee _ => answer callee)
        (fun _ callee _ => demo_answer2 callee)
        (fun _ _ _ => Ok (VNone, VNone, VNone)).

Definition demo_env : Env := demo_env_with demo_rows demo_answer.

Definition demo_par (reference : string) (method : value) : value :=
  VDict [("arcframe", VObj 100); ("tiltframe", VObj 101); ("biasframe", VObj 102);
         ("pixelflatframe", VObj 103); ("slitedges", VObj 104); ("traceframe", VObj 105);
         ("tilts", VObj 106); ("bpm_usebias", VBool false);
         ("wavelengths", VDict [("reference", VStr reference)]);
         ("flatfield", VDict [("method", method); ("frame", VStr "pixelflat");
                              ("illumflatten", VBool true); ("tweak_slits", VBool false)])].

(** The object as constructed, then configured for frame 5 on
    detector 1, then after the given steps of the recipe. *)
Definition constructed (E : Env) (par : value) : Calibrations :=
  (MultiSlitCalibrations E (VObj 90) par (VObj 91) (VStr "Masters") VNone (VBool false)
     (VBool false) None new_object).2.

Definition configured (E : Env) (par : value) : Calibrations :=
  (set_config E (VInt 5) (VInt 1) VNone VNone false (constructed E par)).2.

Definition after (E : Env) (par : value) (steps : list string) : Calibrations :=
  (run_steps E steps (configured E par)).2.

(** ** The claims as the specification words them, where the code differs *)

(** No artifact was stored for product [P] under key [K]. *)
Definition nothing_stored (P K : string) (s : Calibrations) : Prop :=
  ∀ entry, calib_dict s !! K = Some entry → entry !! P = None.


(** Two existence checks in a row: the first misses, the second hits. *)
Definition second_check_hits (P K : string) (s : Calibrations) : Prop :=
  ∃ s1 s2, _cached P K s = (Ok false, s1) ∧ _cached P K s1 = (Ok true, s2).

(** The frame a product's key is derived from: the first of its raw
    frames, else the frame being calibrated. *)
Definition rep_of (s : Calibrations) (rows : list Z) : option value :=
  match rows with
  | r :: _ => Some (VInt r)
  | [] => attrs s !! "frame"
  end.

(** A miss of [_cached], whether or not the key was known. *)
Definition after_miss (ty key : string) (s : Calibrations) : Calibrations :=
  with_calib_dict
    <[key := match calib_dict s !! key with
             | None => ∅
             | Some entry => <[ty := VDict []]> entry
             end]> s.

(** The attributes [_reset_internals] sets to [None]; it also empties
    [calib_ID] and the table of master keys. *)
Definition scratch_attrs : list string :=
  ["shape"; "msarc"; "msbias"; "msbpm"; "slits"; "wavecalib"; "tilts_dict";
   "mspixelflat"; "msillumflat"; "mswave"].

(** C8 as the specification words it: every call, whatever it is
    given and however it ends, leaves the scratch attributes None and
    the cache as it was, or empty with [rm_cache]. *)
Definition resets_on_every_call (E : Env) : Prop :=
  ∀ frame det par calib_id rm_cache s r s',
    set_config E frame det par calib_id rm_cache s = (r, s') →
    Forall (fun n => attrs s' !! n = Some VNone) scratch_attrs
    ∧ calib_dict s' = (if (rm_cache : bool) then ∅ else calib_dict s).



(** Do the listed attributes exist (whatever they hold)? *)
Definition present (s : Calibrations) (names : list string) : bool :=
  forallb (fun n => match attrs s !! n with Some _ => true | None => false end) names.

(** The collaborators answer every call made through [ext]; none raises. *)
Definition answers (E : Env) : Prop :=
  ∀ s callee args, ∃ v, ext_answer E s callee args = Ok v.

(** ** A crash of the edge tracing *)

(** The event of [EdgeTraceSet.auto_trace] ending in an exception. *)
Definition is_crash (e : event) : bool :=
  match e with
  | Call callee _ (Some _) => String.eqb callee "EdgeTraceSet.auto_trace"
  | _ => false
  end.

Definition crash_msg : string :=
  "Crashed out of finding the slits. Have saved the work done to disk but it needs fixing.".

(** What a run with events [new] (newest first) and result [r] did
    after a crash of the edge tracing: the very next thing is the call
    of [EdgeTraceSet.save] on the edges; if that returns, the fatal
    error is raised and nothing else happens. *)
Definition saved_then_fatal {A} (new : list event) (r : res A) : Prop :=
  ∀ later crash earlier,
    new = (later ++ crash :: earlier)%list → is_crash crash = true →
    ∃ edges,
      (later = [Error crash_msg; Call "EdgeTraceSet.save" [edges] None]
       ∧ r = Raise (PypeItError crash_msg))
      ∨ (∃ e, later = [Call "EdgeTraceSet.save" [edges] (Some e)] ∧ r = Raise e).

(** A block that never sees the edge tracing crash. *)
Definition quiet {A} (m : M A) : Prop :=
  ∀ s r s', m s = (r, s') →
    ∃ new, emitted s s' new ∧ Forall (fun e => is_crash e = false) new.

(** A block that saves the edges before it lets a crash out. *)
Definition durable {A} (m : M A) : Prop :=
  ∀ s r s', m s = (r, s') → ∃ new, emitted s s' new ∧ saved_then_fatal new r.

(** ** The mask of the slits *)

(** The mask carried by the slit object that [self.slits] holds. *)
Definition slit_mask (s : Calibrations) : option (list bool) :=
  match attrs s !! "slits" with
  | Some (VSlits o _ mask0) => Some (mask_of s o mask0)
  | _ => None
  end.

(** The mask a getter left in its attribute [name]. *)
Definition contribution (s : Calibrations) (name : string) : option (list bool) :=
  match attrs s !! name with
  | Some (VMask c) => Some c
  | _ => None
  end.

(** Element-wise or of two masks, and numpy's broadcast of a
    single-element mask to [n] slits. *)
Definition mask_or (a b : list bool) : list bool := zip_with orb a b.

Definition broadcast (n : nat) (c : list bool) : list bool :=
  match c with
  | [x] => replicate n x
  | _ => c
  end.

(** Every slit masked in [small] is masked in [big]. *)
Definition covers (big small : list bool) : Prop :=
  length big = length small ∧ ∀ i, small !! i = Some true → big !! i = Some true.

(** A block assigns at most the attributes [W] and leaves the masks
    of the slit objects alone; it may use the cache and the log. *)
Definition touches (W : list string) {A} (m : M A) : Prop :=
  ∀ s r s', m s = (r, s') →
    slit_masks s' = slit_masks s ∧ ∀ n, written W n = false → attrs s' !! n = attrs s !! n.

(** A block that, when it returns, has or-ed the mask it left in
    attribute [name] into the mask of the slits, which are still the
    same object. *)
Definition merges (name : string) {A} (m : M A) : Prop :=
  ∀ s a s', m s = (Ok a, s') →
    attrs s' !! "slits" = attrs s !! "slits"
    ∧ ∃ m0 c m1, slit_mask s = Some m0 ∧ contribution s' name = Some c
                 ∧ ior m0 c = Some m1 ∧ slit_mask s' = Some m1.

(** ** Calling a getter again *)


(** Every attribute that some method of the class assigns.
    [maskslits], which [get_wv_calib] and [get_tilts] read, is not
    among them. *)
Definition assigned_names : list string :=
  ["arcImage"; "arc_files"; "biasFrame"; "bias_files"; "calib_ID"; "det"; "edges"; "fitstbl";
   "flatField"; "frame"; "master_dir"; "msarc"; "msbias"; "msbpm"; "msillumflat";
   "mspixelflat"; "mstilt"; "mswave"; "par"; "qa_path"; "reuse_masters"; "save_masters";
   "shape"; "show"; "slits"; "spectrograph"; "steps"; "tiltImage"; "tilt_files"; "tilts_dict";
   "traceImage"; "trace_image_files"; "waveCalib"; "waveImage"; "waveTilts"; "wavecalib";
   "write_qa"; "wt_maskslits"; "wv_calib"; "wv_maskslits"].

(** A block assigns at most the attributes [W], however it ends and
    whatever else it does. *)
Definition assigns (W : list string) {A} (m : M A) : Prop :=
  ∀ s r s', m s = (r, s') → ∀ n, written W n = false → attrs s' !! n = attrs s !! n.

(** ** What the methods leave alone *)


(** The attributes the getters assign: products, file lists and
    builders. *)
Definition product_names : list string :=
  ["arcImage"; "arc_files"; "biasFrame"; "bias_files"; "edges"; "flatField"; "msarc"; "msbias";
   "msbpm"; "msillumflat"; "mspixelflat"; "mstilt"; "mswave"; "shape"; "slits"; "tiltImage";
   "tilt_files"; "tilts_dict"; "traceImage"; "trace_image_files"; "waveCalib"; "waveImage";
   "waveTilts"; "wt_maskslits"; "wv_calib"; "wv_maskslits"].

(** What the constructor and [set_config] fix for a run. *)
Definition context_names : list string :=
  ["fitstbl"; "par"; "spectrograph"; "reuse_masters"; "master_dir"; "save_masters"; "qa_path";
   "write_qa"; "show"; "det"; "frame"; "calib_ID"; "steps"].

(** Something is stored for product [P] under key [K]. *)
Definition stored (s : Calibrations) (K P : string) : Prop :=
  ∃ entry v, calib_dict s !! K = Some entry ∧ entry !! P = Some v.

(** The cache and the key table of [s'] have every key and every
    product slot that those of [s] have. *)
Definition grown (s s' : Calibrations) : Prop :=
  (∀ K, is_Some (calib_dict s !! K) → is_Some (calib_dict s' !! K))
  ∧ (∀ K P, stored s K P → stored s' K P)
  ∧ (∀ n, is_Some (master_key_dict s !! n) → is_Some (master_key_dict s' !! n)).

(** A block only adds to the cache and to the key table. *)
Definition grows {A} (m : M A) : Prop :=
  ∀ s r s', m s = (r, s') → grown s s'.

(** The entry of a key after the pairs were put into it one after
    the other. *)
Definition put_all (entry : gmap string value) (pairs : list (string * value))
  : gmap string value :=
  foldl (fun e p => <[p.1 := p.2]> e) entry pairs.

(** The messages of [_chk_set] and [_chk_objs] about attribute [n]. *)
Definition unset_msg (n : string) : string :=
  "Use self.set to specify '" ++ n ++ "' prior to generating XX".

Definition missing_warnings (n : string) : list event :=
  [Warn ("Use get_" ++ strip_ms n);
   Warn ("You need to generate " ++ n ++ " prior to this calibration..")].

(** ** What a getter leaves behind *)

(** For the getters that always cache what they return: the
    attribute of the product, the name of its key in the key table,
    and its type in the cache. *)
Definition product_slot (step : string) : option (string * string * string) :=
  if String.eqb step "arc" then Some ("msarc", "arc", "arc")
  else if String.eqb step "tiltimg" then Some ("mstilt", "tilt", "tiltimg")
  else if String.eqb step "bias" then Some ("msbias", "bias", "bias")
  else if String.eqb step "bpm" then Some ("msbpm", "bpm", "bpm")
  else if String.eqb step "wv_calib" then Some ("wv_calib", "arc", "wavecalib")
  else if String.eqb step "tilts" then Some ("tilts_dict", "tilt", "tilts_dict")
  else None.

(** Object [v] is held by attribute [attr] and is in the cache, as
    type [ty] under the key that the key table has for [name]. *)
Definition held (s : Calibrations) (attr name ty : string) (v : value) : Prop :=
  attrs s !! attr = Some v
  ∧ ∃ K entry, master_key_dict s !! name = Some K
               ∧ calib_dict s !! K = Some entry ∧ entry !! ty = Some v.

(** Whatever [m] returns from [s], it leaves held. *)
Definition leaves_held (attr name ty : string) (m : M value) (s : Calibrations) : Prop :=
  ∀ v s', m s = (Ok v, s') → held s' attr name ty v.


(** ** What [set_config] reports

    Newest first: the warning about the calibration group, then the
    one about the cache. *)
Definition config_warnings (E : Env) (frame calib_id : value) (rm_cache : bool) (group : value)
  : list event :=
  ((if is_None calib_id && has_comma (fitstbl_calib E frame)
    then [Warn ("Frame " ++ py_str frame ++ " is associated with more than  one calibration "
                ++ "group.  Using the first one (" ++ py_str group ++ ").")]
    else [])
   ++ (if rm_cache then [Warn "Emptying calibration cache!"] else []))%list.

(** * The MMT/BINOSPEC spectrograph: [pypeit/spectrographs/mmt_binospec.py] *)

From Stdlib Require SpecFloat.

Module MMTBINOSPECSpectrograph.

(** A row of the frame table, with the columns the frame typing
    reads.  [exptime] is a double: its comparisons are those of
    IEEE 754, false on NaN. *)
Record frame := mkFrame {
  exptime : SpecFloat.spec_float;
  lampstat01 : string;
  lampstat02 : string
}.

(** [100.0] *)
Definition hundred : SpecFloat.spec_float :=
  SpecFloat.S754_finite false 7036874417766400%positive (-46)%Z.

(** numpy's [&] on two one-dimensional boolean arrays: element by
    element when the lengths agree, an array of one element is
    stretched over the other, and anything else does not
    broadcast. *)
Definition np_and (a b : list bool) : res (list bool) :=
  if Nat.eqb (length a) (length b) then Ok (zip_with andb a b)
  else match a, b with
       | [x], _ => Ok (andb x <$> b)
       | _, [y] => Ok ((fun x => x && y) <$> a)
       | _, _ => Raise (ValueError "operands could not be broadcast together")
       end.

Definition and_also (a : res (list bool)) (b : list bool) : res (list bool) :=
  match a with
  | Ok a => np_and a b
  | Raise e => Raise e
  end.

(** [fitstbl[column] == literal] *)
Definition column_is (column : frame → string) (literal : string) (fitstbl : list frame)
  : list bool :=
  (fun row => String.eqb (column row) literal) <$> fitstbl.

Section check_frame_type.

(** [framematch.check_frame_exptime], of the core of the package:
    from the exposure times and a range to one flag per frame. *)
Variable check_frame_exptime : list SpecFloat.spec_float → value → res (list bool).

(** [check_frame_type]: the messages written, and the selection. *)
Definition check_frame_type (ftype : string) (fitstbl : list frame) (exprng : value)
  : list event * res (list bool) :=
  match check_frame_exptime (exptime <$> fitstbl) exprng with
  | Raise e => ([], Raise e)
  | Ok good_exp =>
      if String.eqb ftype "science" then
        ([], and_also (and_also (np_and good_exp (column_is lampstat01 "off" fitstbl))
                                (column_is lampstat02 "stowed" fitstbl))
                      ((fun row => SpecFloat.SFltb hundred (exptime row)) <$> fitstbl))
      else if String.eqb ftype "standard" then
        ([], and_also (and_also (np_and good_exp (column_is lampstat01 "off" fitstbl))
                                (column_is lampstat02 "stowed" fitstbl))
                      ((fun row => SpecFloat.SFleb (exptime row) hundred) <$> fitstbl))
      else if String.eqb ftype "arc" || String.eqb ftype "tilt" then
        ([], np_and good_exp (column_is lampstat01 "on" fitstbl))
      else if String.eqb ftype "pixelflat" || String.eqb ftype "trace" then
        ([], and_also (np_and good_exp (column_is lampstat01 "off" fitstbl))
                      (column_is lampstat02 "deployed" fitstbl))
      else
        ([Warn ("Cannot determine if frames are of type " ++ ftype ++ ".")],
         Ok (replicate (length fitstbl) false))
  end.

End check_frame_type.

(** How Python binds the positional and the keyword arguments of a
    call to the parameters of [def f(self, required..., optional=default...)],
    [self] apart: the positional arguments first, then the keywords
    (one that names no parameter, or a parameter already given, is a
    [TypeError]), then the count of the positional ones, then the
    parameters left without a value. *)
Fixpoint bind_keywords (params : list string) (kwargs : list (string * value))
    (locals : gmap string value) : res (gmap string value) :=
  match kwargs with
  | [] => Ok locals
  | (k, v) :: rest =>
      if negb (bool_decide (k ∈ params))
      then Raise (TypeError ("unexpected keyword argument '" ++ k ++ "'"))
      else if bool_decide (is_Some (locals !! k))
      then Raise (TypeError ("multiple values for argument '" ++ k ++ "'"))
      else bind_keywords params rest (<[k := v]> locals)
  end.

Definition bind_arguments (required : list string) (optional : list (string * value))
    (args : list value) (kwargs : list (string * value)) : res (gmap string value) :=
  let params := (required ++ optional.*1)%list in
  match bind_keywords params kwargs (list_to_map (zip params args)) with
  | Raise e => Raise e
  | Ok locals =>
      if Nat.ltb (length params) (length args)
      then Raise (TypeError "too many positional arguments")
      else if forallb (fun p => bool_decide (is_Some (locals !! p))) required
      then Ok (locals ∪ list_to_map optional)
      else Raise (TypeError "missing required positional argument")
  end.

Section bpm.
Variable E : Env.

(** [bpm(self, filename, det, shape=None)] *)
Definition bpm (self : value) (args : list value) (kwargs : list (string * value)) : M value :=
  match bind_arguments ["filename"; "det"] [("shape", VNone)] args kwargs with
  | Raise e => raise e
  | Ok locals =>
      msgs_info "Custom bad pixel mask for BINOSPEC" ;;
      bpm_img ← ext E "Spectrograph.empty_bpm"
                  [self; default VNone (locals !! "filename"); default VNone (locals !! "det");
                   default VNone (locals !! "shape")];
      mret bpm_img
  end.

End bpm.

End MMTBINOSPECSpectrograph.

(** The spectrograph of the object is a [MMTBINOSPECSpectrograph]:
    the call [self.spectrograph.bpm(sci_image_file, self.det,
    msbias=msbias)] of [get_bpm] ends as [bpm] of that class does on
    these arguments. *)
Definition is_binospec (E : Env) : Prop :=
  ∀ s self filename det msbias,
    ext_answer E s "Spectrograph.bpm" [self; filename; det; msbias]
    = (MMTBINOSPECSpectrograph.bpm E self [filename; det] [("msbias", msbias)] s).1.

(** The four kinds of frame [check_frame_type] tells apart. *)
Definition frame_class (ftype : string) : option nat :=
  if String.eqb ftype "science" then Some 0%nat
  else if String.eqb ftype "standard" then Some 1%nat
  else if String.eqb ftype "arc" || String.eqb ftype "tilt" then Some 2%nat
  else if String.eqb ftype "pixelflat" || String.eqb ftype "trace" then Some 3%nat
  else None.

(** The element of an array that numpy pairs with index [i] of the
    result of [&]: the only one, if the array has one element. *)
Definition paired {A} (a : list A) (i : nat) : option A :=
  a !! (if Nat.eqb (length a) 1 then 0%nat else i).

(** What a row must show to be selected as [ftype], the exposure
    flag apart. *)
Definition row_shows (ftype : string) (row : MMTBINOSPECSpectrograph.frame) : bool :=
  let lamp1 := String.eqb (MMTBINOSPECSpectrograph.lampstat01 row) in
  let lamp2 := String.eqb (MMTBINOSPECSpectrograph.lampstat02 row) in
  let t := MMTBINOSPECSpectrograph.exptime row in
  match frame_class ftype with
  | Some 0%nat => lamp1 "off" && lamp2 "stowed" && SpecFloat.SFltb MMTBINOSPECSpectrograph.hundred t
  | Some 1%nat => lamp1 "off" && lamp2 "stowed" && SpecFloat.SFleb t MMTBINOSPECSpectrograph.hundred
  | Some 2%nat => lamp1 "on"
  | Some _ => lamp1 "off" && lamp2 "deployed"
  | None => false
  end.

(** The observatory of the examples with a BINOSPEC for a
    spectrograph. *)
Definition binospec_answer (callee : string) : res value :=
  if String.eqb callee "Spectrograph.bpm"
  then Raise (TypeError "unexpected keyword argument 'msbias'")
  else demo_answer callee.

Definition binospec_env : Env := demo_env_with demo_rows binospec_answer.

(** Three frames: a long exposure on sky, a short one, and a lamp. *)
Definition demo_frames : list MMTBINOSPECSpectrograph.frame :=
  [MMTBINOSPECSpectrograph.mkFrame
     (SpecFloat.S754_finite false 5629499534213120%positive (-44)%Z) "off" "stowed";
   MMTBINOSPECSpectrograph.mkFrame
     (SpecFloat.S754_finite false 5629499534213120%positive (-49)%Z) "off" "stowed";
   MMTBINOSPECSpectrograph.mkFrame
     (SpecFloat.S754_finite false 5629499534213120%positive (-49)%Z) "on" "stowed"].

(** Every exposure is good. *)
Definition all_good (times : list SpecFloat.spec_float) (exprng : value) : res (list bool) :=
  Ok ((fun _ => true) <$> times).

(** * Reasoning about methods *)



Section Laws.

Context {A B : Type}.
Implicit Types (m : M A) (k : A → M B) (s : Calibrations).

Lemma bind_Ok m k s a s1 : m s = (Ok a, s1) → (m ≫= k) s = k a s1.
Proof. intros H. unfold mbind, M_bind, bind. by rewrite H. Qed.

Lemma bind_Raise m k s e s1 : m s = (Raise e, s1) → (m ≫= k) s = (Raise e, s1).
Proof. intros H. unfold mbind, M_bind, bind. by rewrite H. Qed.

Lemma bind_inv m k s r s' :
  (m ≫= k) s = (r, s') →
  (∃ a s1, m s = (Ok a, s1) ∧ k a s1 = (r, s')) ∨ (∃ e, m s = (Raise e, s') ∧ r = Raise e).
Proof.
  unfold mbind, M_bind, bind. destruct (m s) as [[a|e] s1]; intros H.
  - left. eauto.
  - right. exists e. by injection H as <- <-.
Qed.

Lemma bind_inv_Ok m k s b s' :
  (m ≫= k) s = (Ok b, s') → ∃ a s1, m s = (Ok a, s1) ∧ k a s1 = (Ok b, s').
Proof.
  intros H. apply bind_inv in H as [(a & s1 & Hm & Hk)|(e & _ & [=])]. eauto.
Qed.

End Laws.

Lemma bind_assoc {A B C} (m : M A) (f : A → M B) (g : B → M C) s :
  ((m ≫= f) ≫= g) s = (m ≫= (fun x => f x ≫= g)) s.
Proof. unfold mbind, M_bind, bind. by destruct (m s) as [[a|e] s1]. Qed.

Lemma cache_set_Ok key ty v s entry :
  calib_dict s !! key = Some entry →
  cache_set key ty v s = (Ok tt, with_calib_dict <[key := <[ty := v]> entry]> s).
Proof. intros H. unfold cache_set. by rewrite H. Qed.

Lemma cache_get_Ok key ty v s entry :
  calib_dict s !! key = Some entry → entry !! ty = Some v →
  cache_get key ty s = (Ok v, s).
Proof. intros H1 H2. unfold cache_get. by rewrite H1, H2. Qed.

Lemma master_key_of_Ok name k s :
  master_key_dict s !! name = Some k → master_key_of name s = (Ok k, s).
Proof. intros H. unfold master_key_of. by rewrite H. Qed.

(** [_cached] by cases. *)
Lemma _cached_new ty key s :
  calib_dict s !! key = None →
  _cached ty key s = (Ok false, with_calib_dict <[key := ∅]> s).
Proof. intros H. unfold _cached, gets, mbind, M_bind, bind. by rewrite H. Qed.

Lemma _cached_miss ty key s entry :
  calib_dict s !! key = Some entry → entry !! ty = None →
  _cached ty key s = (Ok false, with_calib_dict <[key := <[ty := VDict []]> entry]> s).
Proof.
  intros H1 H2. unfold _cached, gets, mbind, M_bind, bind. rewrite H1, H2.
  by rewrite (cache_set_Ok _ _ _ _ _ H1).
Qed.

Lemma _cached_hit ty key s entry v :
  calib_dict s !! key = Some entry → entry !! ty = Some v →
  _cached ty key s
  = (Ok true, with_log (cons (Info ("Using " ++ ty ++ " for " ++ key ++ " found in cache."))) s).
Proof. intros H1 H2. unfold _cached, gets, mbind, M_bind, bind. by rewrite H1, H2. Qed.

(** A put under a registered key goes through, whatever is stored. *)
Lemma _update_cache_loop_Ok name key pairs s :
  master_key_dict s !! name = Some key → is_Some (calib_dict s !! key) →
  ∃ s', _update_cache_loop name pairs s = (Ok tt, s')
        ∧ master_key_dict s' = master_key_dict s
        ∧ is_Some (calib_dict s' !! key)
        ∧ attrs s' = attrs s ∧ slit_masks s' = slit_masks s ∧ log s' = log s.
Proof.
  revert s. induction pairs as [|[ty d] pairs IH]; intros s Hk [entry He]; simpl.
  - exists s. eauto 10.
  - rewrite (bind_Ok _ _ _ _ _ (master_key_of_Ok _ _ _ Hk)).
    rewrite (bind_Ok _ _ _ _ _ (cache_set_Ok _ ty d _ _ He)).
    destruct (IH (with_calib_dict <[key := <[ty := d]> entry]> s)) as (s' & ? & ? & ? & ? & ? & ?);
      [done| simpl; rewrite lookup_insert_eq; eauto |].
    exists s'. simpl in *. repeat split; congruence || done.
Qed.



Lemma getattr_inv n s v s' : getattr n s = (Ok v, s') → attrs s !! n = Some v ∧ s' = s.
Proof. unfold getattr. destruct (attrs s !! n); intros [= <- <-]; auto. Qed.

Lemma getattr_Ok n s v : attrs s !! n = Some v → getattr n s = (Ok v, s).
Proof. unfold getattr. by intros ->. Qed.

Lemma master_key_of_inv n s k s' :
  master_key_of n s = (Ok k, s') → master_key_dict s !! n = Some k ∧ s' = s.
Proof. unfold master_key_of. destruct (master_key_dict s !! n); intros [= <- <-]; auto. Qed.

Lemma cache_get_inv key ty s v s' :
  cache_get key ty s = (Ok v, s') →
  ∃ entry, calib_dict s !! key = Some entry ∧ entry !! ty = Some v ∧ s' = s.
Proof.
  unfold cache_get. destruct (calib_dict s !! key) as [entry|]; [|done].
  destruct (entry !! ty) eqn:?; intros [= <- <-]; eauto.
Qed.

Lemma cache_set_inv key ty v s u s' :
  cache_set key ty v s = (Ok u, s') →
  ∃ entry, calib_dict s !! key = Some entry
           ∧ s' = with_calib_dict <[key := <[ty := v]> entry]> s.
Proof.
  unfold cache_set. destruct (calib_dict s !! key) as [entry|]; intros [= <-]; eauto.
Qed.

Lemma _cached_inv ty key s b s' :
  _cached ty key s = (Ok b, s') →
  (calib_dict s !! key = None ∧ b = false ∧ s' = with_calib_dict <[key := ∅]> s)
  ∨ (∃ entry, calib_dict s !! key = Some entry ∧ entry !! ty = None ∧ b = false
              ∧ s' = with_calib_dict <[key := <[ty := VDict []]> entry]> s)
  ∨ (∃ entry v, calib_dict s !! key = Some entry ∧ entry !! ty = Some v ∧ b = true
                ∧ s' = with_log (cons (Info ("Using " ++ ty ++ " for " ++ key
                                             ++ " found in cache."))) s).
Proof.
  destruct (calib_dict s !! key) as [entry|] eqn:H1.
  - destruct (entry !! ty) as [v|] eqn:H2.
    + rewrite (_cached_hit _ _ _ _ _ H1 H2). intros [= <- <-]. right. right. eauto 10.
    + rewrite (_cached_miss _ _ _ _ H1 H2). intros [= <- <-]. right. left. eauto 10.
  - rewrite (_cached_new _ _ _ H1). intros [= <- <-]. auto.
Qed.

Section WithEnv.
Variable E : Env.

Lemma ext_inv callee args s v s' :
  ext E callee args s = (Ok v, s') →
  ext_answer E s callee args = Ok v ∧ s' = with_log (cons (Call callee args None)) s.
Proof. unfold ext. intros [= H <-]. by rewrite H. Qed.

Lemma ext2_inv callee args s v s' :
  ext2 E callee args s = (Ok v, s') →
  ext2_answer E s callee args = Ok v ∧ s' = with_log (cons (Call callee args None)) s.
Proof. unfold ext2. intros [= H <-]. by rewrite H. Qed.

Lemma ext3_inv callee args s v s' :
  ext3 E callee args s = (Ok v, s') →
  ext3_answer E s callee args = Ok v ∧ s' = with_log (cons (Call callee args None)) s.
Proof. unfold ext3. intros [= H <-]. by rewrite H. Qed.

End WithEnv.


Lemma _chk_set_inv items s u s' : _chk_set items s = (Ok u, s') → all_set s items = true ∧ s' = s.
Proof.
  revert s'. induction items as [|n items IH]; intros s'; simpl.
  - by intros [= <-].
  - intros H. apply bind_inv_Ok in H as (v & s1 & Hv & H).
    apply getattr_inv in Hv as [Hv ->]. rewrite Hv.
    apply bind_inv_Ok in H as ([] & s1 & Hn & H).
    destruct (is_None v); [done|]. injection Hn as <-.
    apply IH in H as [-> ->]. done.
Qed.

Lemma _chk_set_Ok items s : all_set s items = true → _chk_set items s = (Ok tt, s).
Proof.
  induction items as [|n items IH]; simpl; [done|].
  destruct (attrs s !! n) as [v|] eqn:Hv; [|done].
  intros [Hn Hrest]%andb_prop.
  rewrite (bind_Ok _ _ _ _ _ (getattr_Ok _ _ _ Hv)).
  destruct (is_None v); [done|]. erewrite bind_Ok by reflexivity. auto.
Qed.

Lemma _chk_objs_inv items s b s' :
  _chk_objs items s = (Ok b, s') →
  (b = true ∧ all_set s items = true ∧ s' = s)
  ∨ (b = false ∧ all_set s items = false
     ∧ ∃ w1 w2, s' = with_log (cons (Warn w2)) (with_log (cons (Warn w1)) s)).
Proof.
  revert s'. induction items as [|n items IH]; intros s'; simpl.
  - intros [= <- <-]. auto.
  - intros H. apply bind_inv_Ok in H as (v & s1 & Hv & H).
    apply getattr_inv in Hv as [Hv ->]. rewrite Hv.
    destruct (is_None v); simpl.
    + injection H as <- <-. right. eauto 10.
    + apply IH in H. done.
Qed.

Lemma _chk_objs_Ok items s : all_set s items = true → _chk_objs items s = (Ok true, s).
Proof.
  induction items as [|n items IH]; simpl; [done|].
  destruct (attrs s !! n) as [v|] eqn:Hv; [|done].
  intros [Hn Hrest]%andb_prop.
  rewrite (bind_Ok _ _ _ _ _ (getattr_Ok _ _ _ Hv)).
  destruct (is_None v); [done|]. auto.
Qed.

(** ** Frames: what a block of a method leaves alone *)

Lemma same_but_refl W s : same_but W s s.
Proof. split; auto. by exists []. Qed.

Lemma same_but_trans W s1 s2 s3 : same_but W s1 s2 → same_but W s2 s3 → same_but W s1 s3.
Proof.
  intros [A1 C1 K1 M1 [n1 L1]] [A2 C2 K2 M2 [n2 L2]]. split; try congruence.
  - intros n Hn. rewrite A2, A1; auto.
  - exists (n2 ++ n1)%list. rewrite L2, L1. by rewrite app_assoc.
Qed.

Lemma same_but_log W s e : same_but W s (with_log (cons e) s).
Proof. split; auto. by exists [e]. Qed.

Lemma same_but_attr W s n v : written W n = true → same_but W s (with_attrs <[n := v]> s).
Proof.
  intros Hn. split; auto; [|by exists []].
  intros m Hm. simpl. apply lookup_insert_ne. intros ->. congruence.
Qed.


Section Preserves.
Context (W : list string).

Lemma preserves_ret {A} (a : A) : preserves W (mret a : M A).
Proof. intros s r s' [= <- <-]. apply same_but_refl. Qed.

Lemma preserves_raise {A} e : preserves W (raise e : M A).
Proof. intros s r s' [= <- <-]. apply same_but_refl. Qed.

Lemma preserves_bind {A B} (m : M A) (k : A → M B) :
  preserves W m → (∀ a, preserves W (k a)) → preserves W (m ≫= k).
Proof.
  intros Hm Hk s r s' H. apply bind_inv in H as [(a & s1 & H1 & H2)|(e & H1 & _)].
  - eapply same_but_trans; [eapply Hm|eapply Hk]; eauto.
  - eapply Hm; eauto.
Qed.

Lemma preserves_getattr n : preserves W (getattr n).
Proof.
  intros s r s'. unfold getattr. destruct (attrs s !! n); intros [= <- <-]; apply same_but_refl.
Qed.

Lemma preserves_setattr n v : written W n = true → preserves W (setattr n v).
Proof. intros Hn s r s' [= <- <-]. by apply same_but_attr. Qed.

Lemma preserves_master_key_of n : preserves W (master_key_of n).
Proof.
  intros s r s'. unfold master_key_of.
  destruct (master_key_dict s !! n); intros [= <- <-]; apply same_but_refl.
Qed.

Lemma preserves_subscript d k : preserves W (subscript d k).
Proof.
  unfold subscript. destruct d; try apply preserves_raise.
  destruct (list_find _ _) as [[? [? ?]]|]; [apply preserves_ret|apply preserves_raise].
Qed.

Lemma preserves_msgs_info msg : preserves W (msgs_info msg).
Proof. intros s r s' [= <- <-]. apply same_but_log. Qed.

Lemma preserves_msgs_warn msg : preserves W (msgs_warn msg).
Proof. intros s r s' [= <- <-]. apply same_but_log. Qed.

Lemma preserves_msgs_error {A} msg : preserves W (msgs_error msg : M A).
Proof. intros s r s' [= <- <-]. apply same_but_log. Qed.

Lemma preserves_when b m : preserves W m → preserves W (when b m).
Proof. destruct b; [done|]. intros _. apply preserves_ret. Qed.

Lemma preserves_if {A} (b : bool) (m1 m2 : M A) :
  preserves W m1 → preserves W m2 → preserves W (if b then m1 else m2).
Proof. by destruct b. Qed.

Lemma preserves_try_except {A} (body handler : M A) :
  preserves W body → preserves W handler → preserves W (try_except body handler).
Proof.
  intros Hb Hh s r s'. unfold try_except.
  destruct (body s) as [[a|e] s1] eqn:H1.
  - intros [= <- <-]. eapply Hb; eauto.
  - intros H2. eapply same_but_trans; [eapply Hb|eapply Hh]; eauto.
Qed.

Lemma preserves_path_join a b : preserves W (path_join a b).
Proof. destruct a; try apply preserves_raise; apply preserves_ret. Qed.

Lemma preserves_len_of v : preserves W (len_of v).
Proof. unfold len_of. destruct (py_len v); [apply preserves_ret|apply preserves_raise]. Qed.

Lemma preserves_slits_mask v : preserves W (slits_mask v).
Proof. intros s r s'. destruct v; intros [= <- <-]; apply same_but_refl. Qed.

Lemma preserves_slits_nslits v : preserves W (slits_nslits v).
Proof. destruct v; try apply preserves_raise; apply preserves_ret. Qed.

Lemma preserves_zeros n : preserves W (zeros n).
Proof. unfold zeros. destruct (n <? 0); [apply preserves_raise|apply preserves_ret]. Qed.

Lemma preserves_zeros_like v : preserves W (zeros_like v).
Proof. destruct v; try apply preserves_raise; apply preserves_ret. Qed.

Lemma preserves_first_of v : preserves W (first_of v).
Proof.
  destruct v as [| | | | |[|]| | | | | | | |]; try apply preserves_raise; apply preserves_ret.
Qed.

Variable E : Env.

Lemma preserves_ext callee args : preserves W (ext E callee args).
Proof. intros s r s' [= <- <-]. apply same_but_log. Qed.

Lemma preserves_ext2 callee args : preserves W (ext2 E callee args).
Proof. intros s r s' [= <- <-]. apply same_but_log. Qed.

Lemma preserves_ext3 callee args : preserves W (ext3 E callee args).
Proof. intros s r s' [= <- <-]. apply same_but_log. Qed.

End Preserves.

Ltac preserves_solve :=
  lazymatch goal with
  | |- preserves _ (_ ≫= _) => apply preserves_bind; [preserves_solve | intros ?; preserves_solve]
  | |- preserves _ (mret _) => apply preserves_ret
  | |- preserves _ (raise _) => apply preserves_raise
  | |- preserves _ (getattr _) => apply preserves_getattr
  | |- preserves _ (setattr _ _) => apply preserves_setattr; reflexivity
  | |- preserves _ (master_key_of _) => apply preserves_master_key_of
  | |- preserves _ (subscript _ _) => apply preserves_subscript
  | |- preserves _ (par_item _) => unfold par_item; preserves_solve
  | |- preserves _ (par_item2 _ _) => unfold par_item2; preserves_solve
  | |- preserves _ (msgs_info _) => apply preserves_msgs_info
  | |- preserves _ (msgs_warn _) => apply preserves_msgs_warn
  | |- preserves _ (msgs_error _) => apply preserves_msgs_error
  | |- preserves _ (when _ _) => apply preserves_when; preserves_solve
  | |- preserves _ (try_except _ _) => apply preserves_try_except; preserves_solve
  | |- preserves _ (path_join _ _) => apply preserves_path_join
  | |- preserves _ (len_of _) => apply preserves_len_of
  | |- preserves _ (slits_mask _) => apply preserves_slits_mask
  | |- preserves _ (slits_nslits _) => apply preserves_slits_nslits
  | |- preserves _ (zeros _) => apply preserves_zeros
  | |- preserves _ (zeros_like _) => apply preserves_zeros_like
  | |- preserves _ (first_of _) => apply preserves_first_of
  | |- preserves _ (shape _) => unfold shape; preserves_solve
  | |- preserves _ (representative _) => unfold representative; preserves_solve
  | |- preserves _ (pixel_wave _) => unfold pixel_wave; preserves_solve
  | |- preserves _ (ext _ _ _) => apply preserves_ext
  | |- preserves _ (ext2 _ _ _) => apply preserves_ext2
  | |- preserves _ (ext3 _ _ _) => apply preserves_ext3
  | |- preserves _ (SlitTraceSet_to_master _ _) => unfold SlitTraceSet_to_master; preserves_solve
  | |- preserves _ (SlitTraceSet_from_master _ _ _ _) =>
      unfold SlitTraceSet_from_master; preserves_solve
  | |- preserves _ (if _ then _ else _) => apply preserves_if; preserves_solve
  | |- preserves _ (let '(_, _) := ?p in _) => destruct p; preserves_solve
  | |- preserves _ (match ?x with _ => _ end) => destruct x; preserves_solve
  end.


(** ** Stepping through a run *)


Lemma all_set_frame s s' items :
  (∀ n, n ∈ items → attrs s' !! n = attrs s !! n) → all_set s' items = all_set s items.
Proof.
  induction items as [|n items IH]; intros H; [done|].
  unfold all_set in *. cbn [forallb]. rewrite H by set_solver. f_equal.
  apply IH. intros. apply H. set_solver.
Qed.


Lemma subscript_inv d key s v s' : subscript d key s = (Ok v, s') → item d key = Some v ∧ s' = s.
Proof.
  unfold subscript, item. destruct d; try done.
  destruct (list_find _ _) as [[? [? ?]]|]; intros [= <- <-]; done.
Qed.

Lemma subscript_Ok d key s v : item d key = Some v → subscript d key s = (Ok v, s).
Proof.
  unfold subscript, item. destruct d; try done.
  destruct (list_find _ _) as [[? [? ?]]|]; intros [= <-]; done.
Qed.

Lemma mret_inv {A} (a b : A) s s' : (mret a : M A) s = (Ok b, s') → b = a ∧ s' = s.
Proof. by intros [= <- <-]. Qed.
Lemma setattr_inv n v s u s' : setattr n v s = (Ok u, s') → s' = with_attrs <[n := v]> s.
Proof. by intros [= <-]. Qed.
Lemma set_master_key_inv n k s u s' :
  set_master_key n k s = (Ok u, s') → s' = with_master_key_dict <[n := k]> s.
Proof. by intros [= <-]. Qed.
Lemma msgs_info_inv msg s u s' : msgs_info msg s = (Ok u, s') → s' = with_log (cons (Info msg)) s.
Proof. by intros [= <-]. Qed.
Lemma msgs_warn_inv msg s u s' : msgs_warn msg s = (Ok u, s') → s' = with_log (cons (Warn msg)) s.
Proof. by intros [= <-]. Qed.
Lemma msgs_error_inv {A} msg s (a : A) s' : msgs_error msg s = (Ok a, s') → False.
Proof. done. Qed.
Lemma raise_inv {A} e s (a : A) s' : raise e s = (Ok a, s') → False.
Proof. done. Qed.
Lemma setattr_Ok n v s : setattr n v s = (Ok tt, with_attrs <[n := v]> s).
Proof. done. Qed.
Lemma set_master_key_Ok n k s : set_master_key n k s = (Ok tt, with_master_key_dict <[n := k]> s).
Proof. done. Qed.
Lemma msgs_info_Ok msg s : msgs_info msg s = (Ok tt, with_log (cons (Info msg)) s).
Proof. done. Qed.
Lemma msgs_warn_Ok msg s : msgs_warn msg s = (Ok tt, with_log (cons (Warn msg)) s).
Proof. done. Qed.
Lemma msgs_error_Raise {A} msg s :
  (msgs_error msg : M A) s = (Raise (PypeItError msg), with_log (cons (Error msg)) s).
Proof. done. Qed.
Lemma mret_Ok {A} (a : A) s : (mret a : M A) s = (Ok a, s).
Proof. done. Qed.

Lemma has_master_key_Ok n s :
  has_master_key n s = (Ok (bool_decide (is_Some (master_key_dict s !! n))), s).
Proof. done. Qed.

Lemma when_true m : when true m = m. Proof. done. Qed.
Lemma when_false m : when false m = (mret tt : M unit). Proof. done. Qed.

Lemma _update_cache_One name ty d :
  _update_cache name (One ty) (One d)
  = (k ← master_key_of name; cache_set k ty d ;; mret tt).
Proof. done. Qed.

Lemma _update_cache_Many2 name ty1 ty2 d1 d2 :
  _update_cache name (Many [ty1; ty2]) (Many [d1; d2])
  = (k ← master_key_of name; cache_set k ty1 d1 ;;
     k ← master_key_of name; cache_set k ty2 d2 ;; mret tt).
Proof. done. Qed.

Lemma par_item_eq k : par_item k = (par ← getattr "par"; subscript par k).
Proof. done. Qed.
Lemma par_item2_eq k1 k2 : par_item2 k1 k2 = (sub ← par_item k1; subscript sub k2).
Proof. done. Qed.
Lemma representative_nil : representative [] = getattr "frame".
Proof. done. Qed.
Lemma representative_cons r rows : representative (r :: rows) = (mret (VInt r) : M value).
Proof. done. Qed.

Lemma has_master_key_inv n s b s' :
  has_master_key n s = (Ok b, s') →
  b = bool_decide (is_Some (master_key_dict s !! n)) ∧ s' = s.
Proof. by intros [= <- <-]. Qed.

Lemma slits_mask_ior_inv c s u s' :
  slits_mask_ior c s = (Ok u, s') →
  ∃ o n mask0 cm m1,
    attrs s !! "slits" = Some (VSlits o n mask0) ∧ c = VMask cm
    ∧ ior (default mask0 (slit_masks s !! o)) cm = Some m1
    ∧ s' = with_slit_masks <[o := m1]> s.
Proof.
  unfold slits_mask_ior. intros H.
  apply bind_inv_Ok in H as (sl & s1 & H1 & H). apply getattr_inv in H1 as [Hs ->].
  apply bind_inv_Ok in H as (mask & s1 & H1 & H).
  destruct sl as [| | | | | | | | | | | | |o n mask0]; try done.
  injection H1 as <- <-.
  destruct c as [| | | | | | | | |cm| | | |]; try done.
  destruct (ior _ cm) as [m1|] eqn:Hi; [|done]. injection H as <- <-.
  by exists o, n, mask0, cm, m1.
Qed.

Lemma slits_mask_ior_Ok cm s o n mask0 m1 :
  attrs s !! "slits" = Some (VSlits o n mask0) →
  ior (default mask0 (slit_masks s !! o)) cm = Some m1 →
  slits_mask_ior (VMask cm) s = (Ok tt, with_slit_masks <[o := m1]> s).
Proof.
  intros Hs Hi. unfold slits_mask_ior.
  rewrite (bind_Ok _ _ _ _ _ (getattr_Ok _ _ _ Hs)).
  unfold mbind, M_bind, bind, slits_mask. by rewrite Hi.
Qed.

(** Or-ing the same mask in again changes nothing. *)
Lemma ior_again m c m1 : ior m c = Some m1 → ior m1 c = Some m1.
Proof.
  unfold ior. destruct c as [|x [|y c]].
  - destruct (Nat.eqb_spec (length m) (length (@nil bool))) as [H|]; [|done].
    intros [= <-]. destruct m; [done|discriminate].
  - intros [= <-]. f_equal. rewrite map_map. apply map_ext. intros b. by destruct b, x.
  - destruct (Nat.eqb_spec (length m) (length (x :: y :: c))) as [H|]; [|done].
    intros [= <-]. rewrite length_zip_with, H, Nat.min_id, Nat.eqb_refl. f_equal.
    clear H. revert m. generalize (x :: y :: c). intros l.
    induction l as [|b l IH]; intros [|a m]; simpl; try done.
    rewrite IH. by destruct a, b.
Qed.

Lemma representative_inv rows s v s' :
  representative rows s = (Ok v, s') → rep_of s rows = Some v ∧ s' = s.
Proof.
  destruct rows as [|r rows]; simpl.
  - intros H. by apply getattr_inv in H.
  - by intros [= <- <-].
Qed.

Lemma representative_Ok rows s v : rep_of s rows = Some v → representative rows s = (Ok v, s).
Proof.
  destruct rows as [|r rows]; simpl.
  - apply getattr_Ok.
  - by intros [= <-].
Qed.

Lemma rep_of_frame s s' rows :
  attrs s' !! "frame" = attrs s !! "frame" → rep_of s' rows = rep_of s rows.
Proof. by destruct rows. Qed.

Lemma _cached_inv2 ty key s b s' :
  _cached ty key s = (Ok b, s') →
  (b = false ∧ s' = after_miss ty key s)
  ∨ (∃ entry v, calib_dict s !! key = Some entry ∧ entry !! ty = Some v ∧ b = true
                ∧ s' = with_log (cons (Info ("Using " ++ ty ++ " for " ++ key
                                             ++ " found in cache."))) s).
Proof.
  intros H. unfold after_miss.
  apply _cached_inv in H as [(-> & -> & ->)|[(entry & -> & _ & -> & ->)|H]]; auto.
Qed.

(** ** The checks of [get_wv_calib] *)

Lemma get_wv_calib_checks_Ok s :
  all_set s ["msarc"; "msbpm"; "slits"] = true →
  all_set s ["det"; "calib_ID"; "par"] = true →
  is_Some (master_key_dict s !! "arc") →
  get_wv_calib_checks s = (Ok tt, s).
Proof.
  intros H1 H2 H3. unfold get_wv_calib_checks.
  rewrite (bind_Ok _ _ _ _ _ (_chk_objs_Ok _ _ H1)). cbn [negb]. rewrite when_false.
  rewrite (bind_Ok _ _ _ _ _ (mret_Ok _ _)).
  rewrite (bind_Ok _ _ _ _ _ (_chk_set_Ok _ _ H2)).
  rewrite (bind_Ok _ _ _ _ _ (has_master_key_Ok _ _)).
  by rewrite bool_decide_eq_true_2.
Qed.

Lemma get_wv_calib_checks_inv s u s' :
  get_wv_calib_checks s = (Ok u, s') →
  all_set s ["msarc"; "msbpm"; "slits"] = true
  ∧ all_set s ["det"; "calib_ID"; "par"] = true
  ∧ is_Some (master_key_dict s !! "arc")
  ∧ s' = s.
Proof.
  unfold get_wv_calib_checks. intros H.
  apply bind_inv_Ok in H as (b & s1 & H1 & H).
  apply _chk_objs_inv in H1 as [(-> & H1 & ->)|(-> & _ & w1 & w2 & ->)]; cbn [negb] in H.
  - rewrite when_false in H. apply bind_inv_Ok in H as (? & s1 & H0 & H).
    apply mret_inv in H0 as [_ ->].
    apply bind_inv_Ok in H as (? & s1 & H2 & H).
    apply _chk_set_inv in H2 as [H2 ->].
    rewrite (bind_Ok _ _ _ _ _ (has_master_key_Ok _ _)) in H.
    destruct (bool_decide _) eqn:Hk; cbn [negb] in H.
    + injection H as <-. apply bool_decide_eq_true_1 in Hk. done.
    + rewrite when_true in H. done.
  - rewrite when_true in H. apply bind_inv_Ok in H as (? & ? & H & _). done.
Qed.

Lemma all_set_cons s n items :
  all_set s (n :: items) = true
  ↔ (∃ v, attrs s !! n = Some v ∧ is_None v = false) ∧ all_set s items = true.
Proof.
  unfold all_set. cbn [forallb]. rewrite andb_true_iff. split.
  - intros [H1 H2]. split; [|done]. destruct (attrs s !! n) as [v|]; [|done].
    exists v. split; [done|]. by destruct (is_None v).
  - intros [(v & -> & ->) H2]. done.
Qed.

Lemma _chk_objs_false_again items s s' w1 w2 :
  _chk_objs items s = (Ok false, with_log (cons w2) (with_log (cons w1) s)) →
  (∀ n, n ∈ items → attrs s' !! n = attrs s !! n) →
  _chk_objs items s' = (Ok false, with_log (cons w2) (with_log (cons w1) s')).
Proof.
  induction items as [|n items IH]; simpl; [done|].
  intros H HA. unfold mbind, M_bind, bind, getattr in *.
  rewrite (HA n) by set_solver. destruct (attrs s !! n) as [v|]; [|done].
  destruct (is_None v).
  - unfold msgs_warn, emit, modify in *. by injection H as <- <-.
  - apply IH; [done|]. intros. apply HA. set_solver.
Qed.

Ltac st_cbn H :=
  cbn [attrs calib_dict master_key_dict slit_masks log
       with_attrs with_calib_dict with_master_key_dict with_slit_masks with_log] in H.

Ltac st_cbn_all :=
  cbn [attrs calib_dict master_key_dict slit_masks log
       with_attrs with_calib_dict with_master_key_dict with_slit_masks with_log] in *.

Ltac st_cbn_goal :=
  cbn [attrs calib_dict master_key_dict slit_masks log
       with_attrs with_calib_dict with_master_key_dict with_slit_masks with_log].

(** A block in the middle of a run: only its frame is kept. *)
Ltac block W Hm :=
  lazymatch type of Hm with
  | ?m ?s = (_, ?s1) =>
      let P := fresh "P" in
      assert (preserves W m) as P by preserves_solve;
      apply P in Hm; clear P;
      let A := fresh "A" in let C := fresh "C" in let K := fresh "K" in
      let Mk := fresh "Mk" in let L := fresh "L" in
      let HA := fresh "HA" in let HC := fresh "HC" in let HK := fresh "HK" in
      let HM := fresh "HM" in let HL := fresh "HL" in
      destruct s1 as [A C K Mk L];
      destruct Hm as [HA HC HK HM [? HL]];
      st_cbn HA; st_cbn HC; st_cbn HK; st_cbn HM; st_cbn HL;
      subst C K Mk L
  end.

(** Has the run missed the cache?  From there on it builds, and a second
    call will not come this way. *)
Ltac past_miss :=
  lazymatch goal with
  | _ : _cached _ _ _ = (Ok false, _) |- _ => idtac
  end.

(** One step of a run that is known to return. *)
Ltac minv W H :=
  lazymatch type of H with
  | (_ ≫= _) _ = (Ok _, _) =>
      let a := fresh "a" in let s1 := fresh "s" in let Hm := fresh "Hm" in
      apply bind_inv_Ok in H as (a & s1 & Hm & H);
      first [ progress (minv_prim W Hm)
            | past_miss; block W Hm
            | minv_if W Hm | minv_bind W Hm | block W Hm | minv_split W Hm ];
      cbn beta in H; st_cbn H
  | _ => first [ progress (minv_prim W H) | minv_split W H ]
  end
with minv_prim W H :=
  lazymatch type of H with
  | getattr _ _ = _ => apply getattr_inv in H as [H ->]; st_cbn H
  | master_key_of _ _ = _ => apply master_key_of_inv in H as [H ->]; st_cbn H
  | cache_get _ _ _ = _ =>
      let entry := fresh "entry" in let H' := fresh H in
      apply cache_get_inv in H as (entry & H & H' & ->); st_cbn H
  | cache_set _ _ _ _ = _ =>
      let entry := fresh "entry" in
      apply cache_set_inv in H as (entry & H & ->); st_cbn H
  | ext _ _ _ _ = _ => apply ext_inv in H as [_ ->]
  | ext2 _ _ _ _ = _ => apply ext2_inv in H as [_ ->]
  | ext3 _ _ _ _ = _ => apply ext3_inv in H as [_ ->]
  | _chk_set _ _ = _ => apply _chk_set_inv in H as [H ->]
  | _chk_objs _ _ = _ =>
      let H' := fresh H in
      pose proof H as H';
      apply _chk_objs_inv in H as [(-> & H & ->)|(-> & H & ? & ? & ->)];
      [clear H'|]
  | get_wv_calib_checks _ = _ =>
      let H1 := fresh H in let H2 := fresh H in
      apply get_wv_calib_checks_inv in H as (H & H1 & H2 & ->); st_cbn H2
  | subscript _ _ _ = _ => apply subscript_inv in H as [H ->]
  | _cached _ _ _ = _ =>
      let entry := fresh "entry" in let v := fresh "v" in
      let Hmiss := fresh "Hmiss" in
      pose proof H as Hmiss;
      apply _cached_inv2 in H as [(? & ?)|(entry & v & H & ? & ? & ?)];
      [|clear Hmiss; st_cbn H]; simplify_eq; unfold after_miss in *
  | mret _ _ = _ => apply mret_inv in H as [? ?]; simplify_eq
  | setattr _ _ _ = _ => apply setattr_inv in H as ->
  | set_master_key _ _ _ = _ => apply set_master_key_inv in H as ->
  | msgs_info _ _ = _ => apply msgs_info_inv in H as ->
  | msgs_warn _ _ = _ => apply msgs_warn_inv in H as ->
  | raise _ _ = _ => destruct (raise_inv _ _ _ _ H)
  | msgs_error _ _ = _ => destruct (msgs_error_inv _ _ _ _ H)
  | when ?b (msgs_error _) _ = _ =>
      destruct b eqn:?;
      [ rewrite when_true in H; destruct (msgs_error_inv _ _ _ _ H)
      | rewrite when_false in H; apply mret_inv in H as [? ?]; simplify_eq ]
  | representative _ _ = _ => apply representative_inv in H as [H ->]
  | has_master_key _ _ = _ => apply has_master_key_inv in H as [-> ->]; st_cbn_all
  | slits_mask_ior _ _ = _ =>
      let o := fresh "o" in let n := fresh "n" in let mask0 := fresh "mask0" in
      let cm := fresh "cm" in let m1 := fresh "m1" in let Hior := fresh "Hior" in
      apply slits_mask_ior_inv in H as (o & n & mask0 & cm & m1 & H & ? & Hior & ->);
      st_cbn H; st_cbn Hior; simplify_eq
  | par_item _ _ = _ => rewrite par_item_eq in H; repeat (minv W H)
  | par_item2 _ _ _ = _ => rewrite par_item2_eq in H; repeat (minv W H)
  | _update_cache _ (One _) (One _) _ = _ => rewrite _update_cache_One in H; repeat (minv W H)
  | _update_cache _ (Many [_; _]) (Many [_; _]) _ = _ =>
      rewrite _update_cache_Many2 in H; repeat (minv W H)
  | _ => idtac
  end
with minv_bind W H :=
  lazymatch type of H with
  | (_ ≫= _) _ = _ => repeat (minv W H)
  end
with minv_if W H :=
  lazymatch type of H with
  | (if ?b then _ else _) _ = _ => destruct b eqn:?; repeat (minv W H)
  end
with minv_split W H :=
  lazymatch type of H with
  | when ?b _ _ = _ =>
      destruct b eqn:?; [rewrite when_true in H|rewrite when_false in H]; repeat (minv W H)
  | (if ?b then _ else _) _ = _ => destruct b eqn:?; repeat (minv W H)
  | (match ?x with _ => _ end) _ = _ => destruct x eqn:?; repeat (minv W H)
  end.

Ltac minvs W H := repeat (minv W H).

Ltac hyp_norm1 :=
  match goal with
  | H : context [<[?a:=_]> _ !! ?a] |- _ => rewrite lookup_insert_eq in H
  | H : context [<[?a:=_]> _ !! ?b] |- _ => rewrite lookup_insert_ne in H by done
  | HA : (∀ n, written _ n = false → ?A !! n = _), H : context [?A !! ?n] |- _ =>
      rewrite (HA n eq_refl) in H
  end.

Ltac hyp_norm := simplify_eq; repeat (hyp_norm1; simplify_eq).

Ltac lookup_strip :=
  repeat first
    [ rewrite lookup_insert_ne by done
    | match goal with
      | HA : (∀ n, written _ n = false → ?A !! n = _) |- context [?A !! ?n] =>
          rewrite (HA n eq_refl)
      end ].

Ltac lookup_solve :=
  st_cbn_goal; lookup_strip;
  first [apply lookup_insert_eq | eassumption | reflexivity].

Ltac frame_solve :=
  let n := fresh "n" in let Hn := fresh in
  intros n Hn; st_cbn_goal;
  repeat (apply elem_of_cons in Hn as [->|Hn]);
  [ lookup_strip; reflexivity .. | by apply elem_of_nil in Hn ].

Ltac rep_solve :=
  match goal with
  | H : rep_of _ ?rows = Some _ |- rep_of _ ?rows = Some _ =>
      etrans; [apply rep_of_frame | exact H]; st_cbn_goal; lookup_strip; reflexivity
  end.

Ltac ior_solve :=
  st_cbn_goal; rewrite ?lookup_insert_eq; cbn [default];
  first [eassumption | eapply ior_again; eassumption].

Ltac all_set_solve :=
  match goal with
  | H : all_set (mkCalibrations ?A _ _ _ _) ?l = true |- all_set ?s' ?l = true =>
      etrans; [apply all_set_frame | exact H]; frame_solve
  end.

(** One step of a run towards its result. *)
Ltac mstep :=
  lazymatch goal with
  | |- context [((?m ≫= ?f) ≫= ?g) ?s] => rewrite (bind_assoc m f g s)
  | |- context [(when true ?m ≫= ?k) ?s] => rewrite (when_true m)
  | |- context [(when false ?m ≫= ?k) ?s] => rewrite (when_false m)
  | H : ?b = _ |- context [((if ?b then _ else _) ≫= ?k) ?s] => rewrite H
  | H : ?b = _ |- (if ?b then _ else _) ?s = _ => rewrite H
  | H : ?b = true |- context [(when ?b ?m ≫= ?k) ?s] => rewrite H
  | H : ?b = false |- context [(when ?b ?m ≫= ?k) ?s] => rewrite H
  | |- context [(par_item ?a ≫= ?k) ?s] => rewrite (par_item_eq a)
  | |- context [(par_item2 ?a ?b ≫= ?k) ?s] => rewrite (par_item2_eq a b)
  | |- context [(subscript ?d ?a ≫= ?k) ?s] =>
      erewrite (bind_Ok (subscript d a) k s) by (apply subscript_Ok; eassumption)
  | |- context [(msgs_error ?a ≫= ?k) ?s] =>
      rewrite (bind_Raise (msgs_error a) k s _ _ (msgs_error_Raise a s))
  | |- context [(raise ?e ≫= ?k) ?s] =>
      rewrite (bind_Raise (raise e) k s e s eq_refl)
  | |- context [(_update_cache ?n (One ?t) (One ?d) ≫= ?k) ?s] =>
      rewrite (_update_cache_One n t d)
  | |- context [(_update_cache ?n (Many [?t1; ?t2]) (Many [?d1; ?d2]) ≫= ?k) ?s] =>
      rewrite (_update_cache_Many2 n t1 t2 d1 d2)
  | |- context [(cache_set ?a ?b ?c ≫= ?k) ?s] =>
      erewrite (bind_Ok (cache_set a b c) k s) by (eapply cache_set_Ok; lookup_solve)
  | |- context [(has_master_key ?n ≫= ?k) ?s] =>
      rewrite (bind_Ok (has_master_key n) k s _ _ (has_master_key_Ok n s))
  | |- context [(getattr ?n ≫= ?k) ?s] =>
      erewrite (bind_Ok (getattr n) k s) by (apply getattr_Ok; lookup_solve)
  | |- context [(master_key_of ?n ≫= ?k) ?s] =>
      erewrite (bind_Ok (master_key_of n) k s) by (apply master_key_of_Ok; lookup_solve)
  | |- context [(_chk_set ?l ≫= ?k) ?s] =>
      erewrite (bind_Ok (_chk_set l) k s) by (apply _chk_set_Ok; all_set_solve)
  | |- context [(_chk_objs ?l ≫= ?k) ?s] =>
      first
        [ erewrite (bind_Ok (_chk_objs l) k s) by (apply _chk_objs_Ok; all_set_solve)
        | erewrite (bind_Ok (_chk_objs l) k s)
            by (eapply _chk_objs_false_again; [eassumption | frame_solve]) ]
  | |- context [(get_wv_calib_checks ≫= ?k) ?s] =>
      erewrite (bind_Ok get_wv_calib_checks k s)
        by (apply get_wv_calib_checks_Ok; [all_set_solve | all_set_solve | st_cbn_goal; eassumption])
  | |- context [(cache_get ?a ?b ≫= ?k) ?s] =>
      erewrite (bind_Ok (cache_get a b) k s) by (eapply cache_get_Ok; [lookup_solve | lookup_solve])
  | |- context [(_cached ?a ?b ≫= ?k) ?s] =>
      erewrite (bind_Ok (_cached a b) k s) by (eapply _cached_hit; [lookup_solve | lookup_solve])
  | |- context [(setattr ?a ?b ≫= ?k) ?s] =>
      rewrite (bind_Ok (setattr a b) k s _ _ (setattr_Ok a b s))
  | |- context [(set_master_key ?a ?b ≫= ?k) ?s] =>
      rewrite (bind_Ok (set_master_key a b) k s _ _ (set_master_key_Ok a b s))
  | |- context [(msgs_info ?a ≫= ?k) ?s] =>
      rewrite (bind_Ok (msgs_info a) k s _ _ (msgs_info_Ok a s))
  | |- context [(msgs_warn ?a ≫= ?k) ?s] =>
      rewrite (bind_Ok (msgs_warn a) k s _ _ (msgs_warn_Ok a s))
  | |- context [(mret ?a ≫= ?k) ?s] =>
      rewrite (bind_Ok (mret a) k s _ _ (mret_Ok a s))
  | |- context [(slits_mask_ior ?c ≫= ?k) ?s] =>
      erewrite (bind_Ok (slits_mask_ior c) k s)
        by (eapply slits_mask_ior_Ok; [lookup_solve | ior_solve])
  | |- context [(representative ?rows ≫= ?k) ?s] =>
      first
        [ erewrite (bind_Ok (representative rows) k s) by (apply representative_Ok; rep_solve)
        | match goal with H : rows = _ |- _ => rewrite H end;
          rewrite ?representative_nil, ?representative_cons ]
  end; cbn beta iota; cbn [negb andb orb]; st_cbn_goal.

Lemma ext_Ok E callee args s v :
  ext_answer E s callee args = Ok v →
  ext E callee args s = (Ok v, with_log (cons (Call callee args None)) s).
Proof. unfold ext. by intros ->. Qed.

Lemma present_cons s n names :
  present s (n :: names) = true ↔ is_Some (attrs s !! n) ∧ present s names = true.
Proof.
  unfold present. cbn [forallb]. rewrite andb_true_iff.
  destruct (attrs s !! n); split; intros [H1 H2]; try done; try (split; eauto); try by destruct H1.
Qed.

(** A step of a run where the way forks: on the cache, on a flag, on
    the answer of a collaborator. *)
Ltac mcase :=
  lazymatch goal with
  | |- context [(_cached ?t ?key ≫= ?k) ?s] =>
      let C := eval cbn [calib_dict] in (calib_dict s) in
      let entry := fresh "entry" in
      let HK := fresh "HK" in let HP := fresh "HP" in
      destruct (C !! key) as [entry|] eqn:HK;
      [ destruct (entry !! t) eqn:HP;
        [ erewrite (bind_Ok (_cached t key) k s) by (eapply _cached_hit; [exact HK|exact HP])
        | rewrite (bind_Ok (_cached t key) k s _ _ (_cached_miss t key s entry HK HP)) ]
      | rewrite (bind_Ok (_cached t key) k s _ _ (_cached_new t key s HK)) ]
  | Hans : answers ?E |- context [(ext ?E ?c ?a ≫= ?k) ?s] =>
      let v := fresh "v" in let Hv := fresh "Hv" in
      destruct (Hans s c a) as [v Hv];
      rewrite (bind_Ok (ext E c a) k s v _ (ext_Ok E c a s v Hv)); clear Hv
  | |- context [(when ?b ?m ≫= ?k) ?s] => destruct b eqn:?
  end; cbn beta iota; cbn [negb andb orb]; st_cbn_goal.

Ltac mgo := repeat first [mstep | mcase].

Ltac mfinish :=
  lazymatch goal with
  | |- getattr _ _ = _ => apply getattr_Ok; lookup_solve
  | |- mret _ _ = _ => reflexivity
  | |- msgs_error _ _ = _ => reflexivity
  | |- msgs_warn _ _ = _ => reflexivity
  | |- raise _ _ = _ => reflexivity
  end.

Ltac log_solve :=
  st_cbn_goal;
  first [ exact (eq_refl : _ = [] ++ _)%list
        | exact (eq_refl : _ = [_] ++ _)%list
        | exact (eq_refl : _ = [_; _] ++ _)%list
        | exact (eq_refl : _ = [_; _; _] ++ _)%list
        | exact (eq_refl : _ = [_; _; _; _] ++ _)%list
        | exact (eq_refl : _ = [_; _; _; _; _] ++ _)%list ].



(** * The cache: existence check and update *)

(** C2. An existence check that misses registers the key: for a key
    [K] that is not in the cache, [_cached P K] inserts an empty entry
    for [K] and returns False; for a key whose entry lacks [P], it
    inserts the empty placeholder under [(K, P)] and returns False.
    Either way [K] is then known, and every later [_update_cache]
    that addresses [K], for any product types and data, goes through;
    what a put stores is what a get returns. *)
Theorem cached_miss_registers_key (P K : string) (s : Calibrations) :
  nothing_stored P K s →
  ∃ s',
    _cached P K s = (Ok false, s')
    ∧ calib_dict s'
      = <[K := match calib_dict s !! K with
               | None => ∅
               | Some entry => <[P := VDict []]> entry
               end]> (calib_dict s)
    ∧ attrs s' = attrs s ∧ master_key_dict s' = master_key_dict s
    ∧ (∀ name master_type data,
         master_key_dict s !! name = Some K →
         ∃ s'', _update_cache name master_type data s' = (Ok tt, s''))
    ∧ (∀ name Q d,
         master_key_dict s !! name = Some K →
         ∃ s'', _update_cache name (One Q) (One d) s' = (Ok tt, s'')
                ∧ cache_get K Q s'' = (Ok d, s'')).
Proof.
  intros Hmiss.
  assert (∀ entry0 : gmap string value,
    let s' := with_calib_dict <[K := entry0]> s in
    (∀ name master_type data,
         master_key_dict s !! name = Some K →
         ∃ s'', _update_cache name master_type data s' = (Ok tt, s''))
    ∧ (∀ name Q d,
         master_key_dict s !! name = Some K →
         ∃ s'', _update_cache name (One Q) (One d) s' = (Ok tt, s'')
                ∧ cache_get K Q s'' = (Ok d, s''))) as Hput.
  { intros entry0 s'. split.
    - intros name mt data Hn.
      destruct (_update_cache_loop_Ok name K (zip (as_tuple mt) (as_tuple data)) s')
        as (s'' & ? & _); [done | simpl; rewrite lookup_insert_eq; eauto | eauto].
    - intros name Q d Hn. rewrite _update_cache_One.
      erewrite bind_Ok by (apply master_key_of_Ok; exact Hn).
      erewrite bind_Ok by (apply cache_set_Ok; simpl; apply lookup_insert_eq).
      eexists. split; [done|].
      eapply cache_get_Ok; simpl; apply lookup_insert_eq. }
  destruct (calib_dict s !! K) as [entry|] eqn:HK.
  - eexists. split; [apply (_cached_miss _ _ _ _ HK); auto|].
    repeat split; apply Hput.
  - eexists. split; [apply (_cached_new _ _ _ HK)|].
    repeat split; apply Hput.
Qed.

Lemma cached_miss_registers_key_witness :
  let s := after demo_env (demo_par "vacuum" (VStr "normalize")) ["bpm"] in
  nothing_stored "bias" "A_1_5" s
  ∧ ∃ s',
      _cached "bias" "A_1_5" s = (Ok false, s')
      ∧ ∃ s'', _update_cache "bpm" (One "bias") (One (VImage 12 4 4)) s' = (Ok tt, s'')
               ∧ cache_get "A_1_5" "bias" s'' = (Ok (VImage 12 4 4), s'').
Proof.
  intros s.
  assert (nothing_stored "bias" "A_1_5" s) as Hmiss.
  { intros entry. vm_compute. intros [= <-]. reflexivity. }
  split; [exact Hmiss|].
  destruct (cached_miss_registers_key "bias" "A_1_5" s Hmiss) as (s' & H1 & _ & _ & _ & _ & H2).
  exists s'. split; [exact H1|].
  apply H2. vm_compute. reflexivity.
Defined.

(** Three checks on a key that is new to the cache. *)
Lemma _cached_thrice_new (P K : string) (s : Calibrations) :
  calib_dict s !! K = None →
  ∃ s1 s2 s3,
    _cached P K s = (Ok false, s1) ∧ _cached P K s1 = (Ok false, s2)
    ∧ _cached P K s2 = (Ok true, s3)
    ∧ calib_dict s3 = <[K := <[P := VDict []]> ∅]> (calib_dict s)
    ∧ attrs s3 = attrs s ∧ master_key_dict s3 = master_key_dict s.
Proof.
  intros HK. eexists _, _, _. split; [apply (_cached_new _ _ _ HK)|].
  split; [eapply _cached_miss; [simpl; apply lookup_insert_eq | apply lookup_empty]|].
  split; [eapply _cached_hit; simpl; apply lookup_insert_eq|].
  simpl. by rewrite !insert_insert_eq.
Qed.

(** Two checks on a known key without the product. *)
Lemma _cached_twice_known (P K : string) (s : Calibrations) entry :
  calib_dict s !! K = Some entry → entry !! P = None →
  ∃ s1 s2,
    _cached P K s = (Ok false, s1) ∧ _cached P K s1 = (Ok true, s2)
    ∧ calib_dict s2 = <[K := <[P := VDict []]> entry]> (calib_dict s)
    ∧ attrs s2 = attrs s ∧ master_key_dict s2 = master_key_dict s.
Proof.
  intros HK HP. eexists _, _. split; [apply (_cached_miss _ _ _ _ HK HP)|].
  split; [eapply _cached_hit; simpl; apply lookup_insert_eq|]. done.
Qed.

Section Placeholder.
Variable E : Env.

(** [get_arc] on a cache that has something under its key and type:
    that object is what it returns, and no builder is called. *)
Lemma get_arc_hit s c rep d entry v :
  all_set s ["det"; "calib_ID"; "par"] = true →
  attrs s !! "calib_ID" = Some c →
  rep_of s (find_frames E "arc" c) = Some rep →
  attrs s !! "det" = Some d →
  calib_dict s !! master_key E rep d = Some entry →
  entry !! "arc" = Some v →
  ∃ s' new, get_arc E s = (Ok v, s') ∧ emitted s s' new
            ∧ Forall (fun e => is_Call e = false) new.
Proof.
  intros Hset Hc Hrep Hd HK Hv. destruct s as [A C K Mk L]. st_cbn Hc. st_cbn Hd. st_cbn HK.
  destruct (find_frames E "arc" c) as [|r rows] eqn:Hrows; cbn [rep_of attrs] in Hrep;
    simplify_eq.
  all: eexists _, _; split;
    [unfold get_arc; repeat mstep; mfinish | split; [unfold emitted; log_solve|repeat constructor]].
Qed.

End Placeholder.

(** C10, as it is worded, fails: on a key that is new to the cache
    the second check still misses. *)
Lemma second_check_on_new_key_misses :
  ¬ (∀ P K s, nothing_stored P K s → second_check_hits P K s).
Proof.
  intros H. destruct (H "arc" "A_1_3" new_object) as (s1 & s2 & H1 & H2).
  - intros entry. vm_compute. discriminate.
  - vm_compute in H1. injection H1 as <-. vm_compute in H2. discriminate.
Qed.

(** C10, amended.  Where nothing is stored for [P] under [K]: if [K]
    is already in the cache, two checks in a row return False and then
    True; if [K] is new, the first check only registers it, the second
    inserts the placeholder and still returns False, and the third
    returns True.  From then on the cache holds the empty dictionary
    under [(K, P)], and a getter that finds it takes it for its
    product: [get_arc], when [K] is its key, returns the placeholder
    and calls no builder. *)
Theorem placeholder_is_served (E : Env) (P K : string) (s : Calibrations) :
  nothing_stored P K s →
  ∃ s1 s2 s3,
    _cached P K s = (Ok false, s1)
    ∧ _cached P K s1 = (Ok (bool_decide (is_Some (calib_dict s !! K))), s2)
    ∧ _cached P K s2 = (Ok true, s3)
    ∧ cache_get K P s3 = (Ok (VDict []), s3)
    ∧ (∀ c rep d,
         P = "arc" →
         all_set s ["det"; "calib_ID"; "par"] = true →
         attrs s !! "calib_ID" = Some c →
         rep_of s (find_frames E "arc" c) = Some rep →
         attrs s !! "det" = Some d →
         K = master_key E rep d →
         ∃ s4 new, get_arc E s3 = (Ok (VDict []), s4) ∧ emitted s3 s4 new
                   ∧ Forall (fun e => is_Call e = false) new).
Proof.
  intros Hmiss.
  assert (∀ s3 entry, calib_dict s3 = <[K := <[P := VDict []]> entry]> (calib_dict s) →
            attrs s3 = attrs s →
            cache_get K P s3 = (Ok (VDict []), s3)
            ∧ (∀ c rep d,
                 P = "arc" →
                 all_set s ["det"; "calib_ID"; "par"] = true →
                 attrs s !! "calib_ID" = Some c →
                 rep_of s (find_frames E "arc" c) = Some rep →
                 attrs s !! "det" = Some d →
                 K = master_key E rep d →
                 ∃ s4 new, get_arc E s3 = (Ok (VDict []), s4) ∧ emitted s3 s4 new
                           ∧ Forall (fun e => is_Call e = false) new)) as Hget.
  { intros s3 entry HC HA. split.
    - eapply cache_get_Ok; [rewrite HC|]; apply lookup_insert_eq.
    - intros c rep d -> Hset Hc Hrep Hd ->.
      eapply get_arc_hit.
      + etrans; [apply all_set_frame|exact Hset]. intros; by rewrite HA.
      + rewrite HA. exact Hc.
      + unfold rep_of in *. rewrite HA. exact Hrep.
      + rewrite HA. exact Hd.
      + rewrite HC. apply lookup_insert_eq.
      + apply lookup_insert_eq. }
  destruct (calib_dict s !! K) as [entry|] eqn:HK.
  - destruct (_cached_twice_known P K s entry HK (Hmiss _ HK)) as (s1 & s2 & H1 & H2 & HC & HA & _).
    exists s1, s2. eexists. split; [exact H1|]. split; [exact H2|].
    split; [eapply _cached_hit; [rewrite HC|]; apply lookup_insert_eq|].
    apply (Hget _ entry); simpl; done.
  - destruct (_cached_thrice_new P K s HK) as (s1 & s2 & s3 & H1 & H2 & H3 & HC & HA & _).
    exists s1, s2, s3. split; [exact H1|]. split; [exact H2|]. split; [exact H3|].
    apply (Hget _ ∅); done.
Qed.

Lemma placeholder_is_served_witness :
  let E := demo_env in
  let s := after E (demo_par "vacuum" (VStr "normalize")) ["bpm"] in
  nothing_stored "arc" "A_1_3" s
  ∧ ∃ s1 s2 s3,
      _cached "arc" "A_1_3" s = (Ok false, s1)
      ∧ _cached "arc" "A_1_3" s1 = (Ok false, s2)
      ∧ _cached "arc" "A_1_3" s2 = (Ok true, s3)
      ∧ ∃ s4 new, get_arc E s3 = (Ok (VDict []), s4) ∧ emitted s3 s4 new
                  ∧ Forall (fun e => is_Call e = false) new.
Proof.
  intros E s.
  assert (nothing_stored "arc" "A_1_3" s) as Hmiss.
  { intros entry. vm_compute. discriminate. }
  split; [exact Hmiss|].
  destruct (placeholder_is_served E "arc" "A_1_3" s Hmiss) as (s1 & s2 & s3 & H1 & H2 & H3 & _ & H4).
  exists s1, s2, s3. split; [exact H1|]. split; [exact H2|]. split; [exact H3|].
  apply (H4 (VInt 0) (VInt 3) (VInt 1)); vm_compute; reflexivity.
Defined.

(** * Configuration *)

Lemma _reset_internals_Ok s :
  _reset_internals s
  = (Ok tt,
     with_master_key_dict (fun _ => ∅)
       (with_attrs
          (fun A => <["calib_ID" := VNone]> (<["mswave" := VNone]> (<["msillumflat" := VNone]>
             (<["mspixelflat" := VNone]> (<["tilts_dict" := VNone]> (<["wavecalib" := VNone]>
             (<["slits" := VNone]> (<["msbpm" := VNone]> (<["msbias" := VNone]>
             (<["msarc" := VNone]> (<["shape" := VNone]> A))))))))))) s)).
Proof. destruct s. reflexivity. Qed.

Ltac scratch_solve :=
  unfold scratch_attrs; repeat (constructor; [lookup_solve|]); try constructor.

(** C8, as it is worded, fails: not every call resets.  Given a
    list for a frame (anything with a length), [set_config] is fatal
    at its first check, before [_reset_internals] and before the
    cache is emptied: the arc image is still there, the key table
    still has its keys, and the cache that [rm_cache] asked to empty
    is as it was. *)
Lemma set_config_on_a_list_resets_nothing :
  let E := demo_env in
  let s := after E (demo_par "vacuum" (VStr "normalize")) ["bias"; "bpm"; "arc"] in
  let out := set_config E (VRows [5]) (VInt 1) VNone VNone true s in
  out.1 = Raise (PypeItError "Must provide a single integer for frame.")
  ∧ attrs out.2 !! "msarc" = Some (VImage 10 4 4)
  ∧ master_key_dict out.2 !! "arc" = Some "A_1_3"
  ∧ calib_dict out.2 = calib_dict s
  ∧ is_Some (calib_dict s !! "A_1_3")
  ∧ ¬ resets_on_every_call E.
Proof.
  intros E s out.
  assert (attrs out.2 !! "msarc" = Some (VImage 10 4 4)) as Harc by (by vm_compute).
  split; [by vm_compute|]. split; [exact Harc|]. split; [by vm_compute|].
  split; [by vm_compute|]. split; [vm_compute; by eexists|].
  intros H.
  destruct (H (VRows [5]) (VInt 1) VNone VNone true s out.1 out.2 (surjective_pairing _))
    as [Hs _].
  unfold scratch_attrs in Hs. apply Forall_cons in Hs as [_ Hs]. apply Forall_cons in Hs as [Hs _].
  rewrite Harc in Hs. discriminate.
Qed.

(** C8, amended.  A call of [set_config] with a single frame (an
    object without a length) resets the scratch attributes:
    [_reset_internals] sets shape, msarc, msbias, msbpm, slits,
    wavecalib, tilts_dict, the two flats, mswave and calib_ID to None
    and empties master_key_dict, and leaves the cache alone; when the
    call is over the ten product attributes are still None, the cache
    is what it was, unless [rm_cache] is set, in which case it is
    empty, and the key table holds the key of the frame and calib_ID
    the group of the frame if the call has returned, and the key
    table holds nothing if it has raised.  A call with a frame that
    has a length is fatal at the first check and changes nothing but
    the log. *)
Theorem set_config_resets (E : Env) (frame det par calib_id : value) (rm_cache : bool)
    (s : Calibrations) :
  (has_len frame = true →
   set_config E frame det par calib_id rm_cache s
   = (Raise (PypeItError "Must provide a single integer for frame."),
      with_log (cons (Error "Must provide a single integer for frame.")) s))
  ∧ (has_len frame = false →
     ∀ (r : res unit) (s' : Calibrations),
       set_config E frame det par calib_id rm_cache s = (r, s') →
       (∃ s0, _reset_internals s = (Ok tt, s0)
              ∧ Forall (fun n => attrs s0 !! n = Some VNone) (scratch_attrs ++ ["calib_ID"])
              ∧ master_key_dict s0 = ∅
              ∧ calib_dict s0 = calib_dict s)
       ∧ Forall (fun n => attrs s' !! n = Some VNone) scratch_attrs
       ∧ calib_dict s' = (if rm_cache then ∅ else calib_dict s)
       ∧ match r with
         | Ok _ =>
             master_key_dict s' = {["frame" := master_key E frame det]}
             ∧ ∃ group, attrs s' !! "calib_ID" = Some group
                        ∧ (if is_None calib_id
                           then VInt <$> py_int E (before_comma (fitstbl_calib E frame))
                                = Some group
                           else group = calib_id)
         | Raise _ => master_key_dict s' = ∅
         end).
Proof.
  split.
  { intros Hlen. unfold set_config. rewrite Hlen, when_true.
    by rewrite (bind_Raise _ _ _ _ _ (msgs_error_Raise _ _)). }
  intros Hlen r s' H. split.
  { eexists. split; [apply _reset_internals_Ok|]. destruct s as [A C K Mk L].
    split; [|done]. unfold scratch_attrs. cbn [app]. scratch_solve. }
  revert H. unfold set_config. rewrite Hlen, when_false.
  rewrite (bind_Ok _ _ _ _ _ (mret_Ok _ _)).
  rewrite (bind_Ok _ _ _ _ _ (_reset_internals_Ok _)).
  destruct s as [A C K Mk L]. st_cbn_goal.
  assert (∀ C0 L0,
    let s0 := mkCalibrations
      (<["calib_ID" := VNone]> (<["mswave" := VNone]> (<["msillumflat" := VNone]>
         (<["mspixelflat" := VNone]> (<["tilts_dict" := VNone]> (<["wavecalib" := VNone]>
         (<["slits" := VNone]> (<["msbpm" := VNone]> (<["msbias" := VNone]>
         (<["msarc" := VNone]> (<["shape" := VNone]> A))))))))))) C0 ∅ Mk L0 in
    (setattr "frame" frame ;;
     calib_ID ← (if is_None calib_id
                 then match py_int E (before_comma (fitstbl_calib E frame)) with
                      | Some n => mret (VInt n)
                      | None => raise (ValueError "invalid literal for int()")
                      end
                 else mret calib_id);
     setattr "calib_ID" calib_ID ;;
     when (is_None calib_id && has_comma (fitstbl_calib E frame))
       (calib_ID ← getattr "calib_ID";
        msgs_warn ("Frame " ++ py_str frame ++ " is associated with more than  one calibration "
                   ++ "group.  Using the first one (" ++ py_str calib_ID ++ ").")) ;;
     setattr "det" det ;;
     when (negb (is_None par)) (setattr "par" par) ;;
     set_master_key "frame" (master_key E frame det)) s0 = (r, s') →
    Forall (fun n => attrs s' !! n = Some VNone) scratch_attrs
    ∧ calib_dict s' = C0
    ∧ match r with
      | Ok _ =>
          master_key_dict s' = {["frame" := master_key E frame det]}
          ∧ ∃ group, attrs s' !! "calib_ID" = Some group
                     ∧ (if is_None calib_id
                        then VInt <$> py_int E (before_comma (fitstbl_calib E frame)) = Some group
                        else group = calib_id)
      | Raise _ => master_key_dict s' = ∅
      end) as Hinit.
  { intros C0 L0 s0. subst s0. mstep.
    destruct (is_None calib_id) eqn:Hid.
    - destruct (py_int E (before_comma (fitstbl_calib E frame))) as [n|] eqn:Hint.
      + mstep. mstep. cbn [andb].
        destruct (has_comma (fitstbl_calib E frame)); rewrite ?when_true, ?when_false.
        * mstep. mstep. mstep. mstep.
          destruct (is_None par); cbn [negb]; rewrite ?when_true, ?when_false; mstep.
          all: intros [= <- <-]; st_cbn_goal; split; [scratch_solve|];
            split; [done|]; split; [done|]; eexists; split; [lookup_solve|done].
        * mstep. mstep.
          destruct (is_None par); cbn [negb]; rewrite ?when_true, ?when_false; mstep.
          all: intros [= <- <-]; st_cbn_goal; split; [scratch_solve|];
            split; [done|]; split; [done|]; eexists; split; [lookup_solve|done].
      + rewrite (bind_Raise _ _ _ (ValueError "invalid literal for int()") _) by reflexivity.
        intros [= <- <-]. st_cbn_goal. split; [scratch_solve|]. by split.
    - mstep. mstep. cbn [andb]. rewrite when_false. mstep. mstep.
      destruct (is_None par); cbn [negb]; rewrite ?when_true, ?when_false; mstep.
      all: intros [= <- <-]; st_cbn_goal; split; [scratch_solve|];
        split; [done|]; split; [done|]; eexists; split; [lookup_solve|done]. }
  destruct rm_cache; rewrite ?when_true, ?when_false.
  - mstep. mstep.
    rewrite (bind_Ok (modify _) _ _ _ _ eq_refl). st_cbn_goal. apply Hinit.
  - mstep. apply Hinit.
Qed.

Lemma set_config_resets_witness :
  let E := demo_env in
  let s := after E (demo_par "vacuum" (VStr "normalize")) ["bias"; "bpm"; "arc"] in
  let out := set_config E (VInt 6) (VInt 1) VNone VNone false s in
  has_len (VInt 6) = false
  ∧ attrs s !! "msarc" = Some (VImage 10 4 4)
  ∧ Forall (fun n => attrs out.2 !! n = Some VNone) scratch_attrs
  ∧ calib_dict out.2 = calib_dict s.
Proof.
  intros E s out. split; [reflexivity|]. split; [vm_compute; reflexivity|].
  destruct (set_config_resets E (VInt 6) (VInt 1) VNone VNone false s) as [_ H].
  destruct (H eq_refl out.1 out.2 (surjective_pairing _)) as (_ & H1 & H2 & _).
  split; [exact H1|exact H2].
Defined.

(** * Flats *)

(** C4 fails on the code.  With the method set to skip and no slits
    yet, [get_flats] does not set the flats to None and return them
    with one warning: its first statement, the check of the arc, the
    bad-pixel mask, the slits and the wavelength calibration, is
    fatal, after the two warnings of [_chk_objs]; neither flat is
    assigned.  The same happens when the method is not skip: the
    later check of the slits and the tilts, which would warn and
    return (None, None) as the docstring of [get_flats] has it for
    slits that are not provided, is not reached without slits. *)
Theorem skip_flats_without_slits_is_fatal :
  let E := demo_env in
  let fatal := PypeItError "Must have the arc, bpm, slits, and wv_calib defined to proceed!" in
  let s := after E (demo_par "vacuum" (VLit "skip")) ["bias"; "bpm"; "arc"] in
  let s' := after E (demo_par "vacuum" (VStr "normalize")) ["bias"; "bpm"; "arc"] in
  par_item2 "flatfield" "method" s = (Ok (VLit "skip"), s)
  ∧ attrs s !! "slits" = Some VNone
  ∧ (get_flats E s).1 = Raise fatal
  ∧ filter (fun e => is_Warn e = true) (take 3 (log (get_flats E s).2))
    = [Warn "Use get_slits"; Warn "You need to generate slits prior to this calibration.."]
  ∧ attrs (get_flats E s).2 !! "mspixelflat" = attrs s !! "mspixelflat"
  ∧ attrs (get_flats E s).2 !! "msillumflat" = attrs s !! "msillumflat"
  ∧ attrs s' !! "slits" = Some VNone
  ∧ (get_flats E s').1 = Raise fatal.
Proof. vm_compute. repeat split. Qed.

Section Flats.
Variable E : Env.

(** What [get_flats] does where the claim holds.  When the test on
    [flatfield.method] accepts the parameter as 'skip' and the arc,
    the bad-pixel mask, the slits and the wavelength calibration are
    there, [get_flats] sets both flats to None, returns (None, None)
    and emits exactly one warning, whether or not the tilts are
    there; when one of the four is None, the call is fatal, after
    the two warnings of the check. *)
Lemma skip_flats (s : Calibrations) (par flatfield method : value) :
  attrs s !! "par" = Some par →
  item par "flatfield" = Some flatfield →
  item flatfield "method" = Some method →
  is_str method "skip" = true →
  (all_set s ["msarc"; "msbpm"; "slits"; "wv_calib"] = true →
   get_flats E s
   = (Ok (VNone, VNone),
      with_log
        (cons (Warn ("Parameter calibrations.flatfield.method is set to skip. You are NOT "
                     ++ "flatfielding your data!!!")))
        (with_attrs (fun A => <["msillumflat" := VNone]> (<["mspixelflat" := VNone]> A)) s)))
  ∧ (∀ s1, _chk_objs ["msarc"; "msbpm"; "slits"; "wv_calib"] s = (Ok false, s1) →
       (∃ w1 w2, s1 = with_log (fun l => Warn w2 :: Warn w1 :: l) s)
       ∧ get_flats E s
         = (Raise (PypeItError "Must have the arc, bpm, slits, and wv_calib defined to proceed!"),
            with_log
              (cons (Error "Must have the arc, bpm, slits, and wv_calib defined to proceed!"))
              s1)).
Proof.
  intros Hpar Hff Hm Hskip. split.
  - intros Hset. destruct s as [A C K Mk L]. st_cbn Hpar. unfold get_flats.
    repeat mstep. rewrite ?Hskip. repeat mstep. reflexivity.
  - intros s1 H1. split.
    + apply _chk_objs_inv in H1 as [(? & _)|(_ & _ & w1 & w2 & ->)]; [done|].
      exists w1, w2. by destruct s.
    + unfold get_flats. rewrite (bind_Ok _ _ _ _ _ H1). cbn [negb]. mstep. mstep. reflexivity.
Qed.

End Flats.

Lemma skip_flats_witness :
  let E := demo_env in
  let par := demo_par "vacuum" (VLit "skip") in
  let s := after E par ["bias"; "bpm"; "arc"; "tiltimg"; "slits"; "wv_calib"] in
  attrs s !! "tilts_dict" = Some VNone
  ∧ ∃ s', get_flats E s = (Ok (VNone, VNone), s') ∧ ∃ w, emitted s s' [Warn w].
Proof.
  intros E par s. split; [vm_compute; reflexivity|].
  destruct (skip_flats E s par
              (VDict [("method", VLit "skip"); ("frame", VStr "pixelflat");
                      ("illumflatten", VBool true); ("tweak_slits", VBool false)])
              (VLit "skip")) as [H _]; try (vm_compute; reflexivity).
  eexists. split; [apply H; vm_compute; reflexivity|].
  eexists. unfold emitted. destruct s. reflexivity.
Defined.

(** * The order of the steps *)


Section Order.
Variable E : Env.


End Order.


(** * Pixel space *)

(** C3 fails on the code.  With [wavelengths.reference] set to
    'pixel', the arc, the bad-pixel mask and the slits built and
    nothing cached for the wavelength calibration, [get_wv_calib] does
    not return: after it has set [wv_calib] to None it reads
    [self.maskslits], an attribute that no method of the class
    assigns, and raises AttributeError; the slit mask is not touched.
    With [wv_calib] None, [get_wave] returns None at its first check,
    even when the tilts are there; its pixel branch, which would
    return [tilts * (nspec - 1)] and call no builder, is reached only
    with a wavelength calibration that is not None. *)
Theorem pixel_wv_calib_raises :
  let E := demo_env in
  let s := after E (demo_par "pixel" (VStr "normalize"))
             ["bias"; "bpm"; "arc"; "tiltimg"; "slits"] in
  let tilts := VDict [("tilts", VImage 40 4 4)] in
  par_item2 "wavelengths" "reference" s = (Ok (VStr "pixel"), s)
  ∧ get_wv_calib_checks s = (Ok tt, s)
  ∧ attrs s !! "maskslits" = None
  ∧ (get_wv_calib E s).1 = Raise (AttributeError "maskslits")
  ∧ slit_masks (get_wv_calib E s).2 = slit_masks s
  ∧ attrs (get_wv_calib E s).2 !! "wv_calib" = Some VNone
  ∧ (get_wave E (with_attrs <["tilts_dict" := tilts]> (get_wv_calib E s).2)).1 = Ok VNone
  ∧ (get_wave E (with_attrs (fun A => <["wv_calib" := VObj 30]> (<["tilts_dict" := tilts]> A))
                   (get_wv_calib E s).2)).1
    = Ok (VScaled (VImage 40 4 4) 3).
Proof. vm_compute. repeat split. Qed.

(** * No raw frames *)

Section NoFrames.
Variable E : Env.

(** C6. With no raw frame of the role in the calibration group:
    [get_tiltimg] raises a fatal error and goes no further; [get_bias]
    and [get_arc] take the frame being calibrated as the
    representative, put its key in the key table and go on: as long as
    the builders they call answer, they return. *)
Theorem no_raw_frames (s : Calibrations) (group frame det par : value) :
  all_set s ["det"; "calib_ID"; "par"] = true →
  attrs s !! "calib_ID" = Some group →
  attrs s !! "frame" = Some frame →
  attrs s !! "det" = Some det →
  attrs s !! "par" = Some par →
  (find_frames E "tilt" group = [] →
   get_tiltimg E s
   = (Raise (PypeItError "Must identify tilt frames to construct tilt image."),
      with_log (cons (Error "Must identify tilt frames to construct tilt image.")) s))
  ∧ (find_frames E "bias" group = [] →
     is_Some (item par "biasframe") →
     present s ["spectrograph"; "master_dir"; "reuse_masters"; "save_masters"] = true →
     answers E →
     ∃ v s', get_bias E s = (Ok v, s')
             ∧ master_key_dict s' !! "bias" = Some (master_key E frame det))
  ∧ (find_frames E "arc" group = [] →
     is_Some (item par "arcframe") →
     present s ["spectrograph"; "master_dir"; "reuse_masters"; "save_masters";
                "msbias"; "msbpm"] = true →
     answers E →
     ∃ v s', get_arc E s = (Ok v, s')
             ∧ master_key_dict s' !! "arc" = Some (master_key E frame det)).
Proof.
  intros Hset Hgroup Hframe Hdet Hpar. destruct s as [A C K Mk L].
  st_cbn Hgroup. st_cbn Hframe. st_cbn Hdet. st_cbn Hpar.
  split; [|split].
  - intros Hrows. unfold get_tiltimg. mstep. mstep. rewrite Hrows. cbn [length Nat.eqb].
    repeat mstep. reflexivity.
  - intros Hrows [sub Hsub] Hp Hans.
    repeat (apply present_cons in Hp as [[? ?] Hp]). st_cbn_goal.
    unfold get_bias. mgo.
    all: eexists _, _; split; [mfinish | st_cbn_goal; apply lookup_insert_eq].
  - intros Hrows [sub Hsub] Hp Hans.
    repeat (apply present_cons in Hp as [[? ?] Hp]). st_cbn_goal.
    unfold get_arc. mgo.
    all: eexists _, _; split; [mfinish | st_cbn_goal; apply lookup_insert_eq].
Qed.

End NoFrames.

Lemma demo_answers : answers (demo_env_with no_rows demo_answer).
Proof.
  intros s callee args. cbn [demo_env_with ext_answer]. unfold demo_answer.
  repeat match goal with |- context [if ?b then _ else _] => destruct b end; eauto.
Qed.

Lemma no_raw_frames_witness :
  let E := demo_env_with no_rows demo_answer in
  let s := configured E (demo_par "vacuum" (VStr "normalize")) in
  find_frames E "tilt" (VInt 0) = []
  ∧ (get_tiltimg E s).1
    = Raise (PypeItError "Must identify tilt frames to construct tilt image.")
  ∧ (∃ v s', get_bias E s = (Ok v, s') ∧ master_key_dict s' !! "bias" = Some "A_1_5")
  ∧ (∃ v s', get_arc E s = (Ok v, s') ∧ master_key_dict s' !! "arc" = Some "A_1_5").
Proof.
  intros E s.
  destruct (no_raw_frames E s (VInt 0) (VInt 5) (VInt 1) (demo_par "vacuum" (VStr "normalize")))
    as (Ht & Hb & Ha); try (vm_compute; reflexivity).
  split; [reflexivity|]. split; [by rewrite Ht|]. split.
  - apply Hb; [reflexivity | vm_compute; eauto | vm_compute; reflexivity | apply demo_answers].
  - apply Ha; [reflexivity | vm_compute; eauto | vm_compute; reflexivity | apply demo_answers].
Defined.

(** * A crash while tracing the edges *)

Lemma split_at_crash (l1 l2 later earlier : list event) x :
  is_crash x = true → Forall (fun e => is_crash e = false) l2 →
  (l1 ++ l2 = later ++ x :: earlier)%list →
  ∃ earlier', l1 = (later ++ x :: earlier')%list ∧ earlier = (earlier' ++ l2)%list.
Proof.
  intros Hx Hl2. revert l1. induction later as [|b later IH]; intros [|a l1]; simpl; intros H.
  - subst l2. apply Forall_cons in Hl2 as [? _]. congruence.
  - injection H as -> <-. eauto.
  - subst l2. apply Forall_cons in Hl2 as [_ Hl2]. apply Forall_app in Hl2 as [_ Hl2].
    apply Forall_cons in Hl2 as [? _]. congruence.
  - injection H as -> H. destruct (IH _ H) as (earlier' & -> & ->). eauto.
Qed.

Section Quiet.

Lemma quiet_same {A} (m : M A) : (∀ s r s', m s = (r, s') → log s' = log s) → quiet m.
Proof. intros H s r s' Hm. exists []. split; [apply (H _ _ _ Hm)|constructor]. Qed.

Lemma quiet_ret {A} (a : A) : quiet (mret a : M A).
Proof. apply quiet_same. by intros s r s' [= <- <-]. Qed.

Lemma quiet_raise {A} e : quiet (raise e : M A).
Proof. apply quiet_same. by intros s r s' [= <- <-]. Qed.

Lemma quiet_bind {A B} (m : M A) (k : A → M B) :
  quiet m → (∀ a, quiet (k a)) → quiet (m ≫= k).
Proof.
  intros Hm Hk s r s' H. apply bind_inv in H as [(a & s1 & H1 & H2)|(e & H1 & _)].
  - destruct (Hm _ _ _ H1) as (n1 & E1 & F1). destruct (Hk _ _ _ _ H2) as (n2 & E2 & F2).
    exists (n2 ++ n1)%list. split; [|by apply Forall_app].
    unfold emitted in *. by rewrite E2, E1, app_assoc.
  - eapply Hm; eauto.
Qed.

Lemma quiet_getattr n : quiet (getattr n).
Proof.
  apply quiet_same. intros s r s'. unfold getattr. by destruct (attrs s !! n); intros [= <- <-].
Qed.

Lemma quiet_setattr n v : quiet (setattr n v).
Proof. apply quiet_same. by intros s r s' [= <- <-]. Qed.

Lemma quiet_master_key_of n : quiet (master_key_of n).
Proof.
  apply quiet_same. intros s r s'. unfold master_key_of.
  by destruct (master_key_dict s !! n); intros [= <- <-].
Qed.

Lemma quiet_set_master_key n k : quiet (set_master_key n k).
Proof. apply quiet_same. by intros s r s' [= <- <-]. Qed.

Lemma quiet_cache_get k t : quiet (cache_get k t).
Proof.
  apply quiet_same. intros s r s'. unfold cache_get.
  destruct (calib_dict s !! k) as [entry|]; [destruct (entry !! t)|]; by intros [= <- <-].
Qed.

Lemma quiet_cache_set k t v : quiet (cache_set k t v).
Proof.
  apply quiet_same. intros s r s'. unfold cache_set.
  destruct (calib_dict s !! k) as [entry|]; by intros [= <- <-].
Qed.

Lemma quiet_event e : is_crash e = false → quiet (emit e).
Proof. intros He s r s' [= <- <-]. exists [e]. split; [done|by constructor]. Qed.

Lemma quiet_msgs_info msg : quiet (msgs_info msg).
Proof. by apply quiet_event. Qed.

Lemma quiet_msgs_warn msg : quiet (msgs_warn msg).
Proof. by apply quiet_event. Qed.

Lemma quiet_msgs_error {A} msg : quiet (msgs_error msg : M A).
Proof. apply quiet_bind; [by apply quiet_event|intros; apply quiet_raise]. Qed.

Lemma quiet_subscript d k : quiet (subscript d k).
Proof.
  unfold subscript. destruct d; try apply quiet_raise.
  destruct (list_find _ _) as [[? [? ?]]|]; [apply quiet_ret|apply quiet_raise].
Qed.

Lemma quiet_when b m : quiet m → quiet (when b m).
Proof. destruct b; [done|]. intros _. apply quiet_ret. Qed.

Lemma quiet_if {A} (b : bool) (m1 m2 : M A) : quiet m1 → quiet m2 → quiet (if b then m1 else m2).
Proof. by destruct b. Qed.

Lemma quiet__cached t k : quiet (_cached t k).
Proof.
  intros s r s' H. destruct (calib_dict s !! k) as [entry|] eqn:H1.
  - destruct (entry !! t) as [v|] eqn:H2.
    + rewrite (_cached_hit _ _ _ _ _ H1 H2) in H. injection H as <- <-.
      eexists [_]. split; [done|by constructor].
    + rewrite (_cached_miss _ _ _ _ H1 H2) in H. injection H as <- <-. exists []. by split.
  - rewrite (_cached_new _ _ _ H1) in H. injection H as <- <-. exists []. by split.
Qed.

Lemma quiet__update_cache_loop n pairs : quiet (_update_cache_loop n pairs).
Proof.
  induction pairs as [|[t d] pairs IH]; simpl; [apply quiet_ret|].
  apply quiet_bind; [apply quiet_master_key_of|intros k].
  apply quiet_bind; [apply quiet_cache_set|intros _; apply IH].
Qed.

Lemma quiet__update_cache n t d : quiet (_update_cache n t d).
Proof. apply quiet__update_cache_loop. Qed.

Lemma quiet__chk_set items : quiet (_chk_set items).
Proof.
  induction items as [|n items IH]; simpl; [apply quiet_ret|].
  apply quiet_bind; [apply quiet_getattr|intros v].
  apply quiet_bind; [|intros _; apply IH].
  apply quiet_if; [apply quiet_msgs_error|apply quiet_ret].
Qed.

Lemma quiet__chk_objs items : quiet (_chk_objs items).
Proof.
  induction items as [|n items IH]; simpl; [apply quiet_ret|].
  apply quiet_bind; [apply quiet_getattr|intros v].
  apply quiet_if; [|apply IH].
  apply quiet_bind; [apply quiet_msgs_warn|intros _].
  apply quiet_bind; [apply quiet_msgs_warn|intros _; apply quiet_ret].
Qed.

Variable E : Env.

Lemma quiet_ext callee args :
  String.eqb callee "EdgeTraceSet.auto_trace" = false → quiet (ext E callee args).
Proof.
  intros Hc s r s' [= <- <-]. eexists [_]. split; [done|].
  constructor; [|constructor]. simpl. by destruct (raised_by _).
Qed.

Lemma quiet_representative rows : quiet (representative rows).
Proof. destruct rows; [apply quiet_getattr|apply quiet_ret]. Qed.

End Quiet.

Ltac quiet_solve :=
  lazymatch goal with
  | |- quiet (_ ≫= _) => apply quiet_bind; [quiet_solve | intros ?; quiet_solve]
  | |- quiet (mret _) => apply quiet_ret
  | |- quiet (raise _) => apply quiet_raise
  | |- quiet (getattr _) => apply quiet_getattr
  | |- quiet (setattr _ _) => apply quiet_setattr
  | |- quiet (master_key_of _) => apply quiet_master_key_of
  | |- quiet (set_master_key _ _) => apply quiet_set_master_key
  | |- quiet (cache_get _ _) => apply quiet_cache_get
  | |- quiet (cache_set _ _ _) => apply quiet_cache_set
  | |- quiet (_cached _ _) => apply quiet__cached
  | |- quiet (_update_cache _ _ _) => apply quiet__update_cache
  | |- quiet (_chk_set _) => apply quiet__chk_set
  | |- quiet (_chk_objs _) => apply quiet__chk_objs
  | |- quiet (representative _) => apply quiet_representative
  | |- quiet (subscript _ _) => apply quiet_subscript
  | |- quiet (par_item _) => unfold par_item; quiet_solve
  | |- quiet (par_item2 _ _) => unfold par_item2; quiet_solve
  | |- quiet (msgs_info _) => apply quiet_msgs_info
  | |- quiet (msgs_warn _) => apply quiet_msgs_warn
  | |- quiet (msgs_error _) => apply quiet_msgs_error
  | |- quiet (when _ _) => apply quiet_when; quiet_solve
  | |- quiet (ext _ _ _) => apply quiet_ext; reflexivity
  | |- quiet (SlitTraceSet_to_master _ _) => unfold SlitTraceSet_to_master; quiet_solve
  | |- quiet (SlitTraceSet_from_master _ _ _ _) => unfold SlitTraceSet_from_master; quiet_solve
  | |- quiet (if _ then _ else _) => apply quiet_if; quiet_solve
  | |- quiet (match ?x with _ => _ end) => destruct x; quiet_solve
  end.

Section Durable.
Variable E : Env.

Lemma quiet_durable {A} (m : M A) : quiet m → durable m.
Proof.
  intros Hm s r s' H. destruct (Hm _ _ _ H) as (new & He & Hq). exists new. split; [done|].
  intros later crash earlier -> Hc. apply Forall_app in Hq as [_ Hq].
  apply Forall_cons in Hq as [? _]. congruence.
Qed.

Lemma durable_bind {A B} (m : M A) (k : A → M B) :
  durable m → (∀ a, durable (k a)) → durable (m ≫= k).
Proof.
  intros Hm Hk s r s' H. apply bind_inv in H as [(a & s1 & H1 & H2)|(e & H1 & ->)].
  - destruct (Hm _ _ _ H1) as (n1 & E1 & F1). destruct (Hk _ _ _ _ H2) as (n2 & E2 & F2).
    exists (n2 ++ n1)%list. split; [unfold emitted in *; by rewrite E2, E1, app_assoc|].
    assert (Forall (fun e => is_crash e = false) n1) as Hq.
    { apply Forall_forall. intros x Hx. destruct (is_crash x) eqn:Hc; [|done].
      apply list_elem_of_split in Hx as (l1 & l2 & ->).
      destruct (F1 _ _ _ eq_refl Hc) as (? & [[_ [=]]|(? & _ & [=])]). }
    intros later crash earlier Hnew Hc.
    destruct (split_at_crash _ _ _ _ _ Hc Hq Hnew) as (earlier' & -> & ->).
    apply (F2 _ _ _ eq_refl Hc).
  - destruct (Hm _ _ _ H1) as (n1 & E1 & F1). exists n1. split; [done|].
    intros later crash earlier Hnew Hc. destruct (F1 _ _ _ Hnew Hc) as (edges & [[-> [= ->]]|(e' & -> & [= ->])]).
    + exists edges. by left.
    + exists edges. right. eauto.
Qed.

Lemma durable_when b m : durable m → durable (when b m).
Proof. destruct b; [done|]. intros _. apply quiet_durable, quiet_ret. Qed.

Lemma durable_if {A} (b : bool) (m1 m2 : M A) :
  durable m1 → durable m2 → durable (if b then m1 else m2).
Proof. by destruct b. Qed.

(** The [try] of [get_slits]. *)
Lemma durable_auto_trace :
  durable
    (try_except
       (edges ← getattr "edges";
        image ← getattr "traceImage";
        msbpm ← getattr "msbpm";
        det ← getattr "det";
        save ← getattr "save_masters";
        ext E "EdgeTraceSet.auto_trace" [edges; image; msbpm; det; save] ;;
        mret tt)
       (edges ← getattr "edges";
        ext E "EdgeTraceSet.save" [edges] ;;
        msgs_error crash_msg)).
Proof.
  assert (quiet (edges ← getattr "edges"; ext E "EdgeTraceSet.save" [edges] ;;
                 (msgs_error crash_msg : M unit))) as Hq by quiet_solve.
  apply quiet_durable in Hq. revert Hq.
  set (handler := (edges ← getattr "edges"; ext E "EdgeTraceSet.save" [edges] ;;
                   (msgs_error crash_msg : M unit))).
  intros Hq [A C K Mk L] r s'. unfold try_except.
  cbv beta delta [mbind M_bind bind getattr mret M_ret ret]. cbn [attrs].
  destruct (A !! "edges") as [edges|] eqn:H1; cbv beta iota zeta; cbn [attrs]; [|apply Hq].
  destruct (A !! "traceImage") as [image|]; cbv beta iota zeta; cbn [attrs]; [|apply Hq].
  destruct (A !! "msbpm") as [msbpm|]; cbv beta iota zeta; cbn [attrs]; [|apply Hq].
  destruct (A !! "det") as [det|]; cbv beta iota zeta; cbn [attrs]; [|apply Hq].
  destruct (A !! "save_masters") as [save|]; cbv beta iota zeta; [|apply Hq].
  unfold ext at 1. cbv zeta. cbn [with_log attrs calib_dict master_key_dict slit_masks log].
  destruct (ext_answer E _ "EdgeTraceSet.auto_trace" _) as [v|e]; cbn [raised_by].
  { intros [= <- <-]. eexists [_]. split; [done|]. intros later crash earlier Hl Hc.
    destruct later as [|? [|? ?]]; simplify_eq/=. }
  unfold handler. cbv beta delta [mbind M_bind bind getattr mret M_ret ret].
  cbn [with_log attrs calib_dict master_key_dict slit_masks log].
  rewrite H1. unfold ext at 1. cbv zeta.
  cbn [with_log attrs calib_dict master_key_dict slit_masks log].
  destruct (ext_answer E _ "EdgeTraceSet.save" _) as [v'|e']; cbn [raised_by].
  - unfold msgs_error, emit, modify, raise. cbn [with_log attrs calib_dict master_key_dict slit_masks log].
    intros [= <- <-]. eexists [_; _; _]. split; [done|]. intros later crash earlier Hl Hc.
    exists edges. left. split; [|done].
    destruct later as [|? [|? [|? [|? ?]]]]; simplify_eq/=. done.
  - intros [= <- <-]. eexists [_; _]. split; [done|]. intros later crash earlier Hl Hc.
    exists edges. right. exists e'. split; [|done].
    destruct later as [|? [|? [|? ?]]]; simplify_eq/=. done.
Qed.

End Durable.

Ltac durable_solve :=
  first
    [ apply quiet_durable; quiet_solve
    | lazymatch goal with
      | |- durable (_ ≫= _) => apply durable_bind; [durable_solve | intros ?; durable_solve]
      | |- durable (when _ _) => apply durable_when; durable_solve
      | |- durable (try_except _ _) => apply durable_auto_trace
      | |- durable (if _ then _ else _) => apply durable_if; durable_solve
      end ].

Section Crash.
Variable E : Env.

(** C7. Whatever [get_slits] does, a crash of the automatic edge
    tracing is followed at once by saving the edges traced so far, and
    then by the fatal error: the call ends in an exception (that of
    the failed save, if saving itself fails), and nothing else runs in
    between or afterwards. *)
Theorem crash_saves_then_fatal (redo : bool) (write_qa : value) (s : Calibrations) r s' :
  get_slits E redo write_qa s = (r, s') →
  ∃ new, emitted s s' new ∧ saved_then_fatal new r.
Proof.
  revert s r s'. change (durable (get_slits E redo write_qa)).
  unfold get_slits. durable_solve.
Qed.

End Crash.

Lemma crash_saves_then_fatal_witness :
  let E := demo_env_with demo_rows crashing_answer in
  let s := after E (demo_par "vacuum" (VStr "normalize")) ["bias"; "bpm"] in
  let out := get_slits E false VNone s in
  out.1 = Raise (PypeItError crash_msg)
  ∧ take 3 (log out.2) =
      [Error crash_msg;
       Call "EdgeTraceSet.save" [VObj 5] None;
       Call "EdgeTraceSet.auto_trace" [VObj 5; VObj 6; VImage 13 4 4; VInt 1; VBool true]
         (Some (Raised "EdgeTraceSet.auto_trace"))]
  ∧ ∃ new, emitted s out.2 new ∧ saved_then_fatal new out.1.
Proof.
  intros E s out. split; [by vm_compute|]. split; [by vm_compute|].
  apply (crash_saves_then_fatal E false VNone s out.1 out.2).
  apply surjective_pairing.
Defined.

(** * The mask of the slits accumulates *)

Lemma ior_Some a c r :
  ior a c = Some r → r = mask_or a (broadcast (length a) c) ∧ length r = length a.
Proof.
  unfold ior, mask_or, broadcast. destruct c as [|x [|y c]].
  - destruct (Nat.eqb_spec (length a) (length (@nil bool))) as [H|]; [|done].
    intros [= <-]. by rewrite length_zip_with, H, Nat.min_id.
  - intros [= <-]. split; [|by rewrite length_map].
    induction a as [|b a IH]; simpl; [done|]. by rewrite IH.
  - destruct (Nat.eqb_spec (length a) (length (x :: y :: c))) as [H|]; [|done].
    intros [= <-]. by rewrite length_zip_with, H, Nat.min_id.
Qed.

Lemma mask_or_swap m a b : mask_or (mask_or m a) b = mask_or (mask_or m b) a.
Proof.
  unfold mask_or. revert a b. induction m as [|x m IH]; intros [|y a] [|z b]; simpl; try done.
  rewrite IH. by destruct x, y, z.
Qed.

Lemma covers_mask_or m c : length c = length m → covers (mask_or m c) m.
Proof.
  unfold covers, mask_or. intros Hc. split; [rewrite length_zip_with; lia|].
  intros i Hi. rewrite lookup_zip_with, Hi. simpl.
  destruct (c !! i) as [y|] eqn:Hy; [done|].
  apply lookup_ge_None in Hy. apply lookup_lt_Some in Hi. lia.
Qed.

Section Touches.
Context (W : list string).

Lemma preserves_touches {A} (m : M A) : preserves W m → touches W m.
Proof. intros Hm s r s' H. destruct (Hm _ _ _ H). by split. Qed.

Lemma touches_same {A} (m : M A) :
  (∀ s r s', m s = (r, s') → attrs s' = attrs s ∧ slit_masks s' = slit_masks s) → touches W m.
Proof. intros Hm s r s' H. destruct (Hm _ _ _ H) as [HA HM]. split; [done|]. by rewrite HA. Qed.

Lemma touches_bind {A B} (m : M A) (k : A → M B) :
  touches W m → (∀ a, touches W (k a)) → touches W (m ≫= k).
Proof.
  intros Hm Hk s r s' H. apply bind_inv in H as [(a & s1 & H1 & H2)|(e & H1 & _)].
  - destruct (Hm _ _ _ H1) as [M1 A1]. destruct (Hk _ _ _ _ H2) as [M2 A2].
    split; [congruence|]. intros n Hn. rewrite A2, A1; auto.
  - eapply Hm; eauto.
Qed.

Lemma touches_if {A} (b : bool) (m1 m2 : M A) :
  touches W m1 → touches W m2 → touches W (if b then m1 else m2).
Proof. by destruct b. Qed.

Lemma touches_when b m : touches W m → touches W (when b m).
Proof. destruct b; [done|]. intros _. apply preserves_touches, preserves_ret. Qed.

Lemma touches_set_master_key n k : touches W (set_master_key n k).
Proof. apply touches_same. by intros s r s' [= <- <-]. Qed.

Lemma touches_has_master_key n : touches W (has_master_key n).
Proof. apply touches_same. by intros s r s' [= <- <-]. Qed.

Lemma touches_cache_get k t : touches W (cache_get k t).
Proof.
  apply touches_same. intros s r s'. unfold cache_get.
  destruct (calib_dict s !! k) as [entry|]; [destruct (entry !! t)|]; by intros [= <- <-].
Qed.

Lemma touches_cache_set k t v : touches W (cache_set k t v).
Proof.
  apply touches_same. intros s r s'. unfold cache_set.
  destruct (calib_dict s !! k) as [entry|]; by intros [= <- <-].
Qed.

Lemma touches__cached t k : touches W (_cached t k).
Proof.
  apply touches_same. intros s r s' H. destruct (calib_dict s !! k) as [entry|] eqn:H1.
  - destruct (entry !! t) as [v|] eqn:H2.
    + rewrite (_cached_hit _ _ _ _ _ H1 H2) in H. by injection H as <- <-.
    + rewrite (_cached_miss _ _ _ _ H1 H2) in H. by injection H as <- <-.
  - rewrite (_cached_new _ _ _ H1) in H. by injection H as <- <-.
Qed.

Lemma touches__update_cache n t d : touches W (_update_cache n t d).
Proof.
  unfold _update_cache. generalize (zip (as_tuple t) (as_tuple d)).
  intros pairs. induction pairs as [|[ty v] pairs IH]; simpl.
  - apply preserves_touches, preserves_ret.
  - apply touches_bind; [apply preserves_touches, preserves_master_key_of|intros k].
    apply touches_bind; [apply touches_cache_set|intros _; apply IH].
Qed.

Lemma touches__chk_set items : touches W (_chk_set items).
Proof.
  induction items as [|n items IH]; simpl; [apply preserves_touches, preserves_ret|].
  apply touches_bind; [apply preserves_touches, preserves_getattr|intros v].
  apply touches_bind; [|intros _; apply IH].
  apply preserves_touches, preserves_if; [apply preserves_msgs_error|apply preserves_ret].
Qed.

Lemma touches__chk_objs items : touches W (_chk_objs items).
Proof.
  induction items as [|n items IH]; simpl; [apply preserves_touches, preserves_ret|].
  apply touches_bind; [apply preserves_touches, preserves_getattr|intros v].
  apply touches_if; [|apply IH].
  apply preserves_touches.
  apply preserves_bind; [apply preserves_msgs_warn|intros _].
  apply preserves_bind; [apply preserves_msgs_warn|intros _; apply preserves_ret].
Qed.

Lemma touches_get_wv_calib_checks : touches W get_wv_calib_checks.
Proof.
  unfold get_wv_calib_checks.
  apply touches_bind; [apply touches__chk_objs|intros ?].
  apply touches_bind; [apply preserves_touches; preserves_solve|intros ?].
  apply touches_bind; [apply touches__chk_set|intros ?].
  apply touches_bind; [apply touches_has_master_key|intros ?].
  apply preserves_touches; preserves_solve.
Qed.

End Touches.

Ltac touches_solve :=
  first
    [ apply preserves_touches; preserves_solve
    | lazymatch goal with
      | |- touches _ (_ ≫= _) => apply touches_bind; [touches_solve | intros ?; touches_solve]
      | |- touches _ (set_master_key _ _) => apply touches_set_master_key
      | |- touches _ (has_master_key _) => apply touches_has_master_key
      | |- touches _ (cache_get _ _) => apply touches_cache_get
      | |- touches _ (cache_set _ _ _) => apply touches_cache_set
      | |- touches _ (_cached _ _) => apply touches__cached
      | |- touches _ (_update_cache _ _ _) => apply touches__update_cache
      | |- touches _ (_chk_set _) => apply touches__chk_set
      | |- touches _ (_chk_objs _) => apply touches__chk_objs
      | |- touches _ get_wv_calib_checks => apply touches_get_wv_calib_checks
      | |- touches _ (when _ _) => apply touches_when; touches_solve
      | |- touches _ (if _ then _ else _) => apply touches_if; touches_solve
      | |- touches _ (let '(_, _) := ?p in _) => destruct p; touches_solve
      | |- touches _ (match ?x with _ => _ end) => destruct x; touches_solve
      end ].

Section Merges.
Context (name : string) (W : list string).
Hypothesis W_slits : written W "slits" = false.

Lemma merges_raise {A} e : merges name (raise e : M A).
Proof. by intros s a s' [= ]. Qed.

(** What comes before the merge leaves the slits alone. *)
Lemma merges_after {A B} (m : M A) (k : A → M B) :
  touches W m → (∀ a, merges name (k a)) → merges name (m ≫= k).
Proof.
  intros Hm Hk s b s' H. apply bind_inv_Ok in H as (a & s1 & H1 & H2).
  destruct (Hm _ _ _ H1) as [M1 A1]. destruct (Hk _ _ _ _ H2) as (HS & m0 & c & m1 & Hm0 & Hc & Hi & Hm1).
  split; [rewrite HS; by apply A1|]. exists m0, c, m1. split; [|done].
  revert Hm0. unfold slit_mask, mask_of. rewrite (A1 "slits" W_slits). by rewrite M1.
Qed.

Lemma merges_if {A} (b : bool) (m1 m2 : M A) :
  merges name m1 → merges name m2 → merges name (if b then m1 else m2).
Proof. by destruct b. Qed.

Hypothesis W_name : written W name = false.

(** The merge itself, and what comes after it. *)
Lemma merges_here {A} (tail : M A) :
  touches W tail →
  merges name (contribution ← getattr name; slits_mask_ior contribution ;; tail).
Proof.
  intros Ht s a s' H.
  apply bind_inv_Ok in H as (cv & s1 & H1 & H). apply getattr_inv in H1 as [Hc ->].
  apply bind_inv_Ok in H as (u & s1 & H1 & H).
  unfold slits_mask_ior in H1.
  apply bind_inv_Ok in H1 as (sl & s2 & H2 & H1). apply getattr_inv in H2 as [Hs ->].
  apply bind_inv_Ok in H1 as (mask & s2 & H2 & H1).
  destruct sl as [| | | | | | | | | | | | |o nslits mask0]; try done.
  injection H2 as <- <-.
  destruct cv as [| | | | | | | | |c| | | |]; try done.
  destruct (ior _ c) as [m1|] eqn:Hi; [|done]. injection H1 as <- <-.
  destruct (Ht _ _ _ H) as [M1 A1]. st_cbn M1. st_cbn A1.
  rewrite (A1 "slits" W_slits).
  split; [done|]. exists (default mask0 (slit_masks s !! o)), c, m1.
  unfold slit_mask, contribution, mask_of.
  rewrite (A1 "slits" W_slits), (A1 name W_name), M1.
  rewrite Hs, Hc, lookup_insert_eq. done.
Qed.

End Merges.

Ltac merges_solve Wpre Wpost :=
  first
    [ apply (merges_here _ Wpost); [reflexivity | reflexivity | touches_solve]
    | lazymatch goal with
      | |- merges _ (_ ≫= _) =>
          apply (merges_after _ Wpre); [reflexivity | touches_solve | intros ?; merges_solve Wpre Wpost]
      | |- merges _ (if _ then _ else _) => apply merges_if; merges_solve Wpre Wpost
      | |- merges _ (raise _) => apply merges_raise
      | |- merges _ (let '(_, _) := ?p in _) => destruct p; merges_solve Wpre Wpost
      end ].

Section Accumulate.
Variable E : Env.

Lemma get_wv_calib_merges : merges "wv_maskslits" (get_wv_calib E).
Proof.
  unfold get_wv_calib.
  merges_solve ["wv_calib"; "wv_maskslits"; "arc_files"; "waveCalib"] (@nil string).
Qed.

Lemma get_tilts_merges : merges "wt_maskslits" (get_tilts E).
Proof.
  unfold get_tilts.
  merges_solve ["tilts_dict"; "wt_maskslits"; "waveTilts"] (@nil string).
Qed.

Lemma merge_masks (m0 c m1 : list bool) :
  ior m0 c = Some m1 →
  m1 = mask_or m0 (broadcast (length m0) c)
  ∧ length m1 = length m0 ∧ length (broadcast (length m0) c) = length m0.
Proof.
  intros H. destruct (ior_Some _ _ _ H) as [-> Hl]. split; [done|]. split; [done|].
  revert H. unfold ior, broadcast. destruct c as [|x [|y c]].
  - by destruct (Nat.eqb_spec (length m0) (length (@nil bool))).
  - by rewrite length_replicate.
  - by destruct (Nat.eqb_spec (length m0) (length (x :: y :: c))).
Qed.

(** C9. After [get_wv_calib] and then [get_tilts], the mask of the
    slits (still the same object) is the mask from before or-ed with
    the contributions of both getters; it covers the mask after
    [get_wv_calib] alone.  If the getters also run in the other order
    from the same state and contribute the same masks, the mask after
    [get_tilts] alone is covered too, and the final mask is the same. *)
Theorem mask_accumulates (s : Calibrations) a1 s1 a2 s12 :
  get_wv_calib E s = (Ok a1, s1) →
  get_tilts E s1 = (Ok a2, s12) →
  ∃ m0 cw ct,
    slit_mask s = Some m0
    ∧ contribution s1 "wv_maskslits" = Some cw
    ∧ contribution s12 "wt_maskslits" = Some ct
    ∧ attrs s12 !! "slits" = attrs s !! "slits"
    ∧ let wv := broadcast (length m0) cw in
      let wt := broadcast (length m0) ct in
      let all := mask_or (mask_or m0 wv) wt in
      slit_mask s12 = Some all
      ∧ slit_mask s1 = Some (mask_or m0 wv)
      ∧ covers all (mask_or m0 wv)
      ∧ ∀ b1 s2 b2 s21,
          get_tilts E s = (Ok b1, s2) →
          get_wv_calib E s2 = (Ok b2, s21) →
          contribution s2 "wt_maskslits" = Some ct →
          contribution s21 "wv_maskslits" = Some cw →
          slit_mask s2 = Some (mask_or m0 wt)
          ∧ covers all (mask_or m0 wt)
          ∧ slit_mask s21 = Some all.
Proof.
  intros H1 H2.
  destruct (get_wv_calib_merges _ _ _ H1) as (S1 & m0 & cw & m1 & Hm0 & Hcw & Hi1 & Hm1).
  destruct (get_tilts_merges _ _ _ H2) as (S2 & m1' & ct & m2 & Hm1' & Hct & Hi2 & Hm2).
  assert (m1' = m1) as -> by congruence.
  apply merge_masks in Hi1 as (-> & L1 & Lw). apply merge_masks in Hi2 as (-> & L2 & Lt).
  rewrite L1 in *.
  exists m0, cw, ct. split; [done|]. split; [done|]. split; [done|].
  split; [congruence|]. cbv zeta.
  split; [done|]. split; [done|].
  split; [apply covers_mask_or; by rewrite Lt, L1|].
  intros b1 s2 b2 s21 H3 H4 Hct' Hcw'.
  destruct (get_tilts_merges _ _ _ H3) as (S3 & m0' & ct' & m3 & Hm0' & Hct'' & Hi3 & Hm3).
  destruct (get_wv_calib_merges _ _ _ H4) as (S4 & m3' & cw' & m4 & Hm3' & Hcw'' & Hi4 & Hm4).
  assert (m0' = m0) as -> by congruence. assert (ct' = ct) as -> by congruence.
  assert (m3' = m3) as -> by congruence. assert (cw' = cw) as -> by congruence.
  apply merge_masks in Hi3 as (-> & L3 & _). apply merge_masks in Hi4 as (-> & L4 & _).
  rewrite L3 in *.
  split; [done|].
  split; [rewrite mask_or_swap; apply covers_mask_or; by rewrite Lw, L3|].
  by rewrite mask_or_swap.
Qed.

End Accumulate.

Lemma mask_accumulates_witness :
  let E := demo_env in
  let s := with_attrs <["slits" := VSlits 77 2 [false; false]]>
             (after E (demo_par "vacuum" (VStr "normalize")) default_steps) in
  let s1 := (get_wv_calib E s).2 in
  let s12 := (get_tilts E s1).2 in
  (slit_mask s, slit_mask s1, slit_mask s12) = (Some [false; false], Some [true; false], Some [true; true])
  ∧ ∃ m0 cw ct,
      slit_mask s = Some m0
      ∧ contribution s1 "wv_maskslits" = Some cw
      ∧ contribution s12 "wt_maskslits" = Some ct
      ∧ attrs s12 !! "slits" = attrs s !! "slits"
      ∧ let wv := broadcast (length m0) cw in
        let wt := broadcast (length m0) ct in
        let all := mask_or (mask_or m0 wv) wt in
        slit_mask s12 = Some all
        ∧ slit_mask s1 = Some (mask_or m0 wv)
        ∧ covers all (mask_or m0 wv)
        ∧ ∀ b1 s2 b2 s21,
            get_tilts E s = (Ok b1, s2) →
            get_wv_calib E s2 = (Ok b2, s21) →
            contribution s2 "wt_maskslits" = Some ct →
            contribution s21 "wv_maskslits" = Some cw →
            slit_mask s2 = Some (mask_or m0 wt)
            ∧ covers all (mask_or m0 wt)
            ∧ slit_mask s21 = Some all.
Proof.
  intros E s s1 s12. split; [by vm_compute|].
  apply (mask_accumulates E s (VObj 30) s1 (VDict [("tilts", VImage 40 4 4)]) s12).
  - by vm_compute.
  - by vm_compute.
Defined.

(** * Calling a getter twice *)

(** ** No method assigns [maskslits] *)

Section Assigns.
Context (W : list string).

Lemma touches_assigns {A} (m : M A) : touches W m → assigns W m.
Proof. intros Hm s r s' H. by destruct (Hm _ _ _ H). Qed.

Lemma assigns_bind {A B} (m : M A) (k : A → M B) :
  assigns W m → (∀ a, assigns W (k a)) → assigns W (m ≫= k).
Proof.
  intros Hm Hk s r s' H n Hn. apply bind_inv in H as [(a & s1 & H1 & H2)|(e & H1 & _)].
  - rewrite (Hk _ _ _ _ H2 n Hn). by apply (Hm _ _ _ H1).
  - by apply (Hm _ _ _ H1).
Qed.

Lemma assigns_if {A} (b : bool) (m1 m2 : M A) :
  assigns W m1 → assigns W m2 → assigns W (if b then m1 else m2).
Proof. by destruct b. Qed.

Lemma assigns_when b m : assigns W m → assigns W (when b m).
Proof. destruct b; [done|]. by intros _ s r s' [= <- <-]. Qed.

Lemma assigns_modify (f : Calibrations → Calibrations) :
  (∀ s, attrs (f s) = attrs s) → assigns W (modify f).
Proof. intros Hf s r s' [= <- <-] n _. by rewrite Hf. Qed.

Lemma assigns_slits_mask_ior c : assigns W (slits_mask_ior c).
Proof.
  intros s r s' H n _. revert H.
  unfold slits_mask_ior, mbind, M_bind, bind, getattr, slits_mask, modify, raise.
  repeat case_match; intros; by simplify_eq/=.
Qed.

End Assigns.

Ltac assigns_solve :=
  lazymatch goal with
  | |- assigns _ (_ ≫= _) => apply assigns_bind; [assigns_solve | intros ?; assigns_solve]
  | |- assigns _ (slits_mask_ior _) => apply assigns_slits_mask_ior
  | |- assigns _ (modify _) => by apply assigns_modify
  | |- assigns _ (when _ _) => apply assigns_when; assigns_solve
  | |- assigns _ (if _ then _ else _) => apply assigns_if; assigns_solve
  | |- assigns _ (let '(_, _) := ?p in _) => destruct p; assigns_solve
  | |- assigns _ (match ?x with _ => _ end) => destruct x; assigns_solve
  | |- _ => apply touches_assigns; touches_solve
  end.

Section Unassigned.
Variable E : Env.


Lemma set_config_assigns frame det par calib_id rm_cache :
  assigns assigned_names (set_config E frame det par calib_id rm_cache).
Proof.
  unfold set_config, _reset_internals. assigns_solve.
Qed.

Lemma __init___assigns fitstbl par spectrograph caldir qadir save reuse show :
  assigns assigned_names (__init__ E fitstbl par spectrograph caldir qadir save reuse show).
Proof.
  unfold __init__, _reset_internals. assigns_solve.
Qed.

(** [maskslits] is unset when the object is made, and stays so under
    every method. *)
Lemma maskslits_unset_at_first fitstbl par spectrograph caldir qadir save reuse show r s :
  __init__ E fitstbl par spectrograph caldir qadir save reuse show new_object = (r, s) →
  attrs s !! "maskslits" = None.
Proof. intros H. by rewrite (__init___assigns _ _ _ _ _ _ _ _ _ _ _ H). Qed.

Lemma maskslits_unset_set_config frame det par calib_id rm_cache s r s' :
  attrs s !! "maskslits" = None →
  set_config E frame det par calib_id rm_cache s = (r, s') →
  attrs s' !! "maskslits" = None.
Proof. intros Hs H. by rewrite (set_config_assigns _ _ _ _ _ _ _ _ H). Qed.


End Unassigned.

(** ** The second call *)


Section Twice.
Variable E : Env.













End Twice.



(** * What the methods leave alone *)

Section Frames.
Variable E : Env.



Lemma get_step_products step : assigns product_names (get_step E step).
Proof.
  unfold get_step, one, both.
  repeat (apply assigns_if; [|]).
  all: try (apply assigns_bind; [|intros ?; assigns_solve]).
  - unfold get_arc. assigns_solve.
  - unfold get_tiltimg. assigns_solve.
  - unfold get_bias. assigns_solve.
  - unfold get_bpm. assigns_solve.
  - unfold get_flats. assigns_solve.
  - unfold get_slits. assigns_solve.
  - unfold get_wave. assigns_solve.
  - unfold get_wv_calib. assigns_solve.
  - unfold get_tilts. assigns_solve.
  - assigns_solve.
Qed.

Lemma run_steps_products steps : assigns product_names (run_steps E steps).
Proof.
  induction steps as [|step steps IH]; simpl.
  - by intros s r s' [= <- <-].
  - apply assigns_bind; [apply get_step_products|intros _; apply IH].
Qed.

(** No getter, and no run of a recipe, assigns what the constructor
    and [set_config] have fixed: the frame, the detector, the
    calibration group, the parameters, the table, the spectrograph,
    the directories and the flags are the same after the run as
    before, however it ends. *)
Theorem recipe_keeps_the_context s r s' :
  run_the_steps E s = (r, s') →
  Forall (fun n => attrs s' !! n = attrs s !! n) context_names.
Proof.
  intros H.
  assert (assigns product_names (run_the_steps E)) as Ha.
  { unfold run_the_steps.
    apply assigns_bind; [assigns_solve|intros steps].
    apply assigns_bind; [|intros ?; assigns_solve].
    destruct steps; try assigns_solve. apply run_steps_products. }
  unfold context_names. repeat constructor; by apply (Ha _ _ _ H).
Qed.

(** The same for one getter called on its own. *)
Theorem getter_keeps_the_context step s r s' :
  get_step E step s = (r, s') →
  Forall (fun n => attrs s' !! n = attrs s !! n) context_names.
Proof.
  intros H. unfold context_names.
  repeat constructor; by apply (get_step_products _ _ _ _ H).
Qed.

End Frames.


Lemma recipe_keeps_the_context_witness :
  let E := demo_env in
  let s := with_attrs <["steps" := VStrs ["bias"; "bpm"]]>
             (configured E (demo_par "vacuum" (VStr "normalize"))) in
  let out := run_the_steps E s in
  out.1 = Ok tt
  ∧ Forall (fun n => attrs out.2 !! n = attrs s !! n) context_names.
Proof.
  intros E s out. split; [by vm_compute|].
  apply (recipe_keeps_the_context E s out.1 out.2), surjective_pairing.
Defined.

Lemma getter_keeps_the_context_witness :
  let E := demo_env in
  let s := configured E (demo_par "vacuum" (VStr "normalize")) in
  let out := get_step E "bias" s in
  out.1 = Ok (One (VImage 12 4 4))
  ∧ Forall (fun n => attrs out.2 !! n = attrs s !! n) context_names.
Proof.
  intros E s out. split; [by vm_compute|].
  apply (getter_keeps_the_context E "bias" s out.1 out.2), surjective_pairing.
Defined.

(** * The cache only grows *)

Lemma grown_refl s : grown s s.
Proof. by repeat split. Qed.

Lemma grown_trans s1 s2 s3 : grown s1 s2 → grown s2 s3 → grown s1 s3.
Proof. intros (A1 & B1 & C1) (A2 & B2 & C2). repeat split; eauto. Qed.

Lemma grown_same s s' :
  calib_dict s' = calib_dict s → master_key_dict s' = master_key_dict s → grown s s'.
Proof. intros HC HK. unfold grown, stored. rewrite HC, HK. by repeat split. Qed.

(** Putting a product under a key that is there, or an empty entry
    under one that is not. *)
Lemma grown_put s K ty v :
  grown s (with_calib_dict
             <[K := match calib_dict s !! K with
                    | Some entry => <[ty := v]> entry
                    | None => ∅
                    end]> s).
Proof.
  unfold grown, stored. cbn. split; [|split; [|done]].
  - intros K' HK'. destruct (decide (K = K')) as [->|]; [by rewrite lookup_insert_eq|].
    by rewrite lookup_insert_ne.
  - intros K' P (entry & v0 & HK' & HP). destruct (decide (K = K')) as [->|].
    + rewrite lookup_insert_eq, HK'. destruct (decide (ty = P)) as [->|].
      * eexists _, v. split; [done|]. apply lookup_insert_eq.
      * eexists _, v0. split; [done|]. by rewrite lookup_insert_ne.
    + exists entry, v0. by rewrite lookup_insert_ne.
Qed.

Section Grows.

Lemma grows_same {A} (m : M A) :
  (∀ s r s', m s = (r, s') →
     calib_dict s' = calib_dict s ∧ master_key_dict s' = master_key_dict s) →
  grows m.
Proof. intros Hm s r s' H. destruct (Hm _ _ _ H). by apply grown_same. Qed.

Lemma preserves_grows W {A} (m : M A) : preserves W m → grows m.
Proof. intros Hm. apply grows_same. intros s r s' H. by destruct (Hm _ _ _ H). Qed.

Lemma grows_ret {A} (a : A) : grows (mret a : M A).
Proof. apply grows_same. by intros s r s' [= <- <-]. Qed.

Lemma grows_bind {A B} (m : M A) (k : A → M B) :
  grows m → (∀ a, grows (k a)) → grows (m ≫= k).
Proof.
  intros Hm Hk s r s' H. apply bind_inv in H as [(a & s1 & H1 & H2)|(e & H1 & _)].
  - eapply grown_trans; [by eapply Hm|by eapply Hk].
  - by eapply Hm.
Qed.

Lemma grows_if {A} (b : bool) (m1 m2 : M A) : grows m1 → grows m2 → grows (if b then m1 else m2).
Proof. by destruct b. Qed.

Lemma grows_when b m : grows m → grows (when b m).
Proof. destruct b; [done|]. intros _. apply grows_ret. Qed.

Lemma grows_set_master_key n k : grows (set_master_key n k).
Proof.
  intros s r s' [= <- <-]. unfold grown, stored. cbn. split; [done|]. split; [done|].
  intros n' Hn'. destruct (decide (n = n')) as [->|]; [by rewrite lookup_insert_eq|].
  by rewrite lookup_insert_ne.
Qed.

Lemma grows_cache_set K ty v : grows (cache_set K ty v).
Proof.
  intros s r s'. unfold cache_set. destruct (calib_dict s !! K) as [entry|] eqn:HK.
  - intros [= <- <-]. generalize (grown_put s K ty v). by rewrite HK.
  - intros [= <- <-]. apply grown_refl.
Qed.

Lemma grows__cached ty K : grows (_cached ty K).
Proof.
  intros s r s' H. destruct (calib_dict s !! K) as [entry|] eqn:H1.
  - destruct (entry !! ty) as [v|] eqn:H2.
    + rewrite (_cached_hit _ _ _ _ _ H1 H2) in H. injection H as <- <-. by apply grown_same.
    + rewrite (_cached_miss _ _ _ _ H1 H2) in H. injection H as <- <-.
      generalize (grown_put s K ty (VDict [])). by rewrite H1.
  - rewrite (_cached_new _ _ _ H1) in H. injection H as <- <-.
    generalize (grown_put s K ty VNone). by rewrite H1.
Qed.

Lemma grows__update_cache n t d : grows (_update_cache n t d).
Proof.
  unfold _update_cache. generalize (zip (as_tuple t) (as_tuple d)).
  intros pairs. induction pairs as [|[ty v] pairs IH]; simpl; [apply grows_ret|].
  apply grows_bind; [apply (preserves_grows []), preserves_master_key_of|intros k].
  apply grows_bind; [apply grows_cache_set|intros _; apply IH].
Qed.

Lemma grows_cache_get k t : grows (cache_get k t).
Proof.
  apply grows_same. intros s r s'. unfold cache_get.
  destruct (calib_dict s !! k) as [entry|]; [destruct (entry !! t)|]; by intros [= <- <-].
Qed.

Lemma grows_has_master_key n : grows (has_master_key n).
Proof. apply grows_same. by intros s r s' [= <- <-]. Qed.

Lemma grows__chk_set items : grows (_chk_set items).
Proof.
  induction items as [|n items IH]; simpl; [apply grows_ret|].
  apply grows_bind; [apply (preserves_grows []), preserves_getattr|intros v].
  apply grows_bind; [|intros _; apply IH].
  apply (preserves_grows []), preserves_if; [apply preserves_msgs_error|apply preserves_ret].
Qed.

Lemma grows__chk_objs items : grows (_chk_objs items).
Proof.
  induction items as [|n items IH]; simpl; [apply grows_ret|].
  apply grows_bind; [apply (preserves_grows []), preserves_getattr|intros v].
  apply grows_if; [|apply IH].
  apply (preserves_grows []).
  apply preserves_bind; [apply preserves_msgs_warn|intros _].
  apply preserves_bind; [apply preserves_msgs_warn|intros _; apply preserves_ret].
Qed.

Lemma grows_slits_mask_ior c : grows (slits_mask_ior c).
Proof.
  apply grows_same. intros s r s'.
  unfold slits_mask_ior, mbind, M_bind, bind, getattr, slits_mask, modify, raise.
  repeat case_match; intros; by simplify_eq/=.
Qed.

End Grows.

Ltac grows_solve :=
  lazymatch goal with
  | |- grows (_ ≫= _) => apply grows_bind; [grows_solve | intros ?; grows_solve]
  | |- grows (set_master_key _ _) => apply grows_set_master_key
  | |- grows (cache_set _ _ _) => apply grows_cache_set
  | |- grows (cache_get _ _) => apply grows_cache_get
  | |- grows (_cached _ _) => apply grows__cached
  | |- grows (_update_cache _ _ _) => apply grows__update_cache
  | |- grows (has_master_key _) => apply grows_has_master_key
  | |- grows (_chk_set _) => apply grows__chk_set
  | |- grows (_chk_objs _) => apply grows__chk_objs
  | |- grows get_wv_calib_checks => unfold get_wv_calib_checks; grows_solve
  | |- grows (slits_mask_ior _) => apply grows_slits_mask_ior
  | |- grows (when _ _) => apply grows_when; grows_solve
  | |- grows (if _ then _ else _) => apply grows_if; grows_solve
  | |- grows (let '(_, _) := ?p in _) => destruct p; grows_solve
  | |- grows (match ?x with _ => _ end) => destruct x; grows_solve
  | |- _ => apply (preserves_grows assigned_names); preserves_solve
  end.

Section Monotone.
Variable E : Env.

Lemma get_step_grows step : grows (get_step E step).
Proof.
  unfold get_step, one, both.
  repeat (apply grows_if; [|]).
  all: try (apply grows_bind; [|intros ?; grows_solve]).
  - unfold get_arc. grows_solve.
  - unfold get_tiltimg. grows_solve.
  - unfold get_bias. grows_solve.
  - unfold get_bpm. grows_solve.
  - unfold get_flats. grows_solve.
  - unfold get_slits. grows_solve.
  - unfold get_wave. grows_solve.
  - unfold get_wv_calib. grows_solve.
  - unfold get_tilts. grows_solve.
  - grows_solve.
Qed.

(** No getter takes anything out of the cache or of the key table:
    whatever a recipe does and however it ends, every key of the
    cache, every product stored under a key and every entry of the
    key table is still there afterwards (the stored object may have
    been replaced). *)
Theorem recipe_only_adds_to_the_cache (steps : list string) s r s' :
  run_steps E steps s = (r, s') →
  (∀ K, is_Some (calib_dict s !! K) → is_Some (calib_dict s' !! K))
  ∧ (∀ K P, stored s K P → stored s' K P)
  ∧ (∀ n, is_Some (master_key_dict s !! n) → is_Some (master_key_dict s' !! n)).
Proof.
  revert s r s'. change (grows (run_steps E steps)).
  induction steps as [|step steps IH]; simpl; [apply grows_ret|].
  apply grows_bind; [apply get_step_grows|intros _; apply IH].
Qed.

End Monotone.

Lemma recipe_only_adds_to_the_cache_witness :
  let E := demo_env in
  let s := after E (demo_par "vacuum" (VStr "normalize")) ["bias"] in
  let out := run_steps E ["bpm"; "arc"] s in
  stored s "A_1_1" "bias"
  ∧ out.1 = Ok tt
  ∧ (∀ K, is_Some (calib_dict s !! K) → is_Some (calib_dict out.2 !! K))
  ∧ (∀ K P, stored s K P → stored out.2 K P)
  ∧ (∀ n, is_Some (master_key_dict s !! n) → is_Some (master_key_dict out.2 !! n)).
Proof.
  intros E s out.
  split; [eexists _, _; split; by vm_compute|]. split; [by vm_compute|].
  apply (recipe_only_adds_to_the_cache E ["bpm"; "arc"] s out.1 out.2), surjective_pairing.
Defined.

(** * Putting into the cache *)

Lemma _update_cache_loop_puts name K pairs : ∀ entry s,
  master_key_dict s !! name = Some K → calib_dict s !! K = Some entry →
  _update_cache_loop name pairs s
  = (Ok tt, with_calib_dict <[K := put_all entry pairs]> s).
Proof.
  induction pairs as [|[ty v] pairs IH]; intros entry s HK HC; simpl.
  - destruct s as [A C Ks Mk L]. st_cbn_all. unfold put_all, with_calib_dict.
    cbn [foldl]. st_cbn_goal. by rewrite insert_id.
  - rewrite (bind_Ok _ _ _ _ _ (master_key_of_Ok _ _ _ HK)).
    rewrite (bind_Ok _ _ _ _ _ (cache_set_Ok _ ty v _ _ HC)).
    rewrite (IH (<[ty := v]> entry)); [|done|st_cbn_goal; apply lookup_insert_eq].
    destruct s as [A C Ks Mk L]. unfold with_calib_dict. st_cbn_goal.
    by rewrite insert_insert_eq.
Qed.

(** [_update_cache] under a registered key stores the types zipped
    with the data, one after the other, in the entry of the key: a
    type named twice keeps the later object, and what one tuple has
    beyond the length of the other is dropped without a word.  A
    single type given with a tuple of data stores the first object
    only. *)
Theorem update_cache_stores (name : string) tys ds (K : string) entry s :
  master_key_dict s !! name = Some K →
  calib_dict s !! K = Some entry →
  _update_cache name tys ds s
  = (Ok tt, with_calib_dict <[K := put_all entry (zip (as_tuple tys) (as_tuple ds))]> s).
Proof. intros HK HC. by apply _update_cache_loop_puts. Qed.

(** Where it cannot store, [_update_cache] raises [KeyError] and
    changes nothing: on the name, when the key table does not have
    it, on the key, when the cache does not.  With nothing to store
    (an empty tuple of types or of data) it returns at once, whatever
    the name is. *)
Theorem update_cache_key_errors (name : string) tys ds s :
  (zip (as_tuple tys) (as_tuple ds) = [] → _update_cache name tys ds s = (Ok tt, s))
  ∧ (zip (as_tuple tys) (as_tuple ds) ≠ [] →
     (master_key_dict s !! name = None →
      _update_cache name tys ds s = (Raise (KeyError name), s))
     ∧ (∀ K, master_key_dict s !! name = Some K → calib_dict s !! K = None →
        _update_cache name tys ds s = (Raise (KeyError K), s))).
Proof.
  unfold _update_cache. cbv zeta. destruct (zip _ _) as [|[ty v] pairs]; simpl.
  - split; [done|]. by intros [].
  - split; [done|]. intros _. split.
    + intros HK. unfold mbind, M_bind, bind, master_key_of. by rewrite HK.
    + intros K HK HC. rewrite (bind_Ok _ _ _ _ _ (master_key_of_Ok _ _ _ HK)).
      unfold mbind, M_bind, bind, cache_set. by rewrite HC.
Qed.

Lemma update_cache_stores_witness :
  let s := mkCalibrations ∅ {["A_1_4" := {["pixelflat" := VDict []]}]} {["flat" := "A_1_4"]} ∅ [] in
  let tys := Many ["pixelflat"; "illumflat"; "pixelflat"; "wave"] in
  let ds := Many [VInt 1; VInt 2; VInt 3] in
  ∃ s', _update_cache "flat" tys ds s = (Ok tt, s')
        ∧ cache_get "A_1_4" "pixelflat" s' = (Ok (VInt 3), s')
        ∧ cache_get "A_1_4" "illumflat" s' = (Ok (VInt 2), s')
        ∧ cache_get "A_1_4" "wave" s' = (Raise (KeyError "wave"), s').
Proof.
  intros s tys ds. eexists. split.
  - apply (update_cache_stores "flat" tys ds "A_1_4" {["pixelflat" := VDict []]} s);
      by vm_compute.
  - by vm_compute.
Defined.

Lemma update_cache_key_errors_witness :
  let s := mkCalibrations ∅ ∅ {["arc" := "A_1_3"]} ∅ [] in
  _update_cache "bias" (Many []) (One VNone) s = (Ok tt, s)
  ∧ _update_cache "bias" (One "bias") (One VNone) s = (Raise (KeyError "bias"), s)
  ∧ _update_cache "arc" (One "arc") (One VNone) s = (Raise (KeyError "A_1_3"), s).
Proof.
  intros s. split; [|split].
  - by apply (update_cache_key_errors "bias" (Many []) (One VNone) s).
  - destruct (update_cache_key_errors "bias" (One "bias") (One VNone) s) as [_ H].
    destruct H as [H _]; [done|]. apply H. by vm_compute.
  - destruct (update_cache_key_errors "arc" (One "arc") (One VNone) s) as [_ H].
    destruct H as [_ H]; [done|]. apply H; by vm_compute.
Defined.

(** * The checks *)

Lemma _chk_set_at (pre : list string) (n : string) (post : list string) s :
  all_set s pre = true →
  (attrs s !! n = Some VNone →
   _chk_set (pre ++ n :: post) s
   = (Raise (PypeItError (unset_msg n)), with_log (cons (Error (unset_msg n))) s))
  ∧ (attrs s !! n = None →
     _chk_set (pre ++ n :: post) s = (Raise (AttributeError n), s)).
Proof.
  induction pre as [|m pre IH]; intros Hpre.
  - split; intros Hn; cbn [app _chk_set].
    + by rewrite (bind_Ok _ _ _ _ _ (getattr_Ok _ _ _ Hn)).
    + apply bind_Raise. unfold getattr. by rewrite Hn.
  - apply all_set_cons in Hpre as [(v & Hv & Hnone) Hpre].
    destruct (IH Hpre) as [IH1 IH2]. cbn [app _chk_set].
    rewrite (bind_Ok _ _ _ _ _ (getattr_Ok _ _ _ Hv)), Hnone.
    rewrite (bind_Ok _ _ _ _ _ (mret_Ok tt s)). done.
Qed.

Lemma _chk_objs_at (pre : list string) (n : string) (post : list string) s :
  all_set s pre = true →
  (attrs s !! n = Some VNone →
   _chk_objs (pre ++ n :: post) s = (Ok false, with_log (app (missing_warnings n)) s))
  ∧ (attrs s !! n = None →
     _chk_objs (pre ++ n :: post) s = (Raise (AttributeError n), s)).
Proof.
  induction pre as [|m pre IH]; intros Hpre.
  - split; intros Hn; cbn [app _chk_objs].
    + rewrite (bind_Ok _ _ _ _ _ (getattr_Ok _ _ _ Hn)). by destruct s.
    + apply bind_Raise. unfold getattr. by rewrite Hn.
  - apply all_set_cons in Hpre as [(v & Hv & Hnone) Hpre].
    destruct (IH Hpre) as [IH1 IH2]. cbn [app _chk_objs].
    rewrite (bind_Ok _ _ _ _ _ (getattr_Ok _ _ _ Hv)), Hnone. done.
Qed.

(** [_chk_set] stops at the first listed attribute that is None: it
    reports it by name and raises; the attributes listed after it are
    not looked at.  An attribute that was never assigned ends the
    check in [AttributeError] instead. *)
Theorem chk_set_stops_at_first_unset (pre : list string) (n : string) (post : list string) s :
  all_set s pre = true →
  (attrs s !! n = Some VNone →
   _chk_set (pre ++ n :: post) s
   = (Raise (PypeItError (unset_msg n)), with_log (cons (Error (unset_msg n))) s))
  ∧ (attrs s !! n = None →
     _chk_set (pre ++ n :: post) s = (Raise (AttributeError n), s)).
Proof. apply _chk_set_at. Qed.

(** [_chk_objs] never raises for an object that is None: at the
    first one it warns twice, naming the attribute and the getter to
    call (the name without a leading "ms"), and answers False.  Only
    an attribute that was never assigned ends it in
    [AttributeError]. *)
Theorem chk_objs_stops_at_first_missing (pre : list string) (n : string) (post : list string) s :
  all_set s pre = true →
  (attrs s !! n = Some VNone →
   _chk_objs (pre ++ n :: post) s = (Ok false, with_log (app (missing_warnings n)) s))
  ∧ (attrs s !! n = None →
     _chk_objs (pre ++ n :: post) s = (Raise (AttributeError n), s)).
Proof. apply _chk_objs_at. Qed.

Lemma chk_set_stops_at_first_unset_witness :
  let s := configured demo_env (demo_par "vacuum" (VStr "normalize")) in
  let s0 := constructed demo_env (demo_par "vacuum" (VStr "normalize")) in
  _chk_set ["par"; "det"] s = (Ok tt, s)
  ∧ _chk_set ["par"; "det"; "calib_ID"] s0
    = (Raise (PypeItError (unset_msg "det")), with_log (cons (Error (unset_msg "det"))) s0)
  ∧ _chk_set ["par"; "mstilt"; "det"] s = (Raise (AttributeError "mstilt"), s).
Proof.
  intros s s0. split; [by vm_compute|]. split.
  - by apply (chk_set_stops_at_first_unset ["par"] "det" ["calib_ID"] s0).
  - by apply (chk_set_stops_at_first_unset ["par"] "mstilt" ["det"] s).
Defined.

Lemma chk_objs_stops_at_first_missing_witness :
  let E := demo_env in
  let s := after E (demo_par "vacuum" (VStr "normalize")) ["bias"; "bpm"] in
  _chk_objs ["msbias"; "msbpm"; "msarc"; "slits"] s
  = (Ok false, with_log (app [Warn "Use get_arc";
                              Warn "You need to generate msarc prior to this calibration.."]) s)
  ∧ _chk_objs ["msbias"; "wv_calib"] s = (Raise (AttributeError "wv_calib"), s).
Proof.
  intros E s. split.
  - by apply (chk_objs_stops_at_first_missing ["msbias"; "msbpm"] "msarc" ["slits"] s).
  - by apply (chk_objs_stops_at_first_missing ["msbias"] "wv_calib" [] s).
Defined.

(** * Running a recipe *)

Section Recipe.
Variable E : Env.

Lemma run_steps_app (l1 l2 : list string) s :
  run_steps E (l1 ++ l2) s = (run_steps E l1 ≫= fun _ => run_steps E l2) s.
Proof.
  revert s. induction l1 as [|step l1 IH]; intros s; [done|].
  cbn [app run_steps]. unfold mbind, M_bind, bind.
  destruct (get_step E step s) as [[a|e] s1]; [|done]. apply IH.
Qed.

Lemma get_step_unknown (step : string) s :
  Forall (fun n => step ≠ n) default_steps →
  get_step E step s = (Raise (AttributeError ("get_" ++ step)), s).
Proof.
  unfold default_steps. intros H. unfold get_step.
  repeat (apply Forall_cons in H as [? H]).
  repeat (lazymatch goal with
          | |- context [String.eqb step ?x] =>
              destruct (String.eqb_spec step x); [congruence|]
          end).
  done.
Qed.

(** [run_the_steps] runs the getters of the recipe in order and
    stops at the first one that raises: the exception of that getter
    is the outcome, the object is left as that getter left it, the
    steps after it are not run and the closing message is not written.
    When every step returns, the last thing written is "Calibration
    complete!".  A step that names no getter raises [AttributeError]
    when its turn comes, not before. *)
Theorem recipe_stops_at_first_failure (pre : list string) (step : string) (post : list string)
    s s1 e s2 :
  attrs s !! "steps" = Some (VStrs (pre ++ step :: post)) →
  run_steps E pre s = (Ok tt, s1) →
  (get_step E step s1 = (Raise e, s2) → run_the_steps E s = (Raise e, s2))
  ∧ (Forall (fun n => step ≠ n) default_steps →
     run_the_steps E s = (Raise (AttributeError ("get_" ++ step)), s1))
  ∧ (∀ s3, run_steps E (step :: post) s1 = (Ok tt, s3) →
     run_the_steps E s = (Ok tt, with_log (cons (Info "Calibration complete!")) s3)).
Proof.
  intros Hsteps Hpre.
  assert (∀ r s', run_steps E (step :: post) s1 = (r, s') →
          run_steps E (pre ++ step :: post) s = (r, s')) as Hrun.
  { intros r s' H. by rewrite run_steps_app, (bind_Ok _ _ _ _ _ Hpre). }
  assert (∀ e' s', get_step E step s1 = (Raise e', s') →
          run_the_steps E s = (Raise e', s')) as Hfail.
  { intros e' s' H. unfold run_the_steps.
    rewrite (bind_Ok _ _ _ _ _ (getattr_Ok _ _ _ Hsteps)).
    apply bind_Raise, Hrun. cbn [run_steps]. by apply bind_Raise. }
  split; [apply Hfail|]. split.
  - intros Hn. apply Hfail. by apply get_step_unknown.
  - intros s3 H. unfold run_the_steps.
    rewrite (bind_Ok _ _ _ _ _ (getattr_Ok _ _ _ Hsteps)).
    by rewrite (bind_Ok _ _ _ _ _ (Hrun _ _ H)).
Qed.

End Recipe.

Lemma recipe_stops_at_first_failure_witness :
  let E := demo_env in
  let s := with_attrs <["steps" := VStrs ["bias"; "tilt"; "bpm"]]>
             (configured E (demo_par "vacuum" (VStr "normalize"))) in
  let s1 := (run_steps E ["bias"] s).2 in
  run_the_steps E s = (Raise (AttributeError "get_tilt"), s1)
  ∧ attrs s1 !! "msbias" = Some (VImage 12 4 4)
  ∧ attrs s1 !! "msbpm" = Some VNone.
Proof.
  intros E s s1. split; [|split; by vm_compute].
  destruct (recipe_stops_at_first_failure E ["bias"] "tilt" ["bpm"] s s1
              (AttributeError "get_tilt") s1) as (_ & H & _).
  - by vm_compute.
  - by vm_compute.
  - apply H. unfold default_steps. repeat constructor; discriminate.
Defined.

(** * The getters right after a configuration *)

Section Fresh.
Variable E : Env.

(** What [set_config] leaves when it returns: the scratch attributes
    are None, and what it does not assign is as before. *)
Lemma set_config_returns frame det par calib_id rm_cache s0 s :
  set_config E frame det par calib_id rm_cache s0 = (Ok tt, s) →
  Forall (fun n => attrs s !! n = Some VNone) scratch_attrs
  ∧ attrs s !! "mstilt" = attrs s0 !! "mstilt".
Proof.
  unfold set_config. intros H.
  apply bind_inv_Ok in H as (u & s1 & H1 & H).
  assert (s1 = s0) as ->.
  { destruct (has_len frame); [by destruct (msgs_error_inv _ _ _ _ H1)|].
    by injection H1 as _ ->. }
  rewrite (bind_Ok _ _ _ _ _ (_reset_internals_Ok _)) in H.
  match type of H with ?m ?s2 = _ =>
    assert (assigns ["frame"; "calib_ID"; "det"; "par"] m) as Ha by assigns_solve;
    pose proof (Ha _ _ _ H) as Hs
  end.
  clear H. destruct s0 as [A C K Mk L]. st_cbn_all. split.
  - unfold scratch_attrs. repeat constructor; (rewrite Hs by done); lookup_solve.
  - rewrite Hs by done. lookup_solve.
Qed.

(** Right after a [set_config], on an object whose [get_tiltimg] has
    never run, the getters that need earlier products do not build:
    [get_wave] warns and returns None, [get_wv_calib] and [get_flats]
    are fatal, and [get_tilts] ends in [AttributeError], because
    neither the constructor nor [_reset_internals] defines [mstilt],
    the first attribute it looks at. *)
Theorem getters_after_set_config frame det par calib_id rm_cache s0 s :
  set_config E frame det par calib_id rm_cache s0 = (Ok tt, s) →
  attrs s0 !! "mstilt" = None →
  get_tilts E s = (Raise (AttributeError "mstilt"), s)
  ∧ (get_wv_calib E s).1 = Raise (PypeItError "dont have all the objects")
  ∧ (get_flats E s).1
    = Raise (PypeItError "Must have the arc, bpm, slits, and wv_calib defined to proceed!")
  ∧ (∃ s', get_wave E s = (Ok VNone, s')
           ∧ emitted s s' (Warn "Use get_tilts_dict"
                           :: Warn "You need to generate tilts_dict prior to this calibration.."
                           :: [])).
Proof.
  intros H Ht. destruct (set_config_returns _ _ _ _ _ _ _ H) as [Hs Hm].
  rewrite Ht in Hm. unfold scratch_attrs in Hs.
  repeat (apply Forall_cons in Hs as [? Hs]). clear Hs H.
  split; [|split; [|split]].
  - unfold get_tilts. apply bind_Raise.
    by apply (_chk_objs_at [] "mstilt" ["msbpm"; "slits"; "wv_calib"] s).
  - unfold get_wv_calib, get_wv_calib_checks.
    rewrite !bind_assoc.
    erewrite bind_Ok by (by apply (_chk_objs_at [] "msarc" ["msbpm"; "slits"] s)).
    cbn [negb]. by repeat mstep.
  - unfold get_flats.
    erewrite bind_Ok by (by apply (_chk_objs_at [] "msarc" ["msbpm"; "slits"; "wv_calib"] s)).
    cbn [negb]. by repeat mstep.
  - unfold get_wave.
    erewrite bind_Ok by (by apply (_chk_objs_at [] "tilts_dict" ["slits"; "wv_calib"] s)).
    cbn [negb]. rewrite (bind_Ok _ _ _ _ _ (setattr_Ok _ _ _)).
    eexists. split; [apply getattr_Ok; cbn; apply lookup_insert_eq|].
    unfold emitted. by destruct s.
Qed.

(** With [bpm_usebias] on, [get_bpm] looks the bias up under the
    key that [get_bias] registers: called before [get_bias] in a
    configuration, with no mask in the cache yet, it ends in
    [KeyError] on "bias"; it has then registered its own key, but
    built nothing. *)
Theorem get_bpm_needs_the_bias_key (s : Calibrations) (par usebias frame det : value) :
  all_set s ["par"; "det"] = true →
  attrs s !! "frame" = Some frame →
  attrs s !! "det" = Some det →
  attrs s !! "par" = Some par →
  item par "bpm_usebias" = Some usebias →
  truthy usebias = true →
  nothing_stored "bpm" (master_key E frame det) s →
  master_key_dict s !! "bias" = None →
  ∃ s', get_bpm E s = (Raise (KeyError "bias"), s')
        ∧ master_key_dict s' !! "bpm" = Some (master_key E frame det)
        ∧ attrs s' = attrs s
        ∧ log s' = log s.
Proof.
  intros Hset Hf Hd Hp Hu Ht Hnone Hb. destruct s as [A C K Mk L]. st_cbn_all.
  unfold get_bpm. repeat mstep.
  assert (∀ {B} (k : string → M B) C',
            (master_key_of "bias" ≫= k)
              (mkCalibrations A C' (<["bpm" := master_key E frame det]> K) Mk L)
            = (Raise (KeyError "bias"),
               mkCalibrations A C' (<["bpm" := master_key E frame det]> K) Mk L)) as Hkey.
  { intros B k C'. apply bind_Raise. unfold master_key_of. st_cbn_goal.
    by rewrite lookup_insert_ne, Hb. }
  destruct (C !! master_key E frame det) as [entry|] eqn:HC.
  - lazymatch goal with
    | |- context [(_cached ?t ?k ≫= ?f) ?s] =>
        rewrite (bind_Ok _ f s _ _ (_cached_miss t k s entry HC (Hnone _ HC)))
    end.
    cbn beta iota. st_cbn_goal. repeat mstep. unfold with_calib_dict. st_cbn_goal.
    rewrite Hkey. eexists. split; [done|]. split; [apply lookup_insert_eq|done].
  - lazymatch goal with
    | |- context [(_cached ?t ?k ≫= ?f) ?s] =>
        rewrite (bind_Ok _ f s _ _ (_cached_new t k s HC))
    end.
    cbn beta iota. st_cbn_goal. repeat mstep. unfold with_calib_dict. st_cbn_goal.
    rewrite Hkey. eexists. split; [done|]. split; [apply lookup_insert_eq|done].
Qed.

End Fresh.

Lemma getters_after_set_config_witness :
  let E := demo_env in
  let s0 := constructed E (demo_par "vacuum" (VStr "normalize")) in
  let s := configured E (demo_par "vacuum" (VStr "normalize")) in
  get_tilts E s = (Raise (AttributeError "mstilt"), s)
  ∧ (get_wv_calib E s).1 = Raise (PypeItError "dont have all the objects")
  ∧ (get_flats E s).1
    = Raise (PypeItError "Must have the arc, bpm, slits, and wv_calib defined to proceed!")
  ∧ (∃ s', get_wave E s = (Ok VNone, s')
           ∧ emitted s s' (Warn "Use get_tilts_dict"
                           :: Warn "You need to generate tilts_dict prior to this calibration.."
                           :: [])).
Proof.
  intros E s0 s.
  apply (getters_after_set_config E (VInt 5) (VInt 1) VNone VNone false s0 s); by vm_compute.
Defined.

Lemma get_bpm_needs_the_bias_key_witness :
  let E := demo_env in
  let par := VDict [("bpm_usebias", VBool true)] in
  let s := with_attrs <["par" := par]> (configured E (demo_par "vacuum" (VStr "normalize"))) in
  ∃ s', get_bpm E s = (Raise (KeyError "bias"), s')
        ∧ master_key_dict s' !! "bpm" = Some (master_key E (VInt 5) (VInt 1))
        ∧ attrs s' = attrs s
        ∧ log s' = log s.
Proof.
  intros E par s.
  apply (get_bpm_needs_the_bias_key E s par (VBool true) (VInt 5) (VInt 1));
    by vm_compute.
Defined.

(** * What a getter leaves behind *)

Ltac held_after W :=
  let H := fresh "H" in
  let A := fresh "A" in let C := fresh "C" in let K := fresh "K" in
  let Mk := fresh "Mk" in let L := fresh "L" in
  lazymatch goal with |- leaves_held _ _ _ _ ?s => destruct s as [A C K Mk L] end;
  st_cbn_all;
  intros ? ? H; unfold held;
  minvs W H; hyp_norm; try congruence; st_cbn_goal;
  (split; [lookup_solve | eexists _, _; split; [lookup_solve | split; [lookup_solve | lookup_solve]]]).

Section Held.
Variable E : Env.

Lemma get_arc_held s : leaves_held "msarc" "arc" "arc" (get_arc E) s.
Proof. unfold get_arc. held_after ["msarc"]. Qed.

Lemma get_tiltimg_held s : leaves_held "mstilt" "tilt" "tiltimg" (get_tiltimg E) s.
Proof. unfold get_tiltimg. held_after ["mstilt"]. Qed.

Lemma get_bias_held s : leaves_held "msbias" "bias" "bias" (get_bias E) s.
Proof. unfold get_bias. held_after ["msbias"]. Qed.

Lemma get_bpm_held s : leaves_held "msbpm" "bpm" "bpm" (get_bpm E) s.
Proof. unfold get_bpm. held_after ["msbpm"; "shape"]. Qed.

Lemma get_wv_calib_held s :
  attrs s !! "maskslits" = None → leaves_held "wv_calib" "arc" "wavecalib" (get_wv_calib E) s.
Proof. intros Hms. unfold get_wv_calib. held_after ["wv_calib"]. Qed.

Lemma get_tilts_held s : leaves_held "tilts_dict" "tilt" "tilts_dict" (get_tilts E) s.
Proof. unfold get_tilts. held_after ["tilts_dict"]. Qed.

(** What [get_arc], [get_tiltimg], [get_bias], [get_bpm],
    [get_wv_calib] and [get_tilts] return is, when they return, the
    object their attribute holds and the object the cache has for
    their product under their key, whether it came from the cache,
    from disk or from a build. *)
Theorem getter_returns_what_it_caches (step attr name ty : string) s r s' :
  product_slot step = Some (attr, name, ty) →
  attrs s !! "maskslits" = None →
  get_step E step s = (Ok r, s') →
  ∃ v, r = One v ∧ held s' attr name ty v.
Proof.
  intros Hslot Hms H. unfold product_slot in Hslot.
  repeat (lazymatch type of Hslot with
          | context [String.eqb step ?x] => destruct (String.eqb_spec step x) as [->|]
          end);
    try discriminate; injection Hslot as <- <- <-.
  - change (one (get_arc E) s = (Ok r, s')) in H.
    apply bind_inv_Ok in H as (v & s1 & H & Hr). apply mret_inv in Hr as [-> ->].
    exists v. split; [done|]. by apply (get_arc_held s).
  - change (one (get_tiltimg E) s = (Ok r, s')) in H.
    apply bind_inv_Ok in H as (v & s1 & H & Hr). apply mret_inv in Hr as [-> ->].
    exists v. split; [done|]. by apply (get_tiltimg_held s).
  - change (one (get_bias E) s = (Ok r, s')) in H.
    apply bind_inv_Ok in H as (v & s1 & H & Hr). apply mret_inv in Hr as [-> ->].
    exists v. split; [done|]. by apply (get_bias_held s).
  - change (one (get_bpm E) s = (Ok r, s')) in H.
    apply bind_inv_Ok in H as (v & s1 & H & Hr). apply mret_inv in Hr as [-> ->].
    exists v. split; [done|]. by apply (get_bpm_held s).
  - change (one (get_wv_calib E) s = (Ok r, s')) in H.
    apply bind_inv_Ok in H as (v & s1 & H & Hr). apply mret_inv in Hr as [-> ->].
    exists v. split; [done|]. by apply (get_wv_calib_held s).
  - change (one (get_tilts E) s = (Ok r, s')) in H.
    apply bind_inv_Ok in H as (v & s1 & H & Hr). apply mret_inv in Hr as [-> ->].
    exists v. split; [done|]. by apply (get_tilts_held s).
Qed.



End Held.

Lemma getter_returns_what_it_caches_witness :
  let E := demo_env in
  let s := after E (demo_par "vacuum" (VStr "normalize")) ["bias"; "bpm"; "arc"; "tiltimg"; "slits"] in
  let s' := (get_step E "wv_calib" s).2 in
  ∃ v, One (VObj 30) = One v ∧ held s' "wv_calib" "arc" "wavecalib" v.
Proof.
  intros E s s'.
  apply (getter_returns_what_it_caches E "wv_calib" "wv_calib" "arc" "wavecalib" s
           (One (VObj 30)) s'); by vm_compute.
Defined.


(** * Construction *)

(** The end of [__init__]: the cache, the configuration and the scratch
    attributes. *)
Ltac init_tail H Hs :=
  lazymatch type of H with
  | ?m ?sk = _ =>
      let Ha := fresh in
      assert (assigns (["det"; "frame"; "steps"; "calib_ID"] ++ scratch_attrs)%list m) as Ha
        by assigns_solve;
      pose proof (Ha _ _ _ H) as Hs; clear Ha H; st_cbn Hs
  end.

Section Construction.
Variable E : Env.

(** An object constructed without a directory for the masters
    neither saves nor reuses them, whatever the caller asked for: the
    constructor, when it returns, has left [save_masters] and
    [reuse_masters] false and [master_dir] None. *)
Theorem no_caldir_no_masters fitstbl par spectrograph qadir save reuse show s0 s :
  __init__ E fitstbl par spectrograph VNone qadir save reuse show s0 = (Ok tt, s) →
  (∃ v, attrs s !! "save_masters" = Some v ∧ truthy v = false)
  ∧ (∃ v, attrs s !! "reuse_masters" = Some v ∧ truthy v = false)
  ∧ attrs s !! "master_dir" = Some VNone.
Proof.
  intros H. unfold __init__, _reset_internals in H. destruct s0 as [A C K Mk L].
  minvs (@nil string) H; hyp_norm; try done.
  all: init_tail H Hs.
  all: split; [eexists; split; [rewrite Hs by done; lookup_solve|done]|].
  all: split; [eexists; split; [rewrite Hs by done; lookup_solve|done]|].
  all: rewrite Hs by done; lookup_solve.
Qed.

(** [MultiSlitCalibrations] does not pass [save_masters] on: an
    object constructed through it with a directory for the masters
    always saves what it builds.  Its steps are the ones given, or the
    default recipe when none are. *)
Theorem multislit_always_saves fitstbl par spectrograph caldir qadir reuse show steps s0 s :
  is_None caldir = false →
  MultiSlitCalibrations E fitstbl par spectrograph caldir qadir reuse show steps s0 = (Ok tt, s) →
  attrs s !! "save_masters" = Some (VBool true)
  ∧ attrs s !! "master_dir" = Some caldir
  ∧ attrs s !! "steps" = Some (VStrs (default default_steps steps)).
Proof.
  intros Hc H. unfold MultiSlitCalibrations, __init__, _reset_internals in H.
  destruct s0 as [A C K Mk L].
  minvs (@nil string) H; hyp_norm; try congruence.
  all: lazymatch goal with Hm : (modify _ ≫= _) _ = _ |- _ => init_tail Hm Hs end.
  all: st_cbn_goal.
  all: split; [rewrite lookup_insert_ne by done; rewrite Hs by done; lookup_solve|].
  all: split; [rewrite lookup_insert_ne by done; rewrite Hs by done; lookup_solve|].
  all: apply lookup_insert_eq.
Qed.

End Construction.

Lemma no_caldir_no_masters_witness :
  let E := demo_env in
  let out := __init__ E (VObj 90) (VObj 95) (VObj 91) VNone VNone (VBool true) (VBool true)
               (VBool false) new_object in
  out.1 = Ok tt
  ∧ take 2 (log out.2)
    = [Warn "To reuse masters, must provide the directory (caldir).  Masters will not be reused!";
       Warn "To save masters, must provide the directory (caldir).  Masters will not be saved!"]
  ∧ (∃ v, attrs out.2 !! "save_masters" = Some v ∧ truthy v = false)
  ∧ (∃ v, attrs out.2 !! "reuse_masters" = Some v ∧ truthy v = false)
  ∧ attrs out.2 !! "master_dir" = Some VNone.
Proof.
  intros E out. split; [by vm_compute|]. split; [by vm_compute|].
  apply (no_caldir_no_masters E (VObj 90) (VObj 95) (VObj 91) VNone (VBool true) (VBool true)
           (VBool false) new_object out.2).
  by vm_compute.
Defined.

Lemma multislit_always_saves_witness :
  let E := demo_env in
  let s := constructed E (demo_par "vacuum" (VStr "normalize")) in
  attrs s !! "save_masters" = Some (VBool true)
  ∧ attrs s !! "master_dir" = Some (VStr "Masters")
  ∧ attrs s !! "steps" = Some (VStrs default_steps).
Proof.
  intros E s.
  apply (multislit_always_saves E (VObj 90) (demo_par "vacuum" (VStr "normalize")) (VObj 91)
           (VStr "Masters") VNone (VBool false) (VBool false) None new_object s);
    by vm_compute.
Defined.

(** * The BINOSPEC spectrograph *)

Section Binospec.
Import MMTBINOSPECSpectrograph.

Lemma lookup_paired {A} (m : list A) i x : m !! i = Some x → paired m i = Some x.
Proof.
  intros H. unfold paired. destruct (Nat.eqb_spec (length m) 1) as [Hl|]; [|done].
  apply lookup_lt_Some in H as Hi. by replace i with 0%nat in H by lia.
Qed.

Lemma np_and_paired a b m i :
  np_and a b = Ok m → paired m i = Some true →
  paired a i = Some true ∧ paired b i = Some true.
Proof.
  unfold np_and. destruct (Nat.eqb_spec (length a) (length b)) as [Hl|Hl].
  - intros [= <-]. unfold paired. rewrite length_zip_with, <- Hl, Nat.min_id.
    intros H. apply lookup_zip_with_Some in H as (x & y & Hxy & Ha & Hb).
    symmetry in Hxy. apply andb_true_iff in Hxy as [-> ->]. done.
  - destruct a as [|x [|x' a]].
    + destruct b as [|y [|y' b]]; try done. by intros [= <-].
    + intros Hm. replace m with (andb x <$> b) by (by injection Hm).
      unfold paired. rewrite length_fmap. cbn [length] in Hl.
      destruct (Nat.eqb_spec (length b) 1); [lia|].
      intros H. apply list_lookup_fmap_Some in H as (y & Hxy & Hy).
      symmetry in Hxy. by apply andb_true_iff in Hxy as [-> ->].
    + destruct b as [|y [|y' b]]; try done. intros Hm.
      replace m with ((fun x0 => x0 && y) <$> (x :: x' :: a)) by (by injection Hm).
      unfold paired. rewrite length_fmap. cbn [length Nat.eqb].
      intros H. apply list_lookup_fmap_Some in H as (x0 & Hxy & Hx).
      symmetry in Hxy. by apply andb_true_iff in Hxy as [-> ->].
Qed.

Lemma and_also_paired a b m i :
  and_also a b = Ok m → paired m i = Some true →
  (∃ a', a = Ok a' ∧ paired a' i = Some true) ∧ paired b i = Some true.
Proof.
  destruct a as [a'|]; [|done]. simpl. intros H Hi.
  destruct (np_and_paired _ _ _ _ H Hi). eauto.
Qed.

Lemma paired_fmap {A} (f : A → bool) (l : list A) i :
  paired (f <$> l) i = Some true → ∃ r, paired l i = Some r ∧ f r = true.
Proof.
  unfold paired. rewrite length_fmap. intros H.
  apply list_lookup_fmap_Some in H as (r & Hf & Hr). eauto.
Qed.

Lemma above_is_not_below (h t : SpecFloat.spec_float) :
  SpecFloat.SFltb h t = true → SpecFloat.SFleb t h = true → False.
Proof.
  unfold SpecFloat.SFltb, SpecFloat.SFleb.
  destruct h as [[]|[]| |[] m1 e1], t as [[]|[]| |[] m2 e2]; try discriminate;
    cbn [SpecFloat.SFcompare];
    rewrite (Z.compare_antisym e1 e2); destruct (e1 ?= e2)%Z; try discriminate; cbn [CompOpp];
    pose proof (Pos.compare_cont_antisym m1 m2 Eq) as HH; cbn [CompOpp] in HH;
    change (CompOpp (PosDef.Pos.compare_cont Eq m1 m2) = PosDef.Pos.compare_cont Eq m2 m1) in HH;
    rewrite <- HH;
    destruct (PosDef.Pos.compare_cont Eq m1 m2); discriminate.
Qed.

Variable check_frame_exptime : list SpecFloat.spec_float → value → res (list bool).

(** What [check_frame_type] selects has passed the exposure check and
    shows the lamps and the exposure time of its type. *)
Lemma check_frame_type_selects ftype fitstbl exprng w m i :
  check_frame_type check_frame_exptime ftype fitstbl exprng = (w, Ok m) →
  m !! i = Some true →
  (∃ good_exp, check_frame_exptime (exptime <$> fitstbl) exprng = Ok good_exp
               ∧ paired good_exp i = Some true)
  ∧ ∃ row, paired fitstbl i = Some row ∧ row_shows ftype row = true.
Proof.
  unfold check_frame_type, row_shows, frame_class, column_is.
  destruct (check_frame_exptime _ _) as [good_exp|]; [|done].
  intros H Hi. apply lookup_paired in Hi.
  repeat (lazymatch type of H with
          | context [String.eqb ftype ?x] => destruct (String.eqb ftype x)
          end; cbn [orb] in H);
    injection H as <- H;
    repeat (lazymatch type of H with
            | and_also _ _ = Ok _ =>
                let H2 := fresh "Hc" in
                apply and_also_paired with (i := i) in H as [(? & H & Hi') H2];
                [clear Hi; rename Hi' into Hi; apply paired_fmap in H2 as (? & ? & ?) | exact Hi]
            end).
  all: try (apply np_and_paired with (i := i) in H as [Hg Hc0]; [|exact Hi];
            apply paired_fmap in Hc0 as (? & ? & ?)).
  all: try (split; [by eauto|]; eexists; split; [eassumption|]; simplify_eq;
            repeat (apply andb_true_iff; split); done).
  simplify_eq. unfold paired in Hi. rewrite length_replicate in Hi.
  by apply lookup_replicate in Hi as [? _].
Qed.

Lemma frame_class_four t n : frame_class t = Some (S (S (S n))) → n = 0%nat.
Proof.
  unfold frame_class.
  repeat (lazymatch goal with
          | |- context [String.eqb t ?x] => destruct (String.eqb t x)
          end; cbn [orb]); congruence.
Qed.

Lemma classes_show_apart t1 t2 row :
  frame_class t1 ≠ frame_class t2 → row_shows t1 row = true → row_shows t2 row = true → False.
Proof.
  unfold row_shows. intros Hne.
  destruct (frame_class t1) as [[|[|[|n1]]]|] eqn:E1,
           (frame_class t2) as [[|[|[|n2]]]|] eqn:E2;
    try done; intros H1 H2;
    repeat (lazymatch goal with
            | H : _ && _ = true |- _ => apply andb_true_iff in H as [? ?]
            end).
  all: try by eapply above_is_not_below.
  all: repeat (lazymatch goal with
               | H : String.eqb _ _ = true |- _ => apply String.eqb_eq in H
               end); try congruence.
  apply frame_class_four in E1 as ->. by apply frame_class_four in E2 as ->.
Qed.

(** A type the spectrograph does not know selects nothing, with a
    warning that names it. *)
Lemma check_frame_type_unknown ftype fitstbl exprng w m :
  frame_class ftype = None →
  check_frame_type check_frame_exptime ftype fitstbl exprng = (w, Ok m) →
  w = [Warn ("Cannot determine if frames are of type " ++ ftype ++ ".")]
  ∧ m = replicate (length fitstbl) false.
Proof.
  unfold check_frame_type, frame_class.
  destruct (check_frame_exptime _ _) as [good_exp|]; [|done].
  repeat (lazymatch goal with
          | |- context [String.eqb ftype ?x] => destruct (String.eqb ftype x)
          end; cbn [orb]); try done.
  by intros _ [= <- <-].
Qed.

(** No frame is selected for two types of different kinds: the
    selections of [check_frame_type] for science, for standard, for
    arc and tilt, and for pixelflat and trace have no frame in
    common, whatever the exposure ranges asked for; and a type the
    spectrograph does not know selects no frame: its selection is
    False for every frame of the table, and the call warns that the
    type cannot be determined. *)
Theorem frame_types_exclude_each_other (t1 t2 : string) fitstbl rng1 rng2 w1 w2 m1 m2 :
  check_frame_type check_frame_exptime t1 fitstbl rng1 = (w1, Ok m1) →
  check_frame_type check_frame_exptime t2 fitstbl rng2 = (w2, Ok m2) →
  (frame_class t1 ≠ frame_class t2 →
   ∀ i, m1 !! i = Some true → m2 !! i = Some true → False)
  ∧ (frame_class t1 = None →
     m1 = replicate (length fitstbl) false
     ∧ w1 = [Warn ("Cannot determine if frames are of type " ++ t1 ++ ".")]
     ∧ ∀ i, m1 !! i ≠ Some true).
Proof.
  intros H1 H2. split.
  - intros Hne i Hi1 Hi2.
    destruct (check_frame_type_selects _ _ _ _ _ _ H1 Hi1) as [_ (r1 & Hr1 & Hs1)].
    destruct (check_frame_type_selects _ _ _ _ _ _ H2 Hi2) as [_ (r2 & Hr2 & Hs2)].
    rewrite Hr1 in Hr2. injection Hr2 as ->. by eapply classes_show_apart.
  - intros Hnone. destruct (check_frame_type_unknown _ _ _ _ _ Hnone H1) as [-> ->].
    split; [done|]. split; [done|]. intros i Hi. by apply lookup_replicate in Hi as [? _].
Qed.

(** A frame [check_frame_type] selects, for whatever type, is one
    the exposure check has passed. *)
Theorem selected_frames_pass_the_exposure_check (ftype : string) fitstbl exprng good_exp w m i :
  check_frame_exptime (exptime <$> fitstbl) exprng = Ok good_exp →
  check_frame_type check_frame_exptime ftype fitstbl exprng = (w, Ok m) →
  m !! i = Some true →
  paired good_exp i = Some true.
Proof.
  intros Hg H Hi.
  destruct (check_frame_type_selects _ _ _ _ _ _ H Hi) as [(g & Hg' & Hgi) _].
  rewrite Hg in Hg'. by injection Hg' as <-.
Qed.

End Binospec.

Lemma frame_types_exclude_each_other_witness :
  let science := MMTBINOSPECSpectrograph.check_frame_type all_good "science" demo_frames VNone in
  let standard := MMTBINOSPECSpectrograph.check_frame_type all_good "standard" demo_frames VNone in
  let bias := MMTBINOSPECSpectrograph.check_frame_type all_good "bias" demo_frames VNone in
  science = ([], Ok [true; false; false])
  ∧ standard = ([], Ok [false; true; false])
  ∧ bias = ([Warn "Cannot determine if frames are of type bias."], Ok [false; false; false])
  ∧ (∀ i, [true; false; false] !! i = Some true → [false; true; false] !! i = Some true → False)
  ∧ ([false; false; false] = replicate (length demo_frames) false
     ∧ [Warn "Cannot determine if frames are of type bias."]
       = [Warn ("Cannot determine if frames are of type " ++ "bias" ++ ".")]
     ∧ ∀ i, [false; false; false] !! i ≠ Some true).
Proof.
  intros science standard bias.
  split; [by vm_compute|]. split; [by vm_compute|]. split; [by vm_compute|]. split.
  - apply (frame_types_exclude_each_other all_good "science" "standard" demo_frames VNone VNone
             [] [] [true; false; false] [false; true; false]); by vm_compute.
  - apply (frame_types_exclude_each_other all_good "bias" "science" demo_frames VNone VNone
             [Warn "Cannot determine if frames are of type bias."] []
             [false; false; false] [true; false; false]); by vm_compute.
Defined.

Lemma selected_frames_pass_the_exposure_check_witness :
  paired [true; true; true] 2 = Some true.
Proof.
  apply (selected_frames_pass_the_exposure_check all_good "arc" demo_frames VNone
           [true; true; true] [] [false; false; true] 2); by vm_compute.
Defined.

(** * The bad-pixel mask of a BINOSPEC *)

Lemma bind_keywords_unknown (k : string) params kwargs : ∀ locals,
  k ∈ kwargs.*1 → k ∉ params →
  ∃ what, MMTBINOSPECSpectrograph.bind_keywords params kwargs locals = Raise (TypeError what).
Proof.
  induction kwargs as [|[k' v] kwargs IH]; intros locals Hin Hnot; [by apply elem_of_nil in Hin|].
  cbn [MMTBINOSPECSpectrograph.bind_keywords].
  destruct (bool_decide (k' ∈ params)) eqn:Hk'; cbn [negb]; [|by eauto].
  destruct (bool_decide (is_Some (locals !! k'))); [by eauto|].
  apply IH; [|done]. cbn [fmap list_fmap fst] in Hin.
  apply elem_of_cons in Hin as [->|]; [|done].
  apply bool_decide_eq_true in Hk'. done.
Qed.

(** [bpm] of the class has no parameter [msbias]: called with that
    keyword it raises [TypeError] before it does anything. *)
Lemma bpm_takes_no_msbias E self args kwargs s :
  "msbias" ∈ kwargs.*1 →
  ∃ what, MMTBINOSPECSpectrograph.bpm E self args kwargs s = (Raise (TypeError what), s).
Proof.
  intros Hin. unfold MMTBINOSPECSpectrograph.bpm, MMTBINOSPECSpectrograph.bind_arguments.
  edestruct (bind_keywords_unknown "msbias") as [what ->]; [exact Hin| |by eauto].
  cbn. intros Hx.
  repeat (apply elem_of_cons in Hx as [Hx|Hx]; [discriminate|]). by apply elem_of_nil in Hx.
Qed.

(** One step of a run that is known to return, on a spectrograph whose
    [bpm] cannot. *)
Ltac minv_no_bpm Hno H :=
  lazymatch type of H with
  | (_ ≫= _) _ = (Ok _, _) =>
      let a := fresh "a" in let s1 := fresh "s" in let Hm := fresh "Hm" in
      apply bind_inv_Ok in H as (a & s1 & Hm & H);
      first [ lazymatch type of Hm with
              | ext _ _ _ _ = _ =>
                  apply ext_inv in Hm as [Hm _]; exfalso; exact (Hno _ _ _ _ _ _ Hm)
              end
            | progress (minv_prim (@nil string) Hm)
            | minv_if (@nil string) Hm
            | minv_bind (@nil string) Hm ];
      cbn beta in H; st_cbn H
  | _ => progress (minv_prim (@nil string) H)
  end.

Section BinospecMask.
Variable E : Env.

(** On a BINOSPEC, [get_bpm] never builds a mask: it passes the
    bias to [bpm] as [msbias], which [bpm] of the class does not
    take.  When [get_bpm] returns, what it returns was in the cache
    before the call, under the key of the frame, and all the call
    has added to the log is the report of the hit. *)
Theorem binospec_mask_is_never_built s v s' :
  is_binospec E →
  get_bpm E s = (Ok v, s') →
  ∃ K entry msg, master_key_dict s' !! "bpm" = Some K
                 ∧ calib_dict s !! K = Some entry
                 ∧ entry !! "bpm" = Some v
                 ∧ log s' = Info msg :: log s.
Proof.
  intros Hb H.
  assert (∀ s0 self filename det msbias v0,
            ext_answer E s0 "Spectrograph.bpm" [self; filename; det; msbias] = Ok v0 → False)
    as Hno.
  { intros s0 self filename det msbias v0. rewrite Hb.
    edestruct (bpm_takes_no_msbias E self [filename; det] [("msbias", msbias)] s0) as [what ->];
      [cbn; apply elem_of_cons; by left|done]. }
  clear Hb. destruct s as [A C K Mk L]. unfold get_bpm in H.
  repeat (minv_no_bpm Hno H); hyp_norm; st_cbn_goal.
  eexists _, _, _. split; [apply lookup_insert_eq|]. done.
Qed.

End BinospecMask.

Lemma binospec_mask_is_never_built_witness :
  let s := after demo_env (demo_par "vacuum" (VStr "normalize")) ["bpm"] in
  let out := get_bpm binospec_env s in
  out.1 = Ok (VImage 13 4 4)
  ∧ (get_bpm binospec_env (configured demo_env (demo_par "vacuum" (VStr "normalize")))).1
    = Raise (TypeError "unexpected keyword argument 'msbias'")
  ∧ ∃ K entry msg, master_key_dict out.2 !! "bpm" = Some K
                   ∧ calib_dict s !! K = Some entry
                   ∧ entry !! "bpm" = Some (VImage 13 4 4)
                   ∧ log out.2 = Info msg :: log s.
Proof.
  intros s out. split; [by vm_compute|]. split; [by vm_compute|].
  apply (binospec_mask_is_never_built binospec_env s (VImage 13 4 4) out.2).
  - intros s0 self filename det msbias. reflexivity.
  - by vm_compute.
Defined.

(** * The slits before the mask *)

Section SlitsFirst.
Variable E : Env.

(** Without a bad-pixel mask [get_slits] neither raises nor builds:
    once the QA settings have passed, it warns that [msbpm] is
    missing, sets [slits] to None and returns None, whether or not
    the slits are in the cache and whatever [redo] says; it calls no
    collaborator and leaves the cache and the key table alone. *)
Theorem slits_wait_for_the_mask (redo : bool) (write_qa wq qa_path : value) s :
  attrs s !! "msbpm" = Some VNone →
  attrs s !! "write_qa" = Some wq →
  attrs s !! "qa_path" = Some qa_path →
  truthy (if is_None write_qa then wq else write_qa) && is_None qa_path = false →
  get_slits E redo write_qa s
  = (Ok VNone, with_attrs <["slits" := VNone]> (with_log (app (missing_warnings "msbpm")) s)).
Proof.
  intros Hb Hw Hq Hqa. unfold get_slits.
  assert (∀ (k : value → M value) w,
            w = (if is_None write_qa then wq else write_qa) →
            ((if is_None write_qa then getattr "write_qa" else mret write_qa) ≫= k) s = k w s)
    as Hfirst.
  { intros k w ->. destruct (is_None write_qa).
    - by rewrite (bind_Ok _ _ _ _ _ (getattr_Ok _ _ _ Hw)).
    - done. }
  rewrite (Hfirst _ _ eq_refl). clear Hfirst.
  set (w := if is_None write_qa then wq else write_qa) in *.
  assert (∀ (k : bool → M value),
            ((if truthy w then qa_path ← getattr "qa_path"; mret (is_None qa_path)
              else mret false) ≫= k) s = k false s) as Hsecond.
  { intros k. destruct (truthy w).
    - rewrite bind_assoc, (bind_Ok _ _ _ _ _ (getattr_Ok _ _ _ Hq)).
      cbn [andb] in Hqa. by rewrite Hqa.
    - done. }
  rewrite Hsecond. clear Hsecond. rewrite when_false.
  rewrite (bind_Ok _ _ _ _ _ (mret_Ok _ _)).
  destruct (_chk_objs_at [] "msbpm" [] s eq_refl) as [Hchk _].
  rewrite (bind_Ok _ _ _ _ _ (Hchk Hb)). cbn [negb].
  rewrite (bind_Ok _ _ _ _ _ (setattr_Ok _ _ _)).
  apply getattr_Ok. destruct s. cbn. apply lookup_insert_eq.
Qed.

End SlitsFirst.

Lemma slits_wait_for_the_mask_witness :
  let s := configured demo_env (demo_par "vacuum" (VStr "normalize")) in
  get_slits demo_env true VNone s
  = (Ok VNone, with_attrs <["slits" := VNone]> (with_log (app (missing_warnings "msbpm")) s)).
Proof.
  intros s.
  apply (slits_wait_for_the_mask demo_env true VNone (VBool false) VNone s); by vm_compute.
Defined.

(** * What a configuration reports *)

Section ConfigReports.
Variable E : Env.

(** A [set_config] that returns has warned about the calibration
    group exactly when none was given and the entry of the frame in
    the table lists several, naming the frame and the group it took,
    and about the cache exactly when it has emptied it; it has
    reported nothing else. *)
Theorem set_config_warnings frame det par calib_id rm_cache s s' :
  set_config E frame det par calib_id rm_cache s = (Ok tt, s') →
  ∃ group, attrs s' !! "calib_ID" = Some group
           ∧ emitted s s' (config_warnings E frame calib_id rm_cache group).
Proof.
  unfold set_config, emitted, config_warnings.
  destruct (has_len frame).
  { rewrite when_true. by rewrite (bind_Raise _ _ _ _ _ (msgs_error_Raise _ _)). }
  rewrite when_false, (bind_Ok _ _ _ _ _ (mret_Ok _ _)).
  rewrite (bind_Ok _ _ _ _ _ (_reset_internals_Ok _)).
  destruct s as [A C K Mk L]. st_cbn_goal.
  destruct rm_cache; rewrite ?when_true, ?when_false;
    [mstep; mstep; rewrite (bind_Ok (modify _) _ _ _ _ eq_refl); st_cbn_goal | mstep];
    mstep;
    (destruct (is_None calib_id);
     [ destruct (py_int E (before_comma (fitstbl_calib E frame))) as [n|];
       [ mstep; mstep; cbn [andb];
         destruct (has_comma (fitstbl_calib E frame)); rewrite ?when_true, ?when_false
       | by rewrite (bind_Raise _ _ _ (ValueError "invalid literal for int()") _) by reflexivity ]
     | mstep; mstep; cbn [andb]; rewrite when_false ]);
    repeat mstep;
    (destruct (is_None par); cbn [negb]; rewrite ?when_true, ?when_false; repeat mstep);
    intros [= <-]; st_cbn_goal; (eexists; split; [lookup_solve|done]).
Qed.

End ConfigReports.

Lemma set_config_warnings_witness :
  let E := demo_env in
  let s := constructed E (demo_par "vacuum" (VStr "normalize")) in
  let out := set_config E (VInt 5) (VInt 1) VNone VNone true s in
  out.1 = Ok tt
  ∧ ∃ group, attrs out.2 !! "calib_ID" = Some group
             ∧ emitted s out.2 (config_warnings E (VInt 5) VNone true group).
Proof.
  intros E s out. split; [by vm_compute|].
  apply (set_config_warnings E (VInt 5) (VInt 1) VNone VNone true s out.2). by vm_compute.
Defined.

(** * What the conditional getters leave behind *)

Ltac held_unless_none W :=
  let H := fresh "H" in let Hv := fresh "Hv" in
  let A := fresh "A" in let C := fresh "C" in let K := fresh "K" in
  let Mk := fresh "Mk" in let L := fresh "L" in
  lazymatch goal with |- ∀ v s', _ ?s = _ → _ => destruct s as [A C K Mk L] end;
  st_cbn_all;
  intros ? ? H Hv; unfold held;
  minvs W H; hyp_norm; try congruence; try discriminate; st_cbn_goal;
  (split; [lookup_solve | eexists _, _; split; [lookup_solve | split; [lookup_solve | lookup_solve]]]).

Section HeldUnlessNone.
Variable E : Env.

Lemma get_slits_held redo write_qa s :
  ∀ v s', get_slits E redo write_qa s = (Ok v, s') → is_None v = false →
          held s' "slits" "trace" "trace" v.
Proof. unfold get_slits. held_unless_none ["edges"; "traceImage"; "slits"]. Qed.

Lemma get_wave_held s :
  ∀ v s', get_wave E s = (Ok v, s') → is_None v = false →
          held s' "mswave" "arc" "wave" v.
Proof. unfold get_wave. held_unless_none ["mswave"]. Qed.

Lemma get_flats_held s :
  ∀ v s', get_flats E s = (Ok v, s') → is_None v.1 && is_None v.2 = false →
          held s' "mspixelflat" "flat" "pixelflat" v.1
          ∧ held s' "msillumflat" "flat" "illumflat" v.2.
Proof.
  unfold get_flats.
  let H := fresh "H" in let Hv := fresh "Hv" in
  destruct s as [A C K Mk L];
  st_cbn_all;
  intros ? ? H Hv; unfold held;
  minvs ["mspixelflat"; "msillumflat"] H; hyp_norm; try congruence; try discriminate;
  st_cbn_goal; cbn [fst snd] in *.
  all: split;
    (split; [lookup_solve | eexists _, _; split; [lookup_solve | split; [lookup_solve | lookup_solve]]]).
Qed.

(** [get_slits], [get_wave] and [get_flats] may return None without
    caching anything, when what they need is missing or flat-fielding
    is skipped.  Whatever else they return is held by their
    attribute and is in the cache under their key: the slits, the
    wavelength image, and both flats as soon as one of the two is
    not None. *)
Theorem returned_products_are_cached (redo : bool) (write_qa : value) s :
  (∀ v s', get_slits E redo write_qa s = (Ok v, s') → is_None v = false →
           held s' "slits" "trace" "trace" v)
  ∧ (∀ v s', get_wave E s = (Ok v, s') → is_None v = false →
             held s' "mswave" "arc" "wave" v)
  ∧ (∀ p i s', get_flats E s = (Ok (p, i), s') → is_None p && is_None i = false →
               held s' "mspixelflat" "flat" "pixelflat" p
               ∧ held s' "msillumflat" "flat" "illumflat" i).
Proof.
  split; [apply get_slits_held|]. split; [apply get_wave_held|].
  intros p i s' H Hv. by apply (get_flats_held s (p, i) s').
Qed.

End HeldUnlessNone.

Lemma returned_products_are_cached_witness :
  let E := demo_env in
  let s := after E (demo_par "vacuum" (VStr "normalize")) ["bias"; "bpm"] in
  let out := get_slits E false VNone s in
  out.1 = Ok (VSlits 20 2 [false; false])
  ∧ held out.2 "slits" "trace" "trace" (VSlits 20 2 [false; false]).
Proof.
  intros E s out. split; [by vm_compute|].
  apply (proj1 (returned_products_are_cached E false VNone s)); by vm_compute.
Defined.
